(** * Moltbook agent: the draft lifecycle, verified against the edge functions

    A shallow embedding of the three Supabase edge functions of the
    repository:

    - [Poll.serve]        the scheduled run, which polls Moltbook and
                          generates responses
    - [Regenerate.serve]  the regeneration entry point, called from the
                          dashboard for a new version of a draft
    - [Decision.serve]    the decision entry point (post-to-moltbook),
                          called from the dashboard to approve, edit or
                          reject a draft

    The tables ([post_queue], [activity_log], [seen_posts], [agent_config])
    are fields of a [World]; every awaited call is a step of a small
    state-and-exception monad, so that a write made before a later [throw]
    stays written, as with the awaited Supabase calls of the source.  What
    the collaborators answer (the clock, the identifiers drawn by the
    store, the text-generation service, the feed, the publish API) is an
    [Env], quantified over in every theorem. *)

From Stdlib Require Import ZArith QArith Ascii String.
From stdpp Require Import gmap strings list fin_maps pretty sorting.

Local Open Scope Z_scope.
Local Open Scope string_scope.

(** ** JavaScript values the handlers branch on *)

Module JS.

(** Truthiness of a possibly absent string: [undefined], [null] and the
    empty string are falsy. *)
Definition truthy (v : option string) : bool :=
  match v with
  | Some s => negb (String.eqb s "")
  | None => false
  end.

(** [a || b] on possibly absent strings. *)
Definition or (a b : option string) : option string :=
  if truthy a then a else b.

(** [!!a]. *)
Definition bangbang (a : option string) : bool := truthy a.

(** [String.prototype.toLowerCase] on the ASCII letters.  Strings are byte
    sequences; no character outside [A-Z] lowers to an ASCII letter, so the
    bytes of the other characters are left as they are. *)
Definition lower_ascii (c : ascii) : ascii :=
  let n := N_of_ascii c in
  if ((65 <=? n) && (n <=? 90))%N then ascii_of_N (n + 32) else c.

Fixpoint toLowerCase (s : string) : string :=
  match s with
  | EmptyString => EmptyString
  | String c s' => String (lower_ascii c) (toLowerCase s')
  end.

(** [s.includes(pat)]: [pat] occurs in [s] at some position. *)
Fixpoint includes (s pat : string) : bool :=
  String.prefix pat s ||
  match s with
  | EmptyString => false
  | String _ s' => includes s' pat
  end.

(** [arr.slice(0, n)]. *)
Definition slice0 {A} (n : nat) (l : list A) : list A := take n l.

(** [arr.join(sep)]. *)
Fixpoint join (sep : string) (l : list string) : string :=
  match l with
  | [] => ""
  | [x] => x
  | x :: l' => x +:+ sep +:+ join sep l'
  end.

End JS.

(** One double-quote character, for the prompts and messages that quote. *)
Definition dq : string := String (ascii_of_nat 34) EmptyString.
(** A line feed, for the template literals that span lines. *)
Definition nl : string := String (ascii_of_nat 10) EmptyString.

(** ** Data model: the rows of the tables *)

Inductive DraftType := Reply | Post.
Inductive Status := pending | approved | edited | rejected | superseded | posted.

Global Instance DraftType_eq_dec : EqDecision DraftType.
Proof. solve_decision. Defined.
Global Instance Status_eq_dec : EqDecision Status.
Proof. solve_decision. Defined.

(** The text stored in the [status] column. *)
Definition status_string (s : Status) : string :=
  match s with
  | pending => "pending"
  | approved => "approved"
  | edited => "edited"
  | rejected => "rejected"
  | superseded => "superseded"
  | posted => "posted"
  end.

(** The text stored in the [type] column. *)
Definition type_string (t : DraftType) : string :=
  match t with Reply => "reply" | Post => "post" end.

(** A post of the inbound feed ([interface MoltbookPost]). *)
Module MoltbookPost.
Record t := {
  id : string;
  title : string;
  content : string;
  submolt : string;
  author : string;
  created_at : string
}.
End MoltbookPost.

(** The [context] column: the snapshot taken when the draft was generated. *)
Module Context.
Record original_post_t := {
  id : string;
  title : string;
  content : string;
  author : string;
  submolt : string
}.
Record t := {
  original_post : option original_post_t;
  generated_at : Z;
  trigger : option string
}.
End Context.

(** A row of [post_queue].  Timestamps are milliseconds since the epoch
    (the source writes them with [toISOString] and reads them with
    [new Date(..).getTime()]); nullable columns are options. *)
Module Draft.
Record t := {
  id : string;
  type : DraftType;
  title : option string;
  content : option string;
  submolt : option string;
  reply_to_post_id : option string;
  reply_to_comment_id : option string;
  context : option Context.t;
  generation_attempt : Z;
  root_draft_id : option string;
  status : Status;
  final_content : option string;
  moltbook_post_id : option string;
  moltbook_comment_id : option string;
  decided_at : option Z;
  posted_at : option Z;
  created_at : Z
}.
End Draft.

(** The object given to [.insert(..)] on [post_queue]: the columns the
    source's inserts name.  A key the source leaves out, or whose value is
    [undefined], is [None] and takes the column default. *)
Module Insert.
Record t := {
  type : DraftType;
  title : option string;
  content : option string;
  submolt : option string;
  reply_to_post_id : option string;
  reply_to_comment_id : option string;
  context : option Context.t;
  generation_attempt : option Z;
  root_draft_id : option string
}.
End Insert.

(** Modelled from the spec: the column defaults of [post_queue], whose
    schema is not part of the sources.  A new row is [pending], its attempt
    number is 0 unless given, its [created_at] is the insertion time, and
    every lifecycle column is null. *)
Definition row_of_insert (new_id : string) (now : Z) (c : Insert.t) : Draft.t :=
  {| Draft.id := new_id;
     Draft.type := Insert.type c;
     Draft.title := Insert.title c;
     Draft.content := Insert.content c;
     Draft.submolt := Insert.submolt c;
     Draft.reply_to_post_id := Insert.reply_to_post_id c;
     Draft.reply_to_comment_id := Insert.reply_to_comment_id c;
     Draft.context := Insert.context c;
     Draft.generation_attempt := default 0 (Insert.generation_attempt c);
     Draft.root_draft_id := Insert.root_draft_id c;
     Draft.status := pending;
     Draft.final_content := None;
     Draft.moltbook_post_id := None;
     Draft.moltbook_comment_id := None;
     Draft.decided_at := None;
     Draft.posted_at := None;
     Draft.created_at := now |}.

(** The object given to [.update(..)] on [post_queue]: [None] is a key
    that is absent (or [undefined], which the JSON encoding drops), so the
    column keeps its value; [final_content] can also be set to null. *)
Module Patch.
Record t := {
  status : option Status;
  final_content : option (option string);
  moltbook_post_id : option string;
  moltbook_comment_id : option string;
  decided_at : option Z;
  posted_at : option Z;
  root_draft_id : option string
}.

(** The row after the update. *)
Definition apply (p : t) (d : Draft.t) : Draft.t :=
  {| Draft.id := Draft.id d;
     Draft.type := Draft.type d;
     Draft.title := Draft.title d;
     Draft.content := Draft.content d;
     Draft.submolt := Draft.submolt d;
     Draft.reply_to_post_id := Draft.reply_to_post_id d;
     Draft.reply_to_comment_id := Draft.reply_to_comment_id d;
     Draft.context := Draft.context d;
     Draft.generation_attempt := Draft.generation_attempt d;
     Draft.root_draft_id :=
       match root_draft_id p with Some r => Some r | None => Draft.root_draft_id d end;
     Draft.status := default (Draft.status d) (status p);
     Draft.final_content := default (Draft.final_content d) (final_content p);
     Draft.moltbook_post_id :=
       match moltbook_post_id p with Some i => Some i | None => Draft.moltbook_post_id d end;
     Draft.moltbook_comment_id :=
       match moltbook_comment_id p with Some i => Some i | None => Draft.moltbook_comment_id d end;
     Draft.decided_at :=
       match decided_at p with Some t => Some t | None => Draft.decided_at d end;
     Draft.posted_at :=
       match posted_at p with Some t => Some t | None => Draft.posted_at d end;
     Draft.created_at := Draft.created_at d |}.
End Patch.

(** The [details] object of an activity-log entry, one shape per writer. *)
Inductive Details :=
| NoDetails
| GeneratedDetails (type : string) (to_post : string)
| DecidedDetails (moltbook_id : option string) (was_edited : bool)
| PostedDetails (moltbook_id : option string)
| RegeneratedDetails (previous_draft_id : string) (attempt_number : Z)
    (feedback : option string).

Module ActivityLogEntry.
Record t := {
  action : string;
  post_queue_id : string;
  details : Details
}.
End ActivityLogEntry.

(** The single row of [agent_config]. *)
Module AgentConfig.
Record t := {
  persona : option string;
  topics : list string;
  target_submolts : list string;
  auto_post : bool;
  post_frequency_minutes : Z;
  api_key : option string
}.
End AgentConfig.

(** ** Collaborators: the requests sent and the answers received *)

(** The arguments of [openaiChat]. *)
Module Chat.
Record request := {
  apiKey : string;
  system : string;
  user : string;
  model : string;
  maxTokens : Z;
  json : bool
}.
(** What the completion endpoint answers: the message content, or a
    non-2xx status with its body. *)
Inductive response :=
| Ok (content : string)
| Fail (status : Z) (body : string).
End Chat.

(** The two publish calls. *)
Inductive PublishRequest :=
| CreatePost (apiKey : option string) (submolt title content : option string)
| CreateComment (apiKey : option string) (reply_to_post_id : option string)
    (content : option string).

(** What [fetch] resolves to for a publish call.  [json] is the result of
    [response.json()] followed by [data.id]: [None] when the body does not
    parse (the call throws), [Some None] when it parses without an [id]. *)
Module Fetch.
Record response := {
  ok : bool;
  status : Z;
  text : string;
  json : option (option string)
}.
End Fetch.

(** What [fetch] resolves to for a page of the feed, as the run reads it
    ([response.ok], then [response.json()] and [data.posts]): a page that
    is not ok, the posts of an ok page, or an ok page that cannot be read,
    because its body does not parse or its [posts] cannot be spread; the
    message is that of the error thrown. *)
Module Feed.
Inductive response :=
| NotOk
| Page (posts : list MoltbookPost.t)
| Malformed (message : string).
End Feed.

(** What [JSON.parse] makes of a generated original post: [null], or a
    value read at [.title] and [.content] (absent keys are [None]). *)
Inductive Parsed :=
| ParsedNull
| ParsedValue (title content : option string).

(** Every request that leaves the process, in order. *)
Inductive Outbound :=
| ToOpenAI (r : Chat.request)
| ToFeed (submolt : string)
| ToPublish (r : PublishRequest).

(** The environment of a handler: whatever the outside world answers.  The
    first argument is the number of interactions made so far, so that two
    identical requests may be answered differently.  [Math_random_index n]
    stands for [Math.floor(Math.random() * n)]; [JSON_parse] is [None]
    where [JSON.parse] throws. *)
Record Env := {
  Date_now : nat -> Z;
  gen_random_uuid : nat -> string;
  Math_random_index : nat -> nat -> nat;
  openai : nat -> Chat.request -> Chat.response;
  feed : nat -> string -> Feed.response;
  publish : nat -> PublishRequest -> Fetch.response;
  JSON_parse : string -> option Parsed
}.

(** ** The world a handler runs in *)

(** Modelled from the spec: the keys of the tables, whose schema is not
    part of the sources.  [post_queue] is keyed by the unique id of a
    draft and [seen_posts] by the source-post identifier, so the first is
    a finite map and the second a finite set; [agent_config] holds at most
    one row; the activity log is append-only.  [outbound] records the
    requests sent so far and [tick] counts the interactions. *)
Record World := {
  post_queue : gmap string Draft.t;
  activity_log : list ActivityLogEntry.t;
  seen_posts : gset string;
  agent_config : option AgentConfig.t;
  OPENAI_API_KEY : option string;
  outbound : list Outbound;
  tick : nat
}.

(** The world with one table replaced. *)
Definition set_post_queue (q : gmap string Draft.t) (w : World) : World :=
  {| post_queue := q;
     activity_log := activity_log w;
     seen_posts := seen_posts w;
     agent_config := agent_config w;
     OPENAI_API_KEY := OPENAI_API_KEY w;
     outbound := outbound w;
     tick := tick w |}.

Definition set_activity_log (l : list ActivityLogEntry.t) (w : World) : World :=
  {| post_queue := post_queue w;
     activity_log := l;
     seen_posts := seen_posts w;
     agent_config := agent_config w;
     OPENAI_API_KEY := OPENAI_API_KEY w;
     outbound := outbound w;
     tick := tick w |}.

Definition set_seen_posts (s : gset string) (w : World) : World :=
  {| post_queue := post_queue w;
     activity_log := activity_log w;
     seen_posts := s;
     agent_config := agent_config w;
     OPENAI_API_KEY := OPENAI_API_KEY w;
     outbound := outbound w;
     tick := tick w |}.

(** One interaction with the outside: the request is recorded and the
    interaction counter advances. *)
Definition interact (sent : list Outbound) (w : World) : World :=
  {| post_queue := post_queue w;
     activity_log := activity_log w;
     seen_posts := seen_posts w;
     agent_config := agent_config w;
     OPENAI_API_KEY := OPENAI_API_KEY w;
     outbound := outbound w ++ sent;
     tick := S (tick w) |}.

(** ** The handler monad: state, and exceptions that keep the state *)

Inductive Outcome (A : Type) :=
| Return (a : A)
| Throw (message : string).
Arguments Return {A} a.
Arguments Throw {A} message.

(** A computation: from a world to an outcome and the world it leaves. *)
Definition M (A : Type) : Type := World -> Outcome A * World.

Definition ret {A} (a : A) : M A := fun w => (Return a, w).

Definition throw {A} (message : string) : M A := fun w => (Throw message, w).

(** [await m] and then [k]: a throw of [m] ends the computation in the
    world that [m] left. *)
Definition bind {A B} (m : M A) (k : A -> M B) : M B :=
  fun w =>
    match m w with
    | (Return a, w') => k a w'
    | (Throw e, w') => (Throw e, w')
    end.

Declare Scope handler_scope.
Delimit Scope handler_scope with handler.
Notation "x <- m ; k" := (bind m (fun x => k))
  (at level 20, m at level 100, k at level 200, only parsing) : handler_scope.
Notation "m ;;; k" := (bind m (fun _ => k))
  (at level 100, k at level 200, only parsing, right associativity) : handler_scope.
Local Open Scope handler_scope.

(** What the caller of an entry point receives: the JSON body with status
    200, or [{ error: message }] with status 500 from the [catch]. *)
Inductive Response (B : Type) :=
| Ok200 (body : B)
| Error500 (error : string).
Arguments Ok200 {B} body.
Arguments Error500 {B} error.

(** [try { .. } catch (error) { .. }] around a handler body. *)
Definition try_catch {B} (m : M B) (w : World) : Response B * World :=
  match m w with
  | (Return b, w') => (Ok200 b, w')
  | (Throw e, w') => (Error500 e, w')
  end.

(** ** The store and the collaborators, as steps of the monad

    The store is reliable: a read sees the table, a write that breaks no
    key is applied.  The source never inspects the result of an [update]
    or of an activity-log [insert]. *)

Section Steps.
Context (E : Env).

(** [new Date().toISOString()] and [Date.now()]. *)
Definition now : M Z :=
  fun w => (Return (Date_now E (tick w)), interact [] w).

(** [.from("post_queue").select("*").eq("id", id).single()]: the row, or
    an error when there is none. *)
Definition select_draft (id : string) : M (option Draft.t) :=
  fun w => (Return (post_queue w !! id), w).

(** [.from("post_queue").update(patch).eq("id", id)]: no row, no change. *)
Definition update_draft (p : Patch.t) (id : string) : M unit :=
  fun w => (Return tt, set_post_queue (alter (Patch.apply p) id (post_queue w)) w).

(** [.from("post_queue").insert(c).select().single()]: the store draws
    the id and stamps [created_at]; the result is the inserted row, or
    [None] (an error) when the id is taken. *)
Definition insert_draft (c : Insert.t) : M (option Draft.t) :=
  fun w =>
    let new_id := gen_random_uuid E (tick w) in
    let row := row_of_insert new_id (Date_now E (tick w)) c in
    match post_queue w !! new_id with
    | Some _ => (Return None, interact [] w)
    | None =>
        (Return (Some row),
         set_post_queue (<[new_id := row]> (post_queue w)) (interact [] w))
    end.

(** [.from("activity_log").insert(entry)]. *)
Definition log_activity (e : ActivityLogEntry.t) : M unit :=
  fun w => (Return tt, set_activity_log (activity_log w ++ [e]) w).

(** [.from("agent_config").select(..).single()]. *)
Definition select_config : M (option AgentConfig.t) :=
  fun w => (Return (agent_config w), w).

(** [.from("seen_posts").select("moltbook_post_id")]. *)
Definition select_seen_posts : M (gset string) :=
  fun w => (Return (seen_posts w), w).

(** [.from("seen_posts").upsert({ moltbook_post_id })]. *)
Definition upsert_seen_post (id : string) : M unit :=
  fun w => (Return tt, set_seen_posts ({[ id ]} ∪ seen_posts w) w).

(** [Deno.env.get("OPENAI_API_KEY")]. *)
Definition env_openai_key : M (option string) :=
  fun w => (Return (OPENAI_API_KEY w), w).

(** A publish [fetch]. *)
Definition fetch_publish (r : PublishRequest) : M Fetch.response :=
  fun w => (Return (publish E (tick w) r), interact [ToPublish r] w).

(** A feed [fetch], with the reading of the page that follows it when
    the answer is ok: the posts of the page, [None] when the answer is not
    ok, and a throw when the page cannot be read. *)
Definition fetch_feed (submolt : string) : M (option (list MoltbookPost.t)) :=
  fun w =>
    match feed E (tick w) submolt with
    | Feed.NotOk => (Return None, interact [ToFeed submolt] w)
    | Feed.Page posts => (Return (Some posts), interact [ToFeed submolt] w)
    | Feed.Malformed message => (Throw message, interact [ToFeed submolt] w)
    end.

(** [openaiChat]: the message content, or a throw on a non-2xx answer. *)
Definition openaiChat (r : Chat.request) : M string :=
  fun w =>
    match openai E (tick w) r with
    | Chat.Ok content => (Return content, interact [ToOpenAI r] w)
    | Chat.Fail status body =>
        (Throw ("OpenAI API error: " +:+ pretty status +:+ " - " +:+ body),
         interact [ToOpenAI r] w)
    end.

End Steps.

(** ** The decision entry point (post-to-moltbook) *)

Module Decision.

(** The JSON body of the request. *)
Record request := {
  draft_id : option string;
  action : option string;
  edited_content : option string;
  edited_title : option string
}.

(** The JSON body of a 200 answer. *)
Inductive body :=
| Rejected
| Published (action : string) (moltbook_id : option string) (moltbook_url : string).

(** [["approve", "reject", "edit"].includes(action)]. *)
Definition is_action (a : option string) : bool :=
  match a with
  | Some s => bool_decide (s ∈ ["approve"; "reject"; "edit"])
  | None => false
  end.

(** The message of the throw for a draft that is not pending. *)
Definition already_processed (s : Status) : string :=
  "Draft already processed (status: " +:+ status_string s +:+ ")".

(** The message of the throw for a publish answer that is not ok. *)
Definition api_error (r : Fetch.response) : string :=
  "Moltbook API error: " +:+ pretty (Fetch.status r) +:+ " - " +:+ Fetch.text r.

(** The [moltbook_url] of the answer. *)
Definition moltbook_url (draft : Draft.t) (moltbookId : option string) : string :=
  match Draft.type draft with
  | Post =>
      "https://www.moltbook.com/m/" +:+ default "null" (Draft.submolt draft)
        +:+ "/" +:+ default "undefined" moltbookId
  | Reply =>
      "https://www.moltbook.com/m/" +:+ default "null" (Draft.submolt draft)
        +:+ "/" +:+ default "null" (Draft.reply_to_post_id draft)
        +:+ "#" +:+ default "undefined" moltbookId
  end.

(** The update written after a successful publish. *)
Definition decided_patch (draft : Draft.t) (wasEdited : bool)
    (finalContent moltbookId : option string) (t_decided t_posted : Z) : Patch.t :=
  {| Patch.status := Some (if wasEdited then edited else approved);
     Patch.final_content := Some (if wasEdited then finalContent else None);
     Patch.moltbook_post_id :=
       match Draft.type draft with Post => moltbookId | Reply => None end;
     Patch.moltbook_comment_id :=
       match Draft.type draft with Post => None | Reply => moltbookId end;
     Patch.decided_at := Some t_decided;
     Patch.posted_at := Some t_posted;
     Patch.root_draft_id := None |}.

(** The update written by a reject. *)
Definition rejected_patch (t_decided : Z) : Patch.t :=
  {| Patch.status := Some rejected;
     Patch.final_content := None;
     Patch.moltbook_post_id := None;
     Patch.moltbook_comment_id := None;
     Patch.decided_at := Some t_decided;
     Patch.posted_at := None;
     Patch.root_draft_id := None |}.

(** The request sent for a draft: a post, or a comment on a post. *)
Definition publish_request (api_key : option string) (draft : Draft.t)
    (finalTitle finalContent : option string) : PublishRequest :=
  match Draft.type draft with
  | Post => CreatePost api_key (Draft.submolt draft) finalTitle finalContent
  | Reply => CreateComment api_key (Draft.reply_to_post_id draft) finalContent
  end.

(** [!!edited_content || !!edited_title]. *)
Definition wasEdited (edited_content edited_title : option string) : bool :=
  JS.bangbang edited_content || JS.bangbang edited_title.

Section Handler.
Context (E : Env).

(** The publish call and the update that follow a decision other than
    [reject]. *)
Definition publish_decision (id : string) (draft : Draft.t) (req : request) : M body :=
  config <- select_config;
  let api_key := config ≫= AgentConfig.api_key in
  if negb (JS.truthy api_key) then throw "Moltbook API key not configured" else
  let finalContent := JS.or (edited_content req) (Draft.content draft) in
  let finalTitle := JS.or (edited_title req) (Draft.title draft) in
  let wasEdited := wasEdited (edited_content req) (edited_title req) in
  response <- fetch_publish E (publish_request api_key draft finalTitle finalContent);
  if negb (Fetch.ok response) then throw (api_error response) else
  match Fetch.json response with
  | None => throw "Unexpected token in JSON"
  | Some moltbookId =>
      t_decided <- now E;
      t_posted <- now E;
      update_draft
        (decided_patch draft wasEdited finalContent moltbookId t_decided t_posted)
        id;;;
      log_activity
        {| ActivityLogEntry.action := if wasEdited then "edited" else "approved";
           ActivityLogEntry.post_queue_id := id;
           ActivityLogEntry.details := DecidedDetails moltbookId wasEdited |};;;
      ret (Published (if wasEdited then "edited" else "approved") moltbookId
             (moltbook_url draft moltbookId))
  end.

(** The body of the [try] block. *)
Definition handler (req : request) : M body :=
  if negb (JS.truthy (draft_id req)) then throw "draft_id is required" else
  let id := default "" (draft_id req) in
  if negb (is_action (action req)) then
    throw "action must be 'approve', 'reject', or 'edit'"
  else
  draft <- select_draft id;
  match draft with
  | None => throw "Draft not found"
  | Some draft =>
      if negb (bool_decide (Draft.status draft = pending)) then
        throw (already_processed (Draft.status draft))
      else if bool_decide (action req = Some "reject") then
        t_decided <- now E;
        update_draft (rejected_patch t_decided) id;;;
        log_activity
          {| ActivityLogEntry.action := "rejected";
             ActivityLogEntry.post_queue_id := id;
             ActivityLogEntry.details := NoDetails |};;;
        ret Rejected
      else publish_decision id draft req
  end.

(** The entry point: the handler inside its [try] and [catch]. *)
Definition serve (req : request) (w : World) : Response body * World :=
  try_catch (handler req) w.

End Handler.

End Decision.

(** ** The regeneration entry point *)

Module Regenerate.

(** The JSON body of the request. *)
Record request := {
  draft_id : option string;
  feedback : option string
}.

(** [a || b] where [b] is a string. *)
Definition or_string (a : option string) (b : string) : string :=
  default b (JS.or a (Some b)).

(** The order of [.order("generation_attempt", { ascending: true })]. *)
Definition attempt_le (a b : Draft.t) : Prop :=
  Draft.generation_attempt a <= Draft.generation_attempt b.

Global Instance attempt_le_dec : RelDecision attempt_le.
Proof. intros a b. unfold attempt_le. apply _. Defined.

(** [.from("post_queue").select("content, generation_attempt")
     .eq("root_draft_id", rootId).order("generation_attempt")]. *)
Definition previous_attempts (rootId : string) (q : gmap string Draft.t) : list Draft.t :=
  merge_sort attempt_le
    (filter (fun d => Draft.root_draft_id d = Some rootId) (map_to_list q).*2).

(** The previous attempts as the prompt lists them. *)
Definition previous_versions (attempts : list Draft.t) : string :=
  JS.join (nl +:+ nl)
    (map (fun a => "Attempt " +:+ pretty (Draft.generation_attempt a) +:+ ": " +:+ dq
                     +:+ default "null" (Draft.content a) +:+ dq) attempts).

(** The persona used when the configuration has none. *)
Definition default_persona : string := "You are a helpful AI agent.".

Definition persona_of (config : option AgentConfig.t) : string :=
  or_string (config ≫= AgentConfig.persona) default_persona.

(** The request for a new version of a reply. *)
Definition reply_request (apiKey : string) (config : option AgentConfig.t)
    (attemptNumber : Z) (feedback : option string) (context : Context.t)
    (previousVersions : string) : Chat.request :=
  let original_post := Context.original_post context in
  {| Chat.apiKey := apiKey;
     Chat.system :=
       persona_of config +:+ nl +:+ nl
       +:+ "You are regenerating a reply for Moltbook (a social network for AI agents)." +:+ nl
       +:+ "This is attempt #" +:+ pretty attemptNumber
       +:+ ". Previous versions were not approved." +:+ nl
       +:+ "Try a DIFFERENT angle, tone, or approach. Don't repeat similar content." +:+ nl
       +:+ "Keep responses concise (2-4 sentences), insightful, and conversational." +:+ nl
       +:+ (if JS.truthy feedback
            then nl +:+ "User feedback on why previous version wasn't good: "
                 +:+ default "" feedback
            else "");
     Chat.user :=
       "Original post to reply to:" +:+ nl
       +:+ "Title: " +:+ default "undefined" (Context.title <$> original_post) +:+ nl
       +:+ "Author: @" +:+ default "undefined" (Context.author <$> original_post) +:+ nl
       +:+ "Content: " +:+ default "undefined" (Context.content <$> original_post) +:+ nl
       +:+ nl
       +:+ "Previous attempts that weren't approved:" +:+ nl
       +:+ previousVersions +:+ nl
       +:+ nl
       +:+ "Generate a new, different reply.";
     Chat.model := "gpt-4o";
     Chat.maxTokens := 500;
     Chat.json := false |}.

(** The request for a new version of an original post. *)
Definition post_request (apiKey : string) (config : option AgentConfig.t)
    (attemptNumber : Z) (feedback : option string) (submolt : option string)
    (previousVersions : string) : Chat.request :=
  {| Chat.apiKey := apiKey;
     Chat.system :=
       persona_of config +:+ nl +:+ nl
       +:+ "You are regenerating an original post for Moltbook." +:+ nl
       +:+ "This is attempt #" +:+ pretty attemptNumber
       +:+ ". Previous versions were not approved." +:+ nl
       +:+ "Try a DIFFERENT topic, angle, or style. Don't repeat similar content." +:+ nl
       +:+ "Format your response as JSON: {" +:+ dq +:+ "title" +:+ dq +:+ ": "
       +:+ dq +:+ "..." +:+ dq +:+ ", " +:+ dq +:+ "content" +:+ dq +:+ ": "
       +:+ dq +:+ "..." +:+ dq +:+ "}" +:+ nl
       +:+ (if JS.truthy feedback
            then nl +:+ "User feedback: " +:+ default "" feedback
            else "");
     Chat.user :=
       "Target submolt: " +:+ default "null" submolt +:+ nl
       +:+ nl
       +:+ "Previous attempts that weren't approved:" +:+ nl
       +:+ previousVersions +:+ nl
       +:+ nl
       +:+ "Generate a new, different post.";
     Chat.model := "gpt-4o";
     Chat.maxTokens := 600;
     Chat.json := true |}.

(** The update that marks the old draft. *)
Definition superseded_patch (t_decided : Z) : Patch.t :=
  {| Patch.status := Some superseded;
     Patch.final_content := None;
     Patch.moltbook_post_id := None;
     Patch.moltbook_comment_id := None;
     Patch.decided_at := Some t_decided;
     Patch.posted_at := None;
     Patch.root_draft_id := None |}.

(** The row inserted for the new attempt. *)
Definition new_attempt (original : Draft.t) (newTitle newContent : option string)
    (attemptNumber : Z) (rootId : string) : Insert.t :=
  {| Insert.type := Draft.type original;
     Insert.title := JS.or newTitle (Draft.title original);
     Insert.content := newContent;
     Insert.submolt := Draft.submolt original;
     Insert.reply_to_post_id := Draft.reply_to_post_id original;
     Insert.reply_to_comment_id := Draft.reply_to_comment_id original;
     Insert.context := Draft.context original;
     Insert.generation_attempt := Some attemptNumber;
     Insert.root_draft_id := Some rootId |}.

Section Handler.
Context (E : Env).

(** The new content and, for a post, the new title. *)
Definition generate (apiKey : string) (config : option AgentConfig.t)
    (original : Draft.t) (attemptNumber : Z) (feedback : option string)
    (previousVersions : string) : M (option string * option string) :=
  match Draft.type original with
  | Reply =>
      match Draft.context original with
      | None => throw "Cannot read properties of null (reading 'original_post')"
      | Some context =>
          newContent <-
            openaiChat E
              (reply_request apiKey config attemptNumber feedback context previousVersions);
          ret (Some newContent, None)
      end
  | Post =>
      response <-
        openaiChat E
          (post_request apiKey config attemptNumber feedback (Draft.submolt original)
             previousVersions);
      match JSON_parse E response with
      | Some (ParsedValue title content) => ret (content, title)
      | Some ParsedNull | None => ret (Some response, None)
      end
  end.

(** The body of the [try] block. *)
Definition handler (req : request) : M Draft.t :=
  if negb (JS.truthy (draft_id req)) then throw "draft_id is required" else
  let id := default "" (draft_id req) in
  openaiApiKey <- env_openai_key;
  if negb (JS.truthy openaiApiKey) then
    throw "OPENAI_API_KEY not configured in Supabase secrets"
  else
  original <- select_draft id;
  match original with
  | None => throw "Draft not found"
  | Some original =>
      config <- select_config;
      let rootId := or_string (Draft.root_draft_id original) id in
      previousAttempts <- (fun w => (Return (previous_attempts rootId (post_queue w)), w));
      let attemptNumber := Draft.generation_attempt original + 1 in
      let previousVersions := previous_versions previousAttempts in
      generated <-
        generate (default "" openaiApiKey) config original attemptNumber (feedback req)
          previousVersions;
      let '(newContent, newTitle) := generated in
      t_decided <- now E;
      update_draft (superseded_patch t_decided) id;;;
      newDraft <- insert_draft E (new_attempt original newTitle newContent attemptNumber rootId);
      match newDraft with
      | None => throw "duplicate key value violates unique constraint"
      | Some newDraft =>
          log_activity
            {| ActivityLogEntry.action := "regenerated";
               ActivityLogEntry.post_queue_id := Draft.id newDraft;
               ActivityLogEntry.details :=
                 RegeneratedDetails id attemptNumber (JS.or (feedback req) None) |};;;
          ret newDraft
      end
  end.

(** The entry point: the handler inside its [try] and [catch]. *)
Definition serve (req : request) (w : World) : Response Draft.t * World :=
  try_catch (handler req) w.

End Handler.

End Regenerate.

(** ** The scheduled run *)

Module Poll.

(** The JSON body of a 200 answer. *)
Record body := {
  posts_checked : nat;
  drafts_created : nat;
  auto_posted : bool
}.

(** The request of [checkRelevance]. *)
Definition relevance_request (apiKey : string) (post : MoltbookPost.t)
    (config : AgentConfig.t) : Chat.request :=
  {| Chat.apiKey := apiKey;
     Chat.system :=
       "You determine if posts are relevant to these topics: "
       +:+ JS.join ", " (AgentConfig.topics config)
       +:+ ". Reply only " +:+ dq +:+ "yes" +:+ dq +:+ " or " +:+ dq +:+ "no" +:+ dq +:+ ".";
     Chat.user :=
       "Title: " +:+ MoltbookPost.title post +:+ nl
       +:+ "Content: " +:+ MoltbookPost.content post;
     Chat.model := "gpt-4o-mini";
     Chat.maxTokens := 10;
     Chat.json := false |}.

(** [response.toLowerCase().includes("yes")]. *)
Definition says_yes (response : string) : bool :=
  JS.includes (JS.toLowerCase response) "yes".

(** The request of [generateReply]. *)
Definition reply_request (apiKey : string) (post : MoltbookPost.t)
    (config : AgentConfig.t) : Chat.request :=
  {| Chat.apiKey := apiKey;
     Chat.system :=
       default "null" (AgentConfig.persona config) +:+ nl +:+ nl
       +:+ "You are responding to a post on Moltbook (a social network for AI agents)." +:+ nl
       +:+ "Keep responses concise (2-4 sentences), insightful, and conversational." +:+ nl
       +:+ "Don't be sycophantic. Share genuine perspectives." +:+ nl
       +:+ "Never start with " +:+ dq +:+ "Great post!" +:+ dq +:+ " or similar.";
     Chat.user :=
       "Reply to this post in " +:+ MoltbookPost.submolt post +:+ ":" +:+ nl +:+ nl
       +:+ "Title: " +:+ MoltbookPost.title post +:+ nl
       +:+ "Author: @" +:+ MoltbookPost.author post +:+ nl
       +:+ "Content: " +:+ MoltbookPost.content post;
     Chat.model := "gpt-4o";
     Chat.maxTokens := 500;
     Chat.json := false |}.

(** The request of [generateOriginalPost]. *)
Definition original_post_request (apiKey : string) (config : AgentConfig.t)
    (submolt : option string) : Chat.request :=
  {| Chat.apiKey := apiKey;
     Chat.system :=
       default "null" (AgentConfig.persona config) +:+ nl +:+ nl
       +:+ "You are creating an original post for Moltbook (a social network for AI agents)." +:+ nl
       +:+ "Write something thoughtful about your focus areas." +:+ nl
       +:+ "Format your response as JSON: {" +:+ dq +:+ "title" +:+ dq +:+ ": "
       +:+ dq +:+ "..." +:+ dq +:+ ", " +:+ dq +:+ "content" +:+ dq +:+ ": "
       +:+ dq +:+ "..." +:+ dq +:+ "}" +:+ nl
       +:+ "Keep titles under 100 characters. Content should be 2-5 sentences.";
     Chat.user :=
       "Create an original post for the " +:+ default "undefined" submolt
       +:+ " submolt. Share an insight, ask a question, or start a discussion.";
     Chat.model := "gpt-4o";
     Chat.maxTokens := 600;
     Chat.json := true |}.

(** The row inserted for a reply to [post]. *)
Definition reply_insert (post : MoltbookPost.t) (content : string) (generated_at : Z)
    : Insert.t :=
  {| Insert.type := Reply;
     Insert.title := None;
     Insert.content := Some content;
     Insert.submolt := Some (MoltbookPost.submolt post);
     Insert.reply_to_post_id := Some (MoltbookPost.id post);
     Insert.reply_to_comment_id := None;
     Insert.context :=
       Some {| Context.original_post :=
                 Some {| Context.id := MoltbookPost.id post;
                         Context.title := MoltbookPost.title post;
                         Context.content := MoltbookPost.content post;
                         Context.author := MoltbookPost.author post;
                         Context.submolt := MoltbookPost.submolt post |};
               Context.generated_at := generated_at;
               Context.trigger := None |};
     Insert.generation_attempt := None;
     Insert.root_draft_id := None |}.

(** The row inserted for an original post. *)
Definition original_post_insert (title content submolt : option string)
    (generated_at : Z) : Insert.t :=
  {| Insert.type := Post;
     Insert.title := title;
     Insert.content := content;
     Insert.submolt := submolt;
     Insert.reply_to_post_id := None;
     Insert.reply_to_comment_id := None;
     Insert.context :=
       Some {| Context.original_post := None;
               Context.generated_at := generated_at;
               Context.trigger := Some "scheduled" |};
     Insert.generation_attempt := None;
     Insert.root_draft_id := None |}.

(** [.update({ root_draft_id: inserted.id })]. *)
Definition root_patch (id : string) : Patch.t :=
  {| Patch.status := None;
     Patch.final_content := None;
     Patch.moltbook_post_id := None;
     Patch.moltbook_comment_id := None;
     Patch.decided_at := None;
     Patch.posted_at := None;
     Patch.root_draft_id := Some id |}.

(** The update written by [postToMoltbook] when the answer is ok. *)
Definition posted_patch (draft : Draft.t) (moltbookId : option string) (t_posted : Z)
    : Patch.t :=
  {| Patch.status := Some posted;
     Patch.final_content := None;
     Patch.moltbook_post_id :=
       match Draft.type draft with Post => moltbookId | Reply => None end;
     Patch.moltbook_comment_id :=
       match Draft.type draft with Post => None | Reply => moltbookId end;
     Patch.decided_at := None;
     Patch.posted_at := Some t_posted;
     Patch.root_draft_id := None |}.

(** The request [postToMoltbook] sends for a draft. *)
Definition publish_request (apiKey : string) (draft : Draft.t) : PublishRequest :=
  match Draft.type draft with
  | Post =>
      CreatePost (Some apiKey) (Draft.submolt draft) (Draft.title draft)
        (JS.or (Draft.final_content draft) (Draft.content draft))
  | Reply =>
      CreateComment (Some apiKey) (Draft.reply_to_post_id draft)
        (JS.or (Draft.final_content draft) (Draft.content draft))
  end.

(** The order of [.order("created_at", { ascending: false })]. *)
Definition newer (a b : Z) : Prop := b <= a.

Global Instance newer_dec : RelDecision newer.
Proof. intros a b. unfold newer. apply _. Defined.

(** [.from("post_queue").select("created_at").eq("type", "post")]. *)
Definition post_created_ats (q : gmap string Draft.t) : list Z :=
  Draft.created_at <$> filter (fun d => Draft.type d = Post) (map_to_list q).*2.

(** [.order("created_at", { ascending: false }).limit(1)], then
    [recentPosts?.[0]?.created_at]. *)
Definition lastPostTime (q : gmap string Draft.t) : option Z :=
  head (merge_sort newer (post_created_ats q)).

(** A JavaScript number that is a quotient of integers, or [Infinity]. *)
Inductive Minutes :=
| Finite (q : Q)
| Infinity.

(** [lastPostTime ? (Date.now() - new Date(lastPostTime).getTime()) / 60000
                  : Infinity].  The quotient is kept exact. *)
Definition minutesSince (now : Z) (last : Z) : Minutes :=
  Finite (Qmake (now - last) 60000).

(** [minutesSinceLastPost >= config.post_frequency_minutes]. *)
Definition minutes_ge (m : Minutes) (frequency : Z) : bool :=
  match m with
  | Finite q => Qle_bool (inject_Z frequency) q
  | Infinity => true
  end.

Section Handler.
Context (E : Env).

(** "Check if a post is relevant to our agent's focus". *)
Definition checkRelevance (apiKey : string) (post : MoltbookPost.t)
    (config : AgentConfig.t) : M bool :=
  response <- openaiChat E (relevance_request apiKey post config);
  ret (says_yes response).

(** "Generate a reply to a post": the content of the reply. *)
Definition generateReply (apiKey : string) (post : MoltbookPost.t)
    (config : AgentConfig.t) : M string :=
  openaiChat E (reply_request apiKey post config).

(** [Math.floor(Math.random() * n)]. *)
Definition random_index (n : nat) : M nat :=
  fun w => (Return (Math_random_index E (tick w) n), interact [] w).

(** The title, the content and the submolt of a new original post. *)
Definition generateOriginalPost (apiKey : string) (config : AgentConfig.t)
    : M (option string * option string * option string) :=
  i <- random_index (length (AgentConfig.target_submolts config));
  let submolt := AgentConfig.target_submolts config !! i in
  response <- openaiChat E (original_post_request apiKey config submolt);
  match JSON_parse E response with
  | None => throw "Unexpected token in JSON"
  | Some ParsedNull => ret (None, None, submolt)
  | Some (ParsedValue title content) => ret (title, content, submolt)
  end.

(** "Post content to Moltbook".  The body of the answer is parsed before
    [response.ok] is looked at, and nothing is done when it is not ok. *)
Definition postToMoltbook (queueId : string) (apiKey : string) : M unit :=
  draft <- select_draft queueId;
  match draft with
  | None => ret tt
  | Some draft =>
      response <- fetch_publish E (publish_request apiKey draft);
      match Fetch.json response with
      | None => throw "Unexpected token in JSON"
      | Some moltbookId =>
          if Fetch.ok response then
            t_posted <- now E;
            update_draft (posted_patch draft moltbookId t_posted) queueId;;;
            log_activity
              {| ActivityLogEntry.action := "posted";
                 ActivityLogEntry.post_queue_id := queueId;
                 ActivityLogEntry.details := PostedDetails moltbookId |}
          else ret tt
      end
  end.

(** [for (const submolt of config.target_submolts) { .. }]. *)
Fixpoint fetch_posts (submolts : list string) (posts : list MoltbookPost.t)
    : M (list MoltbookPost.t) :=
  match submolts with
  | [] => ret posts
  | submolt :: rest =>
      page <- fetch_feed E submolt;
      fetch_posts rest
        match page with
        | Some data_posts => posts ++ data_posts
        | None => posts
        end
  end.

(** [posts.filter((p) => !seenPostIds.has(p.id))]. *)
Definition new_posts (seenPostIds : gset string) (posts : list MoltbookPost.t)
    : list MoltbookPost.t :=
  filter (fun p => MoltbookPost.id p ∉ seenPostIds) posts.

(** [for (const post of newPosts.slice(0, 5)) { .. }]. *)
Fixpoint check_posts (apiKey : string) (config : AgentConfig.t)
    (batch : list MoltbookPost.t) (postsToReply : list MoltbookPost.t)
    : M (list MoltbookPost.t) :=
  match batch with
  | [] => ret postsToReply
  | post :: rest =>
      isRelevant <- checkRelevance apiKey post config;
      upsert_seen_post (MoltbookPost.id post);;;
      check_posts apiKey config rest
        (if isRelevant then postsToReply ++ [post] else postsToReply)
  end.

(** [for (const post of postsToReply) { .. }]. *)
Fixpoint reply_posts (openaiApiKey moltbookApiKey : string) (config : AgentConfig.t)
    (postsToReply : list MoltbookPost.t) (drafts : list Draft.t) : M (list Draft.t) :=
  match postsToReply with
  | [] => ret drafts
  | post :: rest =>
      content <- generateReply openaiApiKey post config;
      generated_at <- now E;
      inserted <- insert_draft E (reply_insert post content generated_at);
      match inserted with
      | Some inserted =>
          update_draft (root_patch (Draft.id inserted)) (Draft.id inserted);;;
          log_activity
            {| ActivityLogEntry.action := "generated";
               ActivityLogEntry.post_queue_id := Draft.id inserted;
               ActivityLogEntry.details :=
                 GeneratedDetails "reply" (MoltbookPost.id post) |};;;
          (if AgentConfig.auto_post config
           then postToMoltbook (Draft.id inserted) moltbookApiKey
           else ret tt);;;
          reply_posts openaiApiKey moltbookApiKey config rest (drafts ++ [inserted])
      | None => reply_posts openaiApiKey moltbookApiKey config rest drafts
      end
  end.

(** The minutes since the last original post, as the run computes them. *)
Definition minutesSinceLastPost : M Minutes :=
  recent <- (fun w => (Return (lastPostTime (post_queue w)), w));
  match recent with
  | Some last => t <- now E; ret (minutesSince t last)
  | None => ret Infinity
  end.

(** The body of [if (minutesSinceLastPost >= ..) { .. }]. *)
Definition create_original_post (openaiApiKey moltbookApiKey : string)
    (config : AgentConfig.t) (drafts : list Draft.t) : M (list Draft.t) :=
  originalPost <- generateOriginalPost openaiApiKey config;
  let '(title, content, submolt) := originalPost in
  generated_at <- now E;
  inserted <- insert_draft E (original_post_insert title content submolt generated_at);
  match inserted with
  | Some inserted =>
      update_draft (root_patch (Draft.id inserted)) (Draft.id inserted);;;
      (if AgentConfig.auto_post config
       then postToMoltbook (Draft.id inserted) moltbookApiKey
       else ret tt);;;
      ret (drafts ++ [inserted])%list
  | None => ret drafts
  end.

(** "Also check if we should create an original post": the cooldown
    step. *)
Definition original_post (openaiApiKey moltbookApiKey : string)
    (config : AgentConfig.t) (drafts : list Draft.t) : M (list Draft.t) :=
  minutes <- minutesSinceLastPost;
  if minutes_ge minutes (AgentConfig.post_frequency_minutes config)
  then create_original_post openaiApiKey moltbookApiKey config drafts
  else ret drafts.

(** The body of the [try] block. *)
Definition handler : M body :=
  openaiApiKey <- env_openai_key;
  if negb (JS.truthy openaiApiKey) then
    throw "OPENAI_API_KEY not configured in Supabase secrets"
  else
  let openaiApiKey := default "" openaiApiKey in
  config <- select_config;
  match config with
  | None => throw "Agent config not found"
  | Some config =>
      if negb (JS.truthy (AgentConfig.api_key config)) then
        throw "Moltbook API key not configured"
      else
      let moltbookApiKey := default "" (AgentConfig.api_key config) in
      posts <- fetch_posts (AgentConfig.target_submolts config) [];
      seenPostIds <- select_seen_posts;
      let newPosts := new_posts seenPostIds posts in
      postsToReply <- check_posts openaiApiKey config (JS.slice0 5 newPosts) [];
      drafts <- reply_posts openaiApiKey moltbookApiKey config postsToReply [];
      drafts <- original_post openaiApiKey moltbookApiKey config drafts;
      ret {| posts_checked := length newPosts;
             drafts_created := length drafts;
             auto_posted := AgentConfig.auto_post config |}
  end.

(** The entry point: the handler inside its [try] and [catch]. *)
Definition serve (w : World) : Response body * World :=
  try_catch handler w.

End Handler.

End Poll.

(** ** The words of the specification, for the claims that compare *)

(** An affirmative token: the word yes in any mix of cases. *)
Definition yes_token (t : string) : Prop :=
  exists c1 c2 c3 : ascii,
    t = String c1 (String c2 (String c3 EmptyString)) /\
    (c1 = "y"%char \/ c1 = "Y"%char) /\
    (c2 = "e"%char \/ c2 = "E"%char) /\
    (c3 = "s"%char \/ c3 = "S"%char).

(** The response contains an affirmative token. *)
Definition contains_affirmative_token (response : string) : Prop :=
  exists before t after,
    response = before +:+ t +:+ after /\ yes_token t.

(** [d] is the most recent draft of type post in the queue. *)
Definition most_recent_post (q : gmap string Draft.t) (d : Draft.t) : Prop :=
  (exists id, q !! id = Some d) /\
  Draft.type d = Post /\
  forall id' d', q !! id' = Some d' -> Draft.type d' = Post ->
    Draft.created_at d' <= Draft.created_at d.

(** No draft of type post exists yet. *)
Definition no_post_draft (q : gmap string Draft.t) : Prop :=
  forall id d, q !! id = Some d -> Draft.type d <> Post.

(** The elapsed minutes since the creation of the most recent draft of
    type post meet or exceed the cooldown; they are infinite when there is
    no such draft. *)
Definition cooldown_met (q : gmap string Draft.t) (now frequency : Z) : Prop :=
  no_post_draft q \/
  exists d, most_recent_post q d /\
    (inject_Z frequency <= Qmake (now - Draft.created_at d) 60000)%Q.

(** The draft a decision request names. *)
Definition target (req : Decision.request) (w : World) : option Draft.t :=
  match Decision.draft_id req with
  | Some id => post_queue w !! id
  | None => None
  end.

(** ** The worlds a decision ends in *)

(** The world after a successful reject. *)
Definition after_reject (E : Env) (id : string) (w : World) : World :=
  set_activity_log
    (activity_log w ++
       [{| ActivityLogEntry.action := "rejected";
           ActivityLogEntry.post_queue_id := id;
           ActivityLogEntry.details := NoDetails |}])
    (set_post_queue
       (alter (Patch.apply (Decision.rejected_patch (Date_now E (tick w)))) id
          (post_queue w))
       (interact [] w)).

(** The world after a successful publish of a decided draft. *)
Definition after_publish (E : Env) (id : string) (d : Draft.t)
    (req : Decision.request) (moltbookId : option string) (w : World) : World :=
  let api_key := agent_config w ≫= AgentConfig.api_key in
  let finalContent := JS.or (Decision.edited_content req) (Draft.content d) in
  let finalTitle := JS.or (Decision.edited_title req) (Draft.title d) in
  let wasEdited :=
    Decision.wasEdited (Decision.edited_content req) (Decision.edited_title req) in
  let request := Decision.publish_request api_key d finalTitle finalContent in
  set_activity_log
    (activity_log w ++
       [{| ActivityLogEntry.action := if wasEdited then "edited" else "approved";
           ActivityLogEntry.post_queue_id := id;
           ActivityLogEntry.details := DecidedDetails moltbookId wasEdited |}])
    (set_post_queue
       (alter
          (Patch.apply
             (Decision.decided_patch d wasEdited finalContent moltbookId
                (Date_now E (S (tick w))) (Date_now E (S (S (tick w))))))
          id (post_queue w))
       (interact [] (interact [] (interact [ToPublish request] w)))).

(** ** Observations on the requests sent *)

(** The relevance checks are the only requests for the small model. *)
Definition is_relevance_check (o : Outbound) : bool :=
  match o with
  | ToOpenAI r => String.eqb (Chat.model r) "gpt-4o-mini"
  | ToFeed _ | ToPublish _ => false
  end.

(** The requests for a reply are the ones for the large model that do not
    ask for JSON. *)
Definition is_reply_request (o : Outbound) : bool :=
  match o with
  | ToOpenAI r => String.eqb (Chat.model r) "gpt-4o" && negb (Chat.json r)
  | ToFeed _ | ToPublish _ => false
  end.

(** The requests for an original post are the ones that ask for JSON. *)
Definition is_original_post_request (o : Outbound) : bool :=
  match o with
  | ToOpenAI r => Chat.json r
  | ToFeed _ | ToPublish _ => false
  end.

(** The relevance checks of a list of posts, in order. *)
Definition relevance_checks (apiKey : string) (config : AgentConfig.t)
    (posts : list MoltbookPost.t) : list Outbound :=
  (fun p => ToOpenAI (Poll.relevance_request apiKey p config)) <$> posts.

(** The ledger after the posts of a list were marked. *)
Definition marked (posts : list MoltbookPost.t) (seen : gset string) : gset string :=
  list_to_set (MoltbookPost.id <$> posts) ∪ seen.

(** The test of the cooldown as the run makes it, on the queue and the
    clock it reads. *)
Definition due (q : gmap string Draft.t) (now frequency : Z) : bool :=
  match Poll.lastPostTime q with
  | Some last => Poll.minutes_ge (Poll.minutesSince now last) frequency
  | None => Poll.minutes_ge Poll.Infinity frequency
  end.

(** [t] is the creation time of some draft of type post in the queue. *)
Definition post_time (q : gmap string Draft.t) (t : Z) : Prop :=
  exists id d, q !! id = Some d /\ Draft.type d = Post /\ Draft.created_at d = t.

(** ** Relations between the world before and the world after *)

(** A computation all of whose runs, returning or throwing, are in [R]. *)
Definition keeps {A} (R : World -> World -> Prop) (m : M A) : Prop :=
  forall w r w', m w = (r, w') -> R w w'.

(** From [w] to [w'] the requests sent all satisfy [P], and the
    interaction counter did not go back. *)
Definition Sends (P : Outbound -> Prop) (w w' : World) : Prop :=
  (tick w <= tick w')%nat /\
  exists sent, outbound w' = (outbound w ++ sent)%list /\ Forall P sent.

(** What a step of the draft lifecycle may do to the world: it leaves the
    seen-post ledger alone, sends no relevance check, and keeps the type
    and the creation time of every row that is there. *)
Definition Lifecycle (w w' : World) : Prop :=
  seen_posts w' = seen_posts w /\
  Sends (fun o => is_relevance_check o = false) w w' /\
  (forall id d, post_queue w !! id = Some d ->
     exists d', post_queue w' !! id = Some d' /\
       Draft.type d' = Draft.type d /\
       Draft.created_at d' = Draft.created_at d).


(** The two worlds have the same creation times of drafts of type post. *)
Definition SamePosts (w w' : World) : Prop :=
  forall t, post_time (post_queue w) t <-> post_time (post_queue w') t.

(** ** Concrete worlds, for the examples *)

Module Scenario.

(** The clock starts here and advances one millisecond per interaction. *)
Definition clock0 : Z := 1700000000000.

Definition feed_post : MoltbookPost.t :=
  {| MoltbookPost.id := "p1";
     MoltbookPost.title := "Agents and tools";
     MoltbookPost.content := "How do agents pick their tools?";
     MoltbookPost.submolt := "general";
     MoltbookPost.author := "alice";
     MoltbookPost.created_at := "2026-01-01T00:00:00Z" |}.

Definition config (auto_post : bool) : AgentConfig.t :=
  {| AgentConfig.persona := Some "You are a curious agent.";
     AgentConfig.topics := ["agents"];
     AgentConfig.target_submolts := ["general"];
     AgentConfig.auto_post := auto_post;
     AgentConfig.post_frequency_minutes := 60;
     AgentConfig.api_key := Some "moltbook-key" |}.

(** A publish call that succeeds with remote id m1. *)
Definition published : Fetch.response :=
  {| Fetch.ok := true;
     Fetch.status := 201;
     Fetch.text := "{ id: m1 }";
     Fetch.json := Some (Some "m1") |}.

(** A publish call refused with a JSON error body. *)
Definition refused : Fetch.response :=
  {| Fetch.ok := false;
     Fetch.status := 500;
     Fetch.text := "{ error: unavailable }";
     Fetch.json := Some None |}.

(** The relevance checks get [relevance]; the other generations succeed. *)
Definition env (publish_answer : Fetch.response) (relevance : Chat.response) : Env :=
  {| Date_now := fun n => clock0 + Z.of_nat n;
     gen_random_uuid := fun n => "draft-" +:+ pretty n;
     Math_random_index := fun _ _ => 0%nat;
     openai := fun _ r =>
       if String.eqb (Chat.model r) "gpt-4o-mini" then relevance
       else Chat.Ok "A thought.";
     feed := fun _ _ => Feed.Page [feed_post];
     publish := fun _ _ => publish_answer;
     JSON_parse := fun _ => Some (ParsedValue (Some "A title") (Some "A body")) |}.

Definition draft (id : string) (type : DraftType) (status : Status) (created_at : Z)
    : Draft.t :=
  {| Draft.id := id;
     Draft.type := type;
     Draft.title := match type with Post => Some "On tools" | Reply => None end;
     Draft.content := Some "Tools shape the agent.";
     Draft.submolt := Some "general";
     Draft.reply_to_post_id := match type with Post => None | Reply => Some "p0" end;
     Draft.reply_to_comment_id := None;
     Draft.context :=
       Some {| Context.original_post := None;
               Context.generated_at := created_at;
               Context.trigger := None |};
     Draft.generation_attempt := 0;
     Draft.root_draft_id := Some id;
     Draft.status := status;
     Draft.final_content := None;
     Draft.moltbook_post_id := None;
     Draft.moltbook_comment_id := None;
     Draft.decided_at := None;
     Draft.posted_at := None;
     Draft.created_at := created_at |}.

Definition world (rows : list Draft.t) (auto_post : bool) : World :=
  {| post_queue := list_to_map ((fun d => (Draft.id d, d)) <$> rows);
     activity_log := [];
     seen_posts := ∅;
     agent_config := Some (config auto_post);
     OPENAI_API_KEY := Some "openai-key";
     outbound := [];
     tick := 0 |}.

(** A reply draft d1 in the given status, created an hour before. *)
Definition one_draft (status : Status) : World :=
  world [draft "d1" Reply status (clock0 - 60 * 60000)] false.

(** An original post d0 drafted ten minutes before, nothing seen yet. *)
Definition recent_post (auto_post : bool) : World :=
  world [draft "d0" Post approved (clock0 - 10 * 60000)] auto_post.

Definition decide (action : string) (edited_content : option string)
    : Decision.request :=
  {| Decision.draft_id := Some "d1";
     Decision.action := Some action;
     Decision.edited_content := edited_content;
     Decision.edited_title := None |}.

Definition regenerate : Regenerate.request :=
  {| Regenerate.draft_id := Some "d1";
     Regenerate.feedback := Some "too formal" |}.

End Scenario.

(** ** Further observations *)

(** The columns of a draft that are written when it is generated: its
    identity, its texts, what it replies to, its context snapshot, and its
    place in the lineage. *)
Definition generated_columns (d d' : Draft.t) : Prop :=
  Draft.id d' = Draft.id d /\
  Draft.type d' = Draft.type d /\
  Draft.title d' = Draft.title d /\
  Draft.content d' = Draft.content d /\
  Draft.submolt d' = Draft.submolt d /\
  Draft.reply_to_post_id d' = Draft.reply_to_post_id d /\
  Draft.reply_to_comment_id d' = Draft.reply_to_comment_id d /\
  Draft.context d' = Draft.context d /\
  Draft.generation_attempt d' = Draft.generation_attempt d /\
  Draft.root_draft_id d' = Draft.root_draft_id d /\
  Draft.created_at d' = Draft.created_at d.

(** The request a regeneration from [original] sends to the generator:
    none for a reply whose context snapshot is null. *)
Definition generation_request (apiKey : string) (config : option AgentConfig.t)
    (original : Draft.t) (attemptNumber : Z) (feedback : option string)
    (previousVersions : string) : option Chat.request :=
  match Draft.type original with
  | Reply =>
      (fun context =>
         Regenerate.reply_request apiKey config attemptNumber feedback context
           previousVersions) <$> Draft.context original
  | Post =>
      Some (Regenerate.post_request apiKey config attemptNumber feedback
              (Draft.submolt original) previousVersions)
  end.

(** The new content and the new title a regeneration takes from the
    response of the generator. *)
Definition regenerated_texts (E : Env) (original : Draft.t) (response : string)
    : option string * option string :=
  match Draft.type original with
  | Reply => (Some response, None)
  | Post =>
      match JSON_parse E response with
      | Some (ParsedValue title content) => (content, title)
      | Some ParsedNull | None => (Some response, None)
      end
  end.

(** The request of the regeneration that [req] asks for, in [w]. *)
Definition regeneration_request (req : Regenerate.request) (id : string)
    (d : Draft.t) (w : World) : option Chat.request :=
  let rootId := Regenerate.or_string (Draft.root_draft_id d) id in
  generation_request (default "" (OPENAI_API_KEY w)) (agent_config w) d
    (Draft.generation_attempt d + 1) (Regenerate.feedback req)
    (Regenerate.previous_versions
       (Regenerate.previous_attempts rootId (post_queue w))).

(** The row a regeneration from [d] inserts, given the response of the
    generator. *)
Definition regenerated_row (E : Env) (id : string) (d : Draft.t) (response : string)
    (w : World) : Draft.t :=
  let rootId := Regenerate.or_string (Draft.root_draft_id d) id in
  let texts := regenerated_texts E d response in
  row_of_insert (gen_random_uuid E (S (S (tick w)))) (Date_now E (S (S (tick w))))
    (Regenerate.new_attempt d (snd texts) (fst texts)
       (Draft.generation_attempt d + 1) rootId).

(** The queue in which [id] is marked superseded by a regeneration
    started in [w]. *)
Definition superseded_queue (E : Env) (id : string) (w : World)
    : gmap string Draft.t :=
  alter (Patch.apply (Regenerate.superseded_patch (Date_now E (S (tick w))))) id
    (post_queue w).

(** The posts a page contributes: none unless it is ok and can be read. *)
Definition page_posts (page : Feed.response) : list MoltbookPost.t :=
  match page with
  | Feed.Page posts => posts
  | Feed.NotOk | Feed.Malformed _ => []
  end.

(** The posts of the pages the feed answers with, for the submolts in
    order, the first fetch being interaction [n]; a page that is not ok
    gives none. *)
Fixpoint feed_pages (E : Env) (n : nat) (submolts : list string)
    : list MoltbookPost.t :=
  match submolts with
  | [] => []
  | submolt :: rest => page_posts (feed E n submolt) ++ feed_pages E (S n) rest
  end.

(** The first page that is ok and cannot be read, if there is one: its
    position among the submolts and the message of the error. *)
Fixpoint first_malformed (E : Env) (n : nat) (submolts : list string)
    : option (nat * string) :=
  match submolts with
  | [] => None
  | submolt :: rest =>
      match feed E n submolt with
      | Feed.Malformed message => Some (0%nat, message)
      | Feed.NotOk | Feed.Page _ =>
          match first_malformed E (S n) rest with
          | Some (k, message) => Some (S k, message)
          | None => None
          end
      end
  end.

(** The publish calls among the requests. *)
Definition is_publish (o : Outbound) : bool :=
  match o with
  | ToPublish _ => true
  | ToOpenAI _ | ToFeed _ => false
  end.

(** A row as a scheduled run leaves a draft it created under [id]: the
    first attempt of a lineage rooted at itself, with its context
    snapshot, undecided, and pending unless auto-post published it. *)
Definition created_by_run (auto_post : bool) (id : string) (d : Draft.t) : Prop :=
  Draft.id d = id /\
  Draft.root_draft_id d = Some id /\
  Draft.generation_attempt d = 0 /\
  Draft.context d <> None /\
  Draft.decided_at d = None /\
  Draft.final_content d = None /\
  ((Draft.status d = pending /\ Draft.posted_at d = None) \/
   (auto_post = true /\ Draft.status d = posted /\ Draft.posted_at d <> None)).

(** An activity-log entry as a scheduled run writes it: for a reply it
    generated, or for a draft that auto-post published. *)
Definition run_entry (auto_post : bool) (e : ActivityLogEntry.t) : Prop :=
  (ActivityLogEntry.action e = "generated" /\
   exists to_post, ActivityLogEntry.details e = GeneratedDetails "reply" to_post) \/
  (auto_post = true /\ ActivityLogEntry.action e = "posted" /\
   exists moltbookId, ActivityLogEntry.details e = PostedDetails moltbookId).

(** The world [w] of a scheduled run started in [w0]: every row of [w0]
    is in the queue as it was, every other row is one the run created,
    and the activity log is the log of [w0] followed by entries of the
    run about rows that were not in [w0]. *)
Definition RunInv (auto_post : bool) (w0 w : World) : Prop :=
  (forall id,
     match post_queue w0 !! id with
     | Some d => post_queue w !! id = Some d
     | None => forall d', post_queue w !! id = Some d' -> created_by_run auto_post id d'
     end) /\
  exists entries,
    activity_log w = (activity_log w0 ++ entries)%list /\
    Forall (fun e => post_queue w0 !! ActivityLogEntry.post_queue_id e = None /\
                     run_entry auto_post e) entries.

(** A step of a scheduled run started in [w0] keeps that. *)
Definition Extends (auto_post : bool) (w0 w w' : World) : Prop :=
  RunInv auto_post w0 w -> RunInv auto_post w0 w'.

(** The queue has as many rows after as before. *)
Definition SameSize (w w' : World) : Prop :=
  size (post_queue w') = size (post_queue w).

(** [inserted] is the row of a reply to one of [posts]: it targets the
    post, carries a completion the generator gave for it, and snapshots
    the post in its context. *)
Definition replies_to (E : Env) (openaiApiKey : string) (config : AgentConfig.t)
    (posts : list MoltbookPost.t) (inserted : Draft.t) : Prop :=
  exists post n completion,
    post ∈ posts /\
    openai E n (Poll.reply_request openaiApiKey post config) = Chat.Ok completion /\
    Draft.type inserted = Reply /\
    Draft.content inserted = Some completion /\
    Draft.title inserted = None /\
    Draft.reply_to_post_id inserted = Some (MoltbookPost.id post) /\
    Draft.reply_to_comment_id inserted = None /\
    Draft.submolt inserted = Some (MoltbookPost.submolt post) /\
    Draft.status inserted = pending /\
    Draft.generation_attempt inserted = 0 /\
    Draft.context inserted
    = Some {| Context.original_post :=
                Some {| Context.id := MoltbookPost.id post;
                        Context.title := MoltbookPost.title post;
                        Context.content := MoltbookPost.content post;
                        Context.author := MoltbookPost.author post;
                        Context.submolt := MoltbookPost.submolt post |};
              Context.generated_at := Date_now E (S n);
              Context.trigger := None |}.

(** The store draws a new id at every insert from [w] on: none that a
    row of [w] has, and none twice. *)
Definition fresh_ids (E : Env) (w : World) : Prop :=
  (forall k, (tick w <= k)%nat -> post_queue w !! gen_random_uuid E k = None) /\
  (forall k k', (tick w <= k)%nat -> (tick w <= k')%nat ->
     gen_random_uuid E k = gen_random_uuid E k' -> k = k').

(** The world [w] of a scheduled run started in [w0], before its cooldown
    step: the rows of [w0] are there with their type, and every other row
    is a reply whose id the store drew during the run. *)
Definition Replying (E : Env) (w0 w : World) : Prop :=
  (tick w0 <= tick w)%nat /\
  (forall id, is_Some (post_queue w0 !! id) -> is_Some (post_queue w !! id)) /\
  forall id d, post_queue w !! id = Some d ->
    match post_queue w0 !! id with
    | Some d0 => Draft.type d = Draft.type d0
    | None =>
        Draft.type d = Reply /\
        exists k, (tick w0 <= k < tick w)%nat /\ id = gen_random_uuid E k
    end.

(** A step of such a run keeps that. *)
Definition KeepsReplying (E : Env) (w0 w w' : World) : Prop :=
  Replying E w0 w -> Replying E w0 w'.

(** The run from [w] to [w'] left a draft of type post under [id], where
    no row was. *)
Definition new_post_draft (w w' : World) (id : string) : Prop :=
  post_queue w !! id = None /\
  exists d', post_queue w' !! id = Some d' /\ Draft.type d' = Post.

(** What the cooldown step does once the test has passed, from the
    interaction [t] and the queue [q]: it ends in [r] and leaves the queue
    [q'].  It throws, with nothing written, when the generator fails or
    its answer is not JSON.  Otherwise it inserts a pending draft of type
    post and returns it after the drafts it was given, unless the id the
    store draws is taken, or auto-post is on and the body of the publish
    answer cannot be read, which throws after the insert. *)
Definition generates_original_post (E : Env) (openaiApiKey moltbookApiKey : string)
    (config : AgentConfig.t) (drafts : list Draft.t)
    (q : gmap string Draft.t) (t : nat)
    (r : Outcome (list Draft.t)) (q' : gmap string Draft.t) : Prop :=
  let targets := AgentConfig.target_submolts config in
  let submolt := targets !! Math_random_index E t (length targets) in
  match openai E (S t) (Poll.original_post_request openaiApiKey config submolt) with
  | Chat.Fail status body => (exists e, r = Throw e) /\ q' = q
  | Chat.Ok completion =>
      match JSON_parse E completion with
      | None => (exists e, r = Throw e) /\ q' = q
      | Some parsed =>
          let id := gen_random_uuid E (t + 3) in
          let inserted :=
            row_of_insert id (Date_now E (t + 3))
              match parsed with
              | ParsedNull =>
                  Poll.original_post_insert None None submolt (Date_now E (t + 2))
              | ParsedValue title content =>
                  Poll.original_post_insert title content submolt (Date_now E (t + 2))
              end in
          match q !! id with
          | Some _ => r = Return drafts /\ q' = q
          | None =>
              Draft.type inserted = Post /\
              Draft.status inserted = pending /\
              (exists d',
                 q' !! id = Some d' /\
                 Draft.type d' = Post /\
                 Draft.created_at d' = Date_now E (t + 3)) /\
              r = if AgentConfig.auto_post config
                  then
                    match
                      Fetch.json
                        (publish E (t + 4)
                           (Poll.publish_request moltbookApiKey
                              (Patch.apply (Poll.root_patch id) inserted)))
                    with
                    | Some _ => Return (drafts ++ [inserted])%list
                    | None => Throw "Unexpected token in JSON"
                    end
                  else Return (drafts ++ [inserted])%list
          end
      end
  end.

(** ** More concrete worlds *)

Module Cases.

(** A publish call accepted with a body that is not JSON. *)
Definition garbled : Fetch.response :=
  {| Fetch.ok := true;
     Fetch.status := 200;
     Fetch.text := "<html>ok</html>";
     Fetch.json := None |}.

(** The environment of the scenarios, with a generator whose completions
    are never JSON. *)
Definition env_raw (publish_answer : Fetch.response) : Env :=
  {| Date_now := fun n => Scenario.clock0 + Z.of_nat n;
     gen_random_uuid := fun n => "draft-" +:+ pretty n;
     Math_random_index := fun _ _ => 0%nat;
     openai := fun _ _ => Chat.Ok "Just some prose.";
     feed := fun _ _ => Feed.Page [Scenario.feed_post];
     publish := fun _ _ => publish_answer;
     JSON_parse := fun _ => None |}.

(** A feed post with the given id. *)
Definition post (id : string) : MoltbookPost.t :=
  {| MoltbookPost.id := id;
     MoltbookPost.title := "Agents and tools, " +:+ id;
     MoltbookPost.content := "How do agents pick their tools?";
     MoltbookPost.submolt := "general";
     MoltbookPost.author := "alice";
     MoltbookPost.created_at := "2026-01-01T00:00:00Z" |}.

(** The environment of the scenarios, with a feed of seven posts in
    general and a page that is not ok for every other submolt; no post is
    found relevant. *)
Definition env_busy : Env :=
  {| Date_now := fun n => Scenario.clock0 + Z.of_nat n;
     gen_random_uuid := fun n => "draft-" +:+ pretty n;
     Math_random_index := fun _ _ => 0%nat;
     openai := fun _ r =>
       if String.eqb (Chat.model r) "gpt-4o-mini" then Chat.Ok "no"
       else Chat.Ok "A thought.";
     feed := fun _ submolt =>
       if String.eqb submolt "general"
       then Feed.Page (post <$> ["p1"; "p2"; "p3"; "p4"; "p5"; "p6"; "p7"])
       else Feed.NotOk;
     publish := fun _ _ => Scenario.published;
     JSON_parse := fun _ => Some (ParsedValue (Some "A title") (Some "A body")) |}.

(** The environment of the busy feed, where the page of every submolt
    other than general is ok and has no list of posts. *)
Definition env_broken : Env :=
  {| Date_now := Date_now env_busy;
     gen_random_uuid := gen_random_uuid env_busy;
     Math_random_index := Math_random_index env_busy;
     openai := openai env_busy;
     feed := fun _ submolt =>
       if String.eqb submolt "general"
       then Feed.Page (post <$> ["p1"; "p2"; "p3"; "p4"; "p5"; "p6"; "p7"])
       else Feed.Malformed "data.posts is not iterable";
     publish := publish env_busy;
     JSON_parse := JSON_parse env_busy |}.

(** An original post d0 drafted two hours before, nothing seen yet. *)
Definition old_post : World :=
  Scenario.world
    [Scenario.draft "d0" Post approved (Scenario.clock0 - 120 * 60000)] false.

(** An original post d2, pending, drafted an hour before. *)
Definition one_post : World :=
  Scenario.world
    [Scenario.draft "d2" Post pending (Scenario.clock0 - 60 * 60000)] false.

(** The reply d1, pending, beside a row that holds the id the store will
    draw for the next regeneration. *)
Definition crowded : World :=
  Scenario.world
    [Scenario.draft "d1" Reply pending (Scenario.clock0 - 60 * 60000);
     Scenario.draft "draft-2" Reply pending (Scenario.clock0 - 30 * 60000)] false.


(** The world of the scenarios without the OpenAI key. *)
Definition no_openai_key : World :=
  {| post_queue := post_queue (Scenario.recent_post false);
     activity_log := [];
     seen_posts := ∅;
     agent_config := agent_config (Scenario.recent_post false);
     OPENAI_API_KEY := None;
     outbound := [];
     tick := 0 |}.

Definition decide (id action : string) (edited_content edited_title : option string)
    : Decision.request :=
  {| Decision.draft_id := Some id;
     Decision.action := Some action;
     Decision.edited_content := edited_content;
     Decision.edited_title := edited_title |}.

Definition regenerate (id : string) : Regenerate.request :=
  {| Regenerate.draft_id := Some id;
     Regenerate.feedback := None |}.

End Cases.

(** * Theorems *)

(** ** The monad *)

Lemma bind_Return {A B} (m : M A) (k : A -> M B) (w w' : World) (b : B) :
  bind m k w = (Return b, w') ->
  exists a w1, m w = (Return a, w1) /\ k a w1 = (Return b, w').
Proof.
  unfold bind. destruct (m w) as [[a|e] w1]; [eauto|discriminate].
Qed.

Lemma bind_cases {A B} (m : M A) (k : A -> M B) (w w' : World) (r : Outcome B) :
  bind m k w = (r, w') ->
  (exists e, m w = (Throw e, w') /\ r = Throw e)
  \/ exists a w1, m w = (Return a, w1) /\ k a w1 = (r, w').
Proof.
  unfold bind. destruct (m w) as [[a|e] w1]; [eauto|].
  intros H. left. exists e. split; congruence.
Qed.

Lemma try_catch_Ok200 {B} (m : M B) (w w' : World) (b : B) :
  try_catch m w = (Ok200 b, w') -> m w = (Return b, w').
Proof.
  unfold try_catch. destruct (m w) as [[a|e] w1]; [congruence|discriminate].
Qed.

(** Split [H : bind m k w = (Return b, w')] into the two runs. *)
Ltac inv_bind H :=
  let a := fresh "a" in
  let w1 := fresh "w" in
  let H1 := fresh "Hstep" in
  apply bind_Return in H; destruct H as (a & w1 & H1 & H).

(** A step that is a plain function of the world: read it off. *)
Ltac inv_step H :=
  unfold ret, throw, select_draft, select_config, update_draft, log_activity,
    env_openai_key, select_seen_posts, upsert_seen_post, now in H;
  simplify_eq.

(** *** Relations that every run of a computation keeps *)

Section Keeps.
Context (R : World -> World -> Prop).
Context (R_refl : forall w, R w w).
Context (R_trans : forall a b c, R a b -> R b c -> R a c).

Lemma keeps_ret {A} (a : A) : keeps R (ret a).
Proof. intros w r w' H. unfold ret in H. simplify_eq. apply R_refl. Qed.

Lemma keeps_throw {A} (e : string) : keeps R (@throw A e).
Proof. intros w r w' H. unfold throw in H. simplify_eq. apply R_refl. Qed.

Lemma keeps_bind {A B} (m : M A) (k : A -> M B) :
  keeps R m -> (forall a, keeps R (k a)) -> keeps R (bind m k).
Proof.
  intros Hm Hk w r w' H. unfold bind in H.
  destruct (m w) as [[a|e] w1] eqn:Hmw.
  - eapply R_trans; [eapply Hm, Hmw|eapply Hk, H].
  - simplify_eq. eapply Hm, Hmw.
Qed.

Lemma keeps_read {A} (f : World -> A) : keeps R (fun w => (Return (f w), w)).
Proof. intros w r w' H. simplify_eq. apply R_refl. Qed.

End Keeps.

Create HintDb keeps.

(** Decompose a handler into its steps, for a relation given with its
    reflexivity and transitivity; the steps themselves are closed with the
    lemmas of the hint database and the hypotheses at hand. *)
Ltac keeps_steps Hrefl Htrans :=
  repeat first
    [ solve [auto with keeps]
    | apply keeps_ret; [exact Hrefl]
    | apply keeps_throw; [exact Hrefl]
    | apply keeps_read; [exact Hrefl]
    | apply keeps_bind; [exact Htrans | | intros ?]
    | match goal with
      | |- keeps _ (match ?x with _ => _ end) => destruct x
      | |- keeps _ (if ?x then _ else _) => destruct x
      | |- keeps _ (let '(_, _) := ?x in _) => destruct x
      end ].

(** ** The decision entry point *)

Ltac run :=
  unfold Decision.serve, try_catch, Decision.handler, Decision.publish_decision,
    bind, ret, throw, select_draft, select_config, update_draft, log_activity,
    fetch_publish, now in *; simpl in *.

Lemma decision_guard (E : Env) (req : Decision.request) (w : World) :
  Decision.is_action (Decision.action req) = false
  \/ target req w = None
  \/ (exists d, target req w = Some d /\ Draft.status d <> pending) ->
  exists message, Decision.serve E req w = (Error500 message, w).
Proof.
  intros H. unfold target in H. run.
  destruct (Decision.draft_id req) as [id|] eqn:Hid; simpl; [|eauto].
  destruct (String.eqb id "") eqn:Hne; simpl; [eauto|].
  destruct (Decision.is_action (Decision.action req)) eqn:Hact; simpl; [|eauto].
  destruct (post_queue w !! id) as [d|] eqn:Hd; [|eauto].
  destruct (bool_decide (Draft.status d = pending)) eqn:Hst; simpl; [|eauto].
  apply bool_decide_eq_true in Hst.
  destruct H as [H|[H|(d' & H & Hn)]]; try discriminate.
  congruence.
Qed.

Lemma decision_ok_inv (E : Env) (req : Decision.request) (w w' : World)
    (b : Decision.body) :
  Decision.serve E req w = (Ok200 b, w') ->
  exists id d,
    Decision.draft_id req = Some id /\ id <> "" /\
    Decision.is_action (Decision.action req) = true /\
    post_queue w !! id = Some d /\ Draft.status d = pending /\
    ((Decision.action req = Some "reject" /\ b = Decision.Rejected /\
      w' = after_reject E id w)
     \/
     (Decision.action req <> Some "reject" /\
      exists moltbookId,
        let api_key := agent_config w ≫= AgentConfig.api_key in
        let finalContent := JS.or (Decision.edited_content req) (Draft.content d) in
        let finalTitle := JS.or (Decision.edited_title req) (Draft.title d) in
        let wasEdited :=
          Decision.wasEdited (Decision.edited_content req) (Decision.edited_title req) in
        let response :=
          publish E (tick w)
            (Decision.publish_request api_key d finalTitle finalContent) in
        JS.truthy api_key = true /\
        Fetch.ok response = true /\
        Fetch.json response = Some moltbookId /\
        b = Decision.Published (if wasEdited then "edited" else "approved") moltbookId
              (Decision.moltbook_url d moltbookId) /\
        w' = after_publish E id d req moltbookId w)).
Proof.
  intros H. run.
  destruct (Decision.draft_id req) as [id|] eqn:Hid; simpl in H; [|discriminate].
  destruct (String.eqb id "") eqn:Hne; simpl in H; [discriminate|].
  destruct (Decision.is_action (Decision.action req)) eqn:Hact; simpl in H;
    [|discriminate].
  destruct (post_queue w !! id) as [d|] eqn:Hd; [|discriminate].
  destruct (bool_decide (Draft.status d = pending)) eqn:Hst; simpl in H;
    [|discriminate].
  apply bool_decide_eq_true in Hst.
  exists id, d. repeat split; try assumption.
  { intros ->. discriminate. }
  destruct (bool_decide (Decision.action req = Some "reject")) eqn:Hrej.
  - apply bool_decide_eq_true in Hrej. left.
    injection H as <- <-. repeat split; assumption.
  - apply bool_decide_eq_false in Hrej. right. split; [assumption|].
    destruct (JS.truthy (agent_config w ≫= AgentConfig.api_key)) eqn:Hkey;
      simpl in H; [|discriminate].
    match type of H with
    | context [Fetch.ok ?r] => destruct (Fetch.ok r) eqn:Hok; simpl in H
    end; [|discriminate].
    match type of H with
    | context [Fetch.json ?r] => destruct (Fetch.json r) as [moltbookId|] eqn:Hjson
    end; [|discriminate].
    injection H as <- <-.
    exists moltbookId. simpl. repeat split; try assumption.
Qed.

Lemma eqb_empty_false (id : string) : id <> "" -> String.eqb id "" = false.
Proof. intros H. apply String.eqb_neq. exact H. Qed.

Lemma decision_not_pending (E : Env) (req : Decision.request) (w : World)
    (id : string) (d : Draft.t) :
  Decision.draft_id req = Some id -> id <> "" ->
  Decision.is_action (Decision.action req) = true ->
  post_queue w !! id = Some d ->
  Draft.status d <> pending ->
  Decision.serve E req w
  = (Error500 (Decision.already_processed (Draft.status d)), w).
Proof.
  intros Hid Hne Hact Hd Hst. run.
  rewrite Hid. simpl. rewrite (eqb_empty_false _ Hne). simpl.
  rewrite Hact. simpl. rewrite Hd.
  rewrite bool_decide_eq_false_2 by assumption. reflexivity.
Qed.

Lemma decided_status (E : Env) (req : Decision.request) (w w' : World)
    (b : Decision.body) :
  Decision.serve E req w = (Ok200 b, w') ->
  exists id d',
    Decision.draft_id req = Some id /\ id <> "" /\
    post_queue w' !! id = Some d' /\
    Draft.status d' <> pending.
Proof.
  intros H. apply decision_ok_inv in H.
  destruct H as (id & d & Hid & Hne & _ & Hd & _ & H).
  exists id.
  destruct H as [(_ & _ & ->)|(_ & moltbookId & _ & _ & _ & _ & ->)].
  - eexists. repeat split; try assumption.
    + unfold after_reject. simpl. rewrite lookup_alter_eq, Hd. reflexivity.
    + simpl. discriminate.
  - eexists. repeat split; try assumption.
    + unfold after_publish. simpl. rewrite lookup_alter_eq, Hd. reflexivity.
    + simpl. destruct (Decision.wasEdited _ _); discriminate.
Qed.

(** C1. A decision request whose action is not one of approve, reject and
    edit, whose draft is not found, or whose draft is not pending, is
    answered with an error and leaves the whole world, the draft included,
    as it was; and once a decision on a draft id succeeded, any further
    decision on that id fails with the already-processed error. *)
Theorem decision_guards (E : Env) (req : Decision.request) (w : World) :
  (Decision.is_action (Decision.action req) = false
   \/ target req w = None
   \/ (exists d, target req w = Some d /\ Draft.status d <> pending) ->
   exists message, Decision.serve E req w = (Error500 message, w))
  /\
  (forall b w1, Decision.serve E req w = (Ok200 b, w1) ->
   forall (E' : Env) (req' : Decision.request),
     Decision.draft_id req' = Decision.draft_id req ->
     Decision.is_action (Decision.action req') = true ->
     exists s, s <> pending /\
       Decision.serve E' req' w1 = (Error500 (Decision.already_processed s), w1)).
Proof.
  split; [apply decision_guard|].
  intros b w1 H E' req' Hsame Hact.
  apply decided_status in H. destruct H as (id & d' & Hid & Hne & Hd' & Hst).
  exists (Draft.status d'). split; [assumption|].
  apply decision_not_pending with (id := id); try assumption.
  congruence.
Qed.

(** C2. When an approve or edit decision reaches a pending draft and the
    publish call is answered with a non-success status, the caller gets
    the error, and neither the queue nor the activity log changes: the
    draft is still the pending row it was, with no remote id and no
    decision or posting time written. *)
Theorem publish_failure_commits_nothing (E : Env) (req : Decision.request)
    (w : World) (id : string) (d : Draft.t) :
  Decision.draft_id req = Some id -> id <> "" ->
  Decision.action req = Some "approve" \/ Decision.action req = Some "edit" ->
  post_queue w !! id = Some d ->
  Draft.status d = pending ->
  let api_key := agent_config w ≫= AgentConfig.api_key in
  let response :=
    publish E (tick w)
      (Decision.publish_request api_key d
         (JS.or (Decision.edited_title req) (Draft.title d))
         (JS.or (Decision.edited_content req) (Draft.content d))) in
  Fetch.ok response = false ->
  exists w',
    Decision.serve E req w
    = (Error500 (if JS.truthy api_key then Decision.api_error response
                 else "Moltbook API key not configured"), w')
    /\ post_queue w' = post_queue w
    /\ activity_log w' = activity_log w
    /\ post_queue w' !! id = Some d.
Proof.
  intros Hid Hne Hact Hd Hst api_key response Hok. run.
  rewrite Hid. simpl. rewrite (eqb_empty_false _ Hne). simpl.
  assert (Decision.is_action (Decision.action req) = true) as ->
      by (destruct Hact as [-> | ->]; reflexivity).
  simpl. rewrite Hd.
  rewrite bool_decide_eq_true_2 by assumption. simpl.
  rewrite bool_decide_eq_false_2 by (destruct Hact as [-> | ->]; discriminate).
  fold api_key. destruct (JS.truthy api_key); simpl.
  - fold response. rewrite Hok. simpl.
    eexists. repeat split. simpl. assumption.
  - eexists. repeat split. assumption.
Qed.

(** C7, as the code has it.  After a successful approve or edit decision
    the one publish request of the decision, for the draft with its final
    title and content, was answered ok, and the draft carries both
    timestamps and the remote id read from the body of that answer in the
    column of its type, the column of the other type being as it was; its
    status is [edited] exactly when the request carried a non-empty edited
    content or edited title, whatever the action word, and [approved]
    otherwise; [final_content] is then the edited content (the draft's own
    content when only the title was edited), and null when nothing was
    edited. *)
Theorem decision_publish_effects (E : Env) (req : Decision.request)
    (w w1 : World) (b : Decision.body) :
  Decision.serve E req w = (Ok200 b, w1) ->
  Decision.action req <> Some "reject" ->
  exists id d d' moltbookId,
    Decision.draft_id req = Some id /\
    post_queue w !! id = Some d /\ Draft.status d = pending /\
    (let api_key := agent_config w ≫= AgentConfig.api_key in
     let response :=
       publish E (tick w)
         (Decision.publish_request api_key d
            (JS.or (Decision.edited_title req) (Draft.title d))
            (JS.or (Decision.edited_content req) (Draft.content d))) in
     JS.truthy api_key = true /\
     outbound w1
     = (outbound w ++
          [ToPublish
             (Decision.publish_request api_key d
                (JS.or (Decision.edited_title req) (Draft.title d))
                (JS.or (Decision.edited_content req) (Draft.content d)))])%list /\
     Fetch.ok response = true /\
     Fetch.json response = Some moltbookId) /\
    post_queue w1 !! id = Some d' /\
    match Draft.type d with
    | Post => Draft.moltbook_comment_id d' = Draft.moltbook_comment_id d
    | Reply => Draft.moltbook_post_id d' = Draft.moltbook_post_id d
    end /\
    let was_edited :=
      Decision.wasEdited (Decision.edited_content req) (Decision.edited_title req) in
    Draft.status d' = (if was_edited then edited else approved) /\
    Draft.final_content d'
    = (if was_edited
       then JS.or (Decision.edited_content req) (Draft.content d) else None) /\
    Draft.decided_at d' = Some (Date_now E (S (tick w))) /\
    Draft.posted_at d' = Some (Date_now E (S (S (tick w)))) /\
    (forall i, moltbookId = Some i ->
       match Draft.type d with
       | Post => Draft.moltbook_post_id d' = Some i
       | Reply => Draft.moltbook_comment_id d' = Some i
       end) /\
    b = Decision.Published (if was_edited then "edited" else "approved") moltbookId
          (Decision.moltbook_url d moltbookId) /\
    (JS.truthy (Decision.edited_content req) = true ->
       Draft.status d' = edited /\
       Draft.final_content d' = Decision.edited_content req) /\
    (JS.truthy (Decision.edited_content req) = false ->
     JS.truthy (Decision.edited_title req) = false ->
       Draft.status d' = approved /\ Draft.final_content d' = None).
Proof.
  intros H Hrej. apply decision_ok_inv in H.
  destruct H as (id & d & Hid & Hne & _ & Hd & Hst & H).
  destruct H as [(Hr & _)|(_ & moltbookId & Hkey & Hok & Hjson & -> & ->)];
    [contradiction|].
  exists id, d. eexists. exists moltbookId.
  split; [assumption|]. split; [assumption|]. split; [assumption|].
  split.
  { cbv zeta. split; [exact Hkey|].
    split; [simpl; rewrite !app_nil_r; reflexivity|].
    split; [exact Hok|exact Hjson]. }
  split.
  { unfold after_publish. simpl. rewrite lookup_alter_eq, Hd. reflexivity. }
  split; [simpl; destruct (Draft.type d); reflexivity|].
  simpl. unfold Decision.wasEdited, JS.bangbang, JS.or.
  do 4 (split; [reflexivity|]).
  split; [intros i ->; destruct (Draft.type d); reflexivity|].
  split; [reflexivity|]. split.
  - intros Hcontent. rewrite Hcontent. split; reflexivity.
  - intros Hcontent Htitle. rewrite Hcontent, Htitle. split; reflexivity.
Qed.

(** C8. A reject decision on a pending draft succeeds whatever the
    configuration holds: the draft becomes [rejected] with its decision
    time set and every other column as before, the other rows are
    untouched, the activity log gains one "rejected" entry for the draft,
    and no request leaves the process. *)
Theorem reject_effects (E : Env) (req : Decision.request) (w : World)
    (id : string) (d : Draft.t) :
  Decision.draft_id req = Some id -> id <> "" ->
  Decision.action req = Some "reject" ->
  post_queue w !! id = Some d ->
  Draft.status d = pending ->
  exists w1,
    Decision.serve E req w = (Ok200 Decision.Rejected, w1) /\
    post_queue w1 !! id
    = Some {| Draft.id := Draft.id d;
              Draft.type := Draft.type d;
              Draft.title := Draft.title d;
              Draft.content := Draft.content d;
              Draft.submolt := Draft.submolt d;
              Draft.reply_to_post_id := Draft.reply_to_post_id d;
              Draft.reply_to_comment_id := Draft.reply_to_comment_id d;
              Draft.context := Draft.context d;
              Draft.generation_attempt := Draft.generation_attempt d;
              Draft.root_draft_id := Draft.root_draft_id d;
              Draft.status := rejected;
              Draft.final_content := Draft.final_content d;
              Draft.moltbook_post_id := Draft.moltbook_post_id d;
              Draft.moltbook_comment_id := Draft.moltbook_comment_id d;
              Draft.decided_at := Some (Date_now E (tick w));
              Draft.posted_at := Draft.posted_at d;
              Draft.created_at := Draft.created_at d |} /\
    (forall id', id' <> id -> post_queue w1 !! id' = post_queue w !! id') /\
    activity_log w1
    = (activity_log w ++
         [{| ActivityLogEntry.action := "rejected";
             ActivityLogEntry.post_queue_id := id;
             ActivityLogEntry.details := NoDetails |}])%list /\
    outbound w1 = outbound w /\
    seen_posts w1 = seen_posts w /\
    agent_config w1 = agent_config w.
Proof.
  intros Hid Hne Hact Hd Hst. run.
  rewrite Hid. simpl. rewrite (eqb_empty_false _ Hne). simpl.
  rewrite Hact. simpl. rewrite Hd.
  rewrite bool_decide_eq_true_2 by assumption. simpl.
  eexists. split; [reflexivity|]. simpl.
  split; [rewrite lookup_alter_eq, Hd; reflexivity|].
  split; [intros id' Hn; apply lookup_alter_ne; congruence|].
  rewrite app_nil_r. repeat split.
Qed.

(** ** The regeneration entry point *)

Lemma generate_Return (E : Env) (apiKey : string) (config : option AgentConfig.t)
    (original : Draft.t) (attemptNumber : Z) (feedback : option string)
    (previousVersions : string) (w w' : World) (r : option string * option string) :
  Regenerate.generate E apiKey config original attemptNumber feedback
    previousVersions w = (Return r, w') ->
  exists request, w' = interact [ToOpenAI request] w.
Proof.
  unfold Regenerate.generate. intros H.
  destruct (Draft.type original).
  - destruct (Draft.context original) as [context|]; [|discriminate].
    inv_bind H. inv_step H.
    unfold openaiChat in Hstep.
    destruct (openai E (tick w) _); simplify_eq. eauto.
  - inv_bind H. unfold openaiChat in Hstep.
    destruct (openai E (tick w) _); simplify_eq.
    destruct (JSON_parse E a) as [[|title content]|]; inv_step H; eauto.
Qed.

Lemma regenerate_ok_inv (E : Env) (req : Regenerate.request) (w w' : World)
    (newDraft : Draft.t) :
  Regenerate.serve E req w = (Ok200 newDraft, w') ->
  exists id d newTitle newContent,
    let rootId := Regenerate.or_string (Draft.root_draft_id d) id in
    let attemptNumber := Draft.generation_attempt d + 1 in
    let t_decided := Date_now E (S (tick w)) in
    let new_id := gen_random_uuid E (S (S (tick w))) in
    Regenerate.draft_id req = Some id /\ id <> "" /\
    post_queue w !! id = Some d /\
    new_id <> id /\ post_queue w !! new_id = None /\
    newDraft
    = row_of_insert new_id (Date_now E (S (S (tick w))))
        (Regenerate.new_attempt d newTitle newContent attemptNumber rootId) /\
    post_queue w'
    = <[new_id := newDraft]>
        (alter (Patch.apply (Regenerate.superseded_patch t_decided)) id (post_queue w)) /\
    activity_log w'
    = (activity_log w ++
         [{| ActivityLogEntry.action := "regenerated";
             ActivityLogEntry.post_queue_id := new_id;
             ActivityLogEntry.details :=
               RegeneratedDetails id attemptNumber
                 (JS.or (Regenerate.feedback req) None) |}])%list.
Proof.
  intros H. apply try_catch_Ok200 in H. unfold Regenerate.handler in H.
  destruct (Regenerate.draft_id req) as [id|] eqn:Hid; simpl in H; [|discriminate].
  destruct (String.eqb id "") eqn:Hne; simpl in H; [discriminate|].
  assert (id <> "") as Hne' by (intros ->; discriminate).
  inv_bind H. inv_step Hstep.
  destruct (JS.truthy (OPENAI_API_KEY _)) eqn:Hkey; simpl in H; [|discriminate].
  inv_bind H. inv_step Hstep.
  destruct (post_queue _ !! id) as [d|] eqn:Hd; [|discriminate].
  inv_bind H. inv_step Hstep.
  inv_bind H. simplify_eq.
  inv_bind H. destruct a as [newContent newTitle].
  apply generate_Return in Hstep. destruct Hstep as [request ->].
  inv_bind H. inv_step Hstep.
  inv_bind H. inv_step Hstep.
  inv_bind H. unfold insert_draft in Hstep. simpl in Hstep.
  match type of Hstep with
  | context [alter ?f id ?q !! ?k] => destruct (alter f id q !! k) eqn:Hnew
  end; simplify_eq; try discriminate.
  inv_bind H. inv_step Hstep. inv_step H.
  exists id, d, newTitle, newContent. simpl.
  assert (gen_random_uuid E (S (S (tick w))) <> id) as Hfresh.
  { intros Heq. rewrite Heq, lookup_alter_eq, Hd in Hnew. discriminate. }
  rewrite lookup_alter_ne in Hnew by congruence.
  repeat split; try assumption.
Qed.

(** C4. A successful regeneration of draft [d] inserts a new pending draft
    whose attempt number is [d]'s plus one, whose root is [d]'s root (the
    id of [d] when that root is unset), and whose type, reply target and
    context are those of [d]; [d] itself is marked superseded; and the
    activity log gains one "regenerated" entry that names the superseded
    draft and carries the feedback, if any was given. *)
Theorem regeneration_lineage (E : Env) (req : Regenerate.request) (w w' : World)
    (newDraft : Draft.t) :
  Regenerate.serve E req w = (Ok200 newDraft, w') ->
  exists id d d',
    Regenerate.draft_id req = Some id /\
    post_queue w !! id = Some d /\
    Draft.generation_attempt newDraft = Draft.generation_attempt d + 1 /\
    (forall r, Draft.root_draft_id d = Some r -> r <> "" ->
       Draft.root_draft_id newDraft = Some r) /\
    (Draft.root_draft_id d = None -> Draft.root_draft_id newDraft = Some id) /\
    Draft.type newDraft = Draft.type d /\
    Draft.reply_to_post_id newDraft = Draft.reply_to_post_id d /\
    Draft.reply_to_comment_id newDraft = Draft.reply_to_comment_id d /\
    Draft.context newDraft = Draft.context d /\
    Draft.status newDraft = pending /\
    Draft.id newDraft <> id /\
    post_queue w !! Draft.id newDraft = None /\
    post_queue w' !! Draft.id newDraft = Some newDraft /\
    post_queue w' !! id = Some d' /\ Draft.status d' = superseded /\
    activity_log w'
    = (activity_log w ++
         [{| ActivityLogEntry.action := "regenerated";
             ActivityLogEntry.post_queue_id := Draft.id newDraft;
             ActivityLogEntry.details :=
               RegeneratedDetails id (Draft.generation_attempt d + 1)
                 (if JS.truthy (Regenerate.feedback req)
                  then Regenerate.feedback req else None) |}])%list.
Proof.
  intros H. apply regenerate_ok_inv in H.
  destruct H as (id & d & newTitle & newContent & H). simpl in H.
  destruct H as (Hid & Hne & Hd & Hfresh & Hnone & -> & Hq & Hlog).
  exists id, d. eexists.
  split; [assumption|]. split; [assumption|]. simpl.
  split; [reflexivity|].
  split.
  { intros r Hr Hrne. rewrite Hr. unfold Regenerate.or_string, JS.or. simpl.
    rewrite (eqb_empty_false _ Hrne). reflexivity. }
  split; [intros ->; reflexivity|].
  do 5 (split; [reflexivity|]).
  split; [assumption|]. split; [assumption|].
  split; [rewrite Hq; apply lookup_insert_eq|].
  split.
  { rewrite Hq, lookup_insert_ne by assumption.
    rewrite lookup_alter_eq, Hd. reflexivity. }
  split; [reflexivity|]. exact Hlog.
Qed.

(** C3, as the code has it.  A successful regeneration marks its source
    draft superseded and stamps its decision time whatever the status of
    the source was: no guard looks at the old status, so a rejected or a
    posted source is overwritten like a pending one.  The other columns
    of the source, and the other rows that were there, stay as they were. *)
Theorem regeneration_supersedes_any_status (E : Env) (req : Regenerate.request)
    (w w' : World) (newDraft : Draft.t) :
  Regenerate.serve E req w = (Ok200 newDraft, w') ->
  exists id d,
    Regenerate.draft_id req = Some id /\
    post_queue w !! id = Some d /\
    post_queue w' !! id
    = Some (Patch.apply
              {| Patch.status := Some superseded;
                 Patch.final_content := None;
                 Patch.moltbook_post_id := None;
                 Patch.moltbook_comment_id := None;
                 Patch.decided_at := Some (Date_now E (S (tick w)));
                 Patch.posted_at := None;
                 Patch.root_draft_id := None |} d) /\
    (Draft.status <$> post_queue w' !! id) = Some superseded /\
    (forall id' d0, id' <> id -> post_queue w !! id' = Some d0 ->
       post_queue w' !! id' = Some d0).
Proof.
  intros H. apply regenerate_ok_inv in H.
  destruct H as (id & d & newTitle & newContent & H). simpl in H.
  destruct H as (Hid & Hne & Hd & Hfresh & Hnone & -> & Hq & Hlog).
  exists id, d.
  split; [assumption|]. split; [assumption|].
  assert (post_queue w' !! id
          = Some (Patch.apply
                    (Regenerate.superseded_patch (Date_now E (S (tick w)))) d)) as Hrow.
  { rewrite Hq, lookup_insert_ne by assumption.
    rewrite lookup_alter_eq, Hd. reflexivity. }
  split; [exact Hrow|]. split; [rewrite Hrow; reflexivity|].
  intros id' d0 Hne' Hd0. rewrite Hq.
  rewrite lookup_insert_ne by congruence.
  rewrite lookup_alter_ne by congruence. exact Hd0.
Qed.

(** ** Strings *)

Lemma append_String (c : ascii) (a b : string) :
  String c a +:+ b = String c (a +:+ b).
Proof. reflexivity. Qed.

Lemma prefix_app (p s : string) :
  String.prefix p s = true <-> exists b, s = p +:+ b.
Proof.
  revert s. induction p as [|c p IH]; intros s; simpl.
  - split; [eauto|]. intros _. destruct s; reflexivity.
  - destruct s as [|c' s]; simpl.
    + split; [discriminate|]. intros [b Hb]. discriminate.
    + destruct (ascii_dec c c') as [->|Hne].
      * rewrite IH. split; intros [b Hb]; exists b;
          rewrite append_String in *; congruence.
      * split; [discriminate|]. intros [b Hb].
        rewrite append_String in Hb. congruence.
Qed.

Lemma includes_app (s pat : string) :
  JS.includes s pat = true <-> exists a b, s = a +:+ pat +:+ b.
Proof.
  induction s as [|c s IH].
  - change (JS.includes "" pat) with (String.prefix pat "" || false).
    rewrite orb_false_r, prefix_app. split.
    + intros [b Hb]. exists "", b. exact Hb.
    + intros (a & b & Hab). destruct a; [eauto|discriminate].
  - change (JS.includes (String c s) pat)
      with (String.prefix pat (String c s) || JS.includes s pat).
    rewrite orb_true_iff, prefix_app, IH. split.
    + intros [[b Hb]|(a & b & Hab)].
      * exists "", b. exact Hb.
      * exists (String c a), b. rewrite append_String. congruence.
    + intros (a & b & Hab). destruct a as [|c' a].
      * left. eauto.
      * right. exists a, b. rewrite append_String in Hab. congruence.
Qed.

Lemma toLowerCase_app (a b : string) :
  JS.toLowerCase (a +:+ b) = JS.toLowerCase a +:+ JS.toLowerCase b.
Proof.
  induction a as [|c a IH]; [reflexivity|].
  rewrite append_String. simpl. rewrite append_String. congruence.
Qed.

Lemma toLowerCase_split (r a b : string) :
  JS.toLowerCase r = a +:+ b ->
  exists a' b', r = a' +:+ b' /\ JS.toLowerCase a' = a /\ JS.toLowerCase b' = b.
Proof.
  revert r. induction a as [|c a IH]; intros r H.
  - exists "", r. auto.
  - rewrite append_String in H.
    destruct r as [|c' r]; simpl in H; [discriminate|].
    injection H as Hc Hr. apply IH in Hr.
    destruct Hr as (a' & b' & -> & <- & <-).
    exists (String c' a'), b'. simpl. rewrite Hc. auto.
Qed.

Lemma lower_ascii_letter (c : ascii) (l u : ascii) :
  (97 <= N_of_ascii l <= 122)%N ->
  N_of_ascii u = (N_of_ascii l - 32)%N ->
  JS.lower_ascii c = l <-> c = l \/ c = u.
Proof.
  intros Hl Hu. unfold JS.lower_ascii.
  destruct ((65 <=? N_of_ascii c)%N && (N_of_ascii c <=? 90)%N) eqn:Hc.
  - apply andb_true_iff in Hc. destruct Hc as [H1 H2].
    apply N.leb_le in H1, H2. split.
    + intros <-. right.
      rewrite <- (ascii_N_embedding c), <- (ascii_N_embedding u). f_equal.
      rewrite Hu, N_ascii_embedding by lia. lia.
    + intros [->| ->]; [lia|].
      rewrite Hu. replace (N_of_ascii l - 32 + 32)%N with (N_of_ascii l) by lia.
      apply ascii_N_embedding.
  - split; [auto|]. intros [->| ->]; [reflexivity|].
    apply andb_false_iff in Hc. rewrite !N.leb_gt in Hc. lia.
Qed.

Lemma toLowerCase_yes (t : string) :
  JS.toLowerCase t = "yes" <-> yes_token t.
Proof.
  unfold yes_token. split.
  - destruct t as [|c1 [|c2 [|c3 [|c4 t]]]]; simpl; try discriminate.
    intros H. injection H as H1 H2 H3.
    exists c1, c2, c3. split; [reflexivity|].
    apply (lower_ascii_letter c1 "y" "Y") in H1; [|simpl; lia|reflexivity].
    apply (lower_ascii_letter c2 "e" "E") in H2; [|simpl; lia|reflexivity].
    apply (lower_ascii_letter c3 "s" "S") in H3; [|simpl; lia|reflexivity].
    auto.
  - intros (c1 & c2 & c3 & -> & H1 & H2 & H3). simpl.
    apply (lower_ascii_letter c1 "y" "Y") in H1; [|simpl; lia|reflexivity].
    apply (lower_ascii_letter c2 "e" "E") in H2; [|simpl; lia|reflexivity].
    apply (lower_ascii_letter c3 "s" "S") in H3; [|simpl; lia|reflexivity].
    congruence.
Qed.

Lemma says_yes_spec (response : string) :
  Poll.says_yes response = true <-> contains_affirmative_token response.
Proof.
  unfold Poll.says_yes, contains_affirmative_token.
  rewrite includes_app. split.
  - intros (a & b & H). apply toLowerCase_split in H.
    destruct H as (a' & r' & -> & <- & H). apply toLowerCase_split in H.
    destruct H as (t & b' & -> & Ht & <-).
    exists a', t, b'. split; [reflexivity|]. apply toLowerCase_yes, Ht.
  - intros (a & t & b & -> & Ht). apply toLowerCase_yes in Ht.
    exists (JS.toLowerCase a), (JS.toLowerCase b).
    rewrite !toLowerCase_app, Ht. reflexivity.
Qed.

(** ** The requests a computation sends *)

Section Sends.
Context (P : Outbound -> Prop).

Lemma Sends_refl (w : World) : Sends P w w.
Proof.
  split; [lia|]. exists []. rewrite app_nil_r. split; [reflexivity|constructor].
Qed.

Lemma Sends_trans (a b c : World) : Sends P a b -> Sends P b c -> Sends P a c.
Proof.
  intros (Ht1 & l1 & Ho1 & Hf1) (Ht2 & l2 & Ho2 & Hf2). split; [lia|].
  exists (l1 ++ l2)%list. rewrite Ho2, Ho1, app_assoc.
  split; [reflexivity|]. apply Forall_app; auto.
Qed.

(** A step that sends nothing. *)
Lemma Sends_silent (w w' : World) :
  (tick w <= tick w')%nat -> outbound w' = (outbound w ++ [])%list -> Sends P w w'.
Proof. intros Ht Ho. split; [exact Ht|]. exists []. split; [exact Ho|constructor]. Qed.

Lemma Sends_one (o : Outbound) (w w' : World) :
  P o -> (tick w <= tick w')%nat -> outbound w' = (outbound w ++ [o])%list ->
  Sends P w w'.
Proof.
  intros Hp Ht Ho. split; [exact Ht|]. exists [o]. split; [exact Ho|].
  constructor; [exact Hp|constructor].
Qed.

Ltac silent H :=
  simplify_eq; apply Sends_silent; simpl; [lia|rewrite ?app_nil_r; reflexivity].

Lemma sends_now (E : Env) : keeps (Sends P) (now E).
Proof. intros w r w' H. unfold now in H. silent H. Qed.

Lemma sends_random_index (E : Env) (n : nat) : keeps (Sends P) (Poll.random_index E n).
Proof. intros w r w' H. unfold Poll.random_index in H. silent H. Qed.

Lemma sends_update_draft (p : Patch.t) (id : string) :
  keeps (Sends P) (update_draft p id).
Proof. intros w r w' H. unfold update_draft in H. silent H. Qed.

Lemma sends_insert_draft (E : Env) (c : Insert.t) : keeps (Sends P) (insert_draft E c).
Proof.
  intros w r w' H. unfold insert_draft in H.
  destruct (post_queue w !! gen_random_uuid E (tick w)); silent H.
Qed.

Lemma sends_log_activity (e : ActivityLogEntry.t) : keeps (Sends P) (log_activity e).
Proof. intros w r w' H. unfold log_activity in H. silent H. Qed.

Lemma sends_upsert_seen_post (id : string) : keeps (Sends P) (upsert_seen_post id).
Proof. intros w r w' H. unfold upsert_seen_post in H. silent H. Qed.

Lemma sends_fetch_publish (E : Env) (r : PublishRequest) :
  P (ToPublish r) -> keeps (Sends P) (fetch_publish E r).
Proof.
  intros Hp w o w' H. unfold fetch_publish in H. simplify_eq.
  apply (Sends_one (ToPublish r)); simpl; [exact Hp|lia|reflexivity].
Qed.

Lemma sends_fetch_feed (E : Env) (submolt : string) :
  P (ToFeed submolt) -> keeps (Sends P) (fetch_feed E submolt).
Proof.
  intros Hp w o w' H. unfold fetch_feed in H.
  destruct (feed E (tick w) submolt); simplify_eq;
    apply (Sends_one (ToFeed submolt)); simpl; solve [exact Hp|lia|reflexivity].
Qed.

Lemma sends_openaiChat (E : Env) (r : Chat.request) :
  P (ToOpenAI r) -> keeps (Sends P) (openaiChat E r).
Proof.
  intros Hp w o w' H. unfold openaiChat in H.
  destruct (openai E (tick w) r); simplify_eq;
    apply (Sends_one (ToOpenAI r)); simpl; solve [exact Hp|lia|reflexivity].
Qed.

End Sends.


Lemma Sends_elem (P : Outbound -> Prop) (w w' : World) (sent : list Outbound) :
  Sends P w w' -> outbound w' = (outbound w ++ sent)%list ->
  forall o, o ∈ sent -> P o.
Proof.
  intros (_ & sent' & Ho & Hall) Hsent o Hin.
  rewrite Ho in Hsent. apply app_inv_head in Hsent. subst sent'.
  rewrite Forall_forall in Hall. apply Hall, Hin.
Qed.

#[local] Hint Resolve sends_now sends_random_index sends_update_draft
  sends_insert_draft sends_log_activity sends_upsert_seen_post : keeps.

Ltac keeps_sends P := keeps_steps (Sends_refl P) (Sends_trans P).

Section SendsPhases.
Context (E : Env) (P : Outbound -> Prop).
Context (P_publish : forall r, P (ToPublish r)).

Lemma sends_postToMoltbook (queueId apiKey : string) :
  keeps (Sends P) (Poll.postToMoltbook E queueId apiKey).
Proof.
  unfold Poll.postToMoltbook, select_draft.
  pose proof (fun r => sends_fetch_publish P E r (P_publish r)) as Hpublish.
  keeps_sends P.
Qed.

Lemma sends_reply_posts (openaiApiKey moltbookApiKey : string)
    (config : AgentConfig.t) (postsToReply : list MoltbookPost.t) :
  (forall p, p ∈ postsToReply ->
     P (ToOpenAI (Poll.reply_request openaiApiKey p config))) ->
  forall drafts,
    keeps (Sends P)
      (Poll.reply_posts E openaiApiKey moltbookApiKey config postsToReply drafts).
Proof.
  induction postsToReply as [|p rest IH]; intros Hreply drafts; simpl.
  - keeps_sends P.
  - unfold Poll.generateReply.
    pose proof sends_postToMoltbook as Hpost.
    assert (keeps (Sends P) (openaiChat E (Poll.reply_request openaiApiKey p config)))
      as Hask by (apply sends_openaiChat, Hreply; left).
    assert (forall drafts0,
              keeps (Sends P)
                (Poll.reply_posts E openaiApiKey moltbookApiKey config rest drafts0))
      as Hrest by (apply IH; intros q Hq; apply Hreply; right; exact Hq).
    keeps_sends P.
Qed.

Lemma sends_check_posts (apiKey : string) (config : AgentConfig.t)
    (batch : list MoltbookPost.t) :
  (forall p, p ∈ batch -> P (ToOpenAI (Poll.relevance_request apiKey p config))) ->
  forall postsToReply,
    keeps (Sends P) (Poll.check_posts E apiKey config batch postsToReply).
Proof.
  induction batch as [|p rest IH]; intros Hcheck postsToReply; simpl.
  - keeps_sends P.
  - unfold Poll.checkRelevance.
    assert (keeps (Sends P) (openaiChat E (Poll.relevance_request apiKey p config)))
      as Hask by (apply sends_openaiChat, Hcheck; left).
    assert (forall postsToReply0,
              keeps (Sends P) (Poll.check_posts E apiKey config rest postsToReply0))
      as Hrest by (apply IH; intros q Hq; apply Hcheck; right; exact Hq).
    keeps_sends P.
Qed.

Lemma sends_fetch_posts (submolts : list string) :
  (forall submolt, P (ToFeed submolt)) ->
  forall posts, keeps (Sends P) (Poll.fetch_posts E submolts posts).
Proof.
  intros Hfeed. induction submolts as [|submolt rest IH]; intros posts; simpl.
  - keeps_sends P.
  - pose proof (fun s => sends_fetch_feed P E s (Hfeed s)) as Hask.
    keeps_sends P.
Qed.

Lemma sends_original_post (openaiApiKey moltbookApiKey : string)
    (config : AgentConfig.t) (drafts : list Draft.t) :
  (forall submolt,
     P (ToOpenAI (Poll.original_post_request openaiApiKey config submolt))) ->
  keeps (Sends P) (Poll.original_post E openaiApiKey moltbookApiKey config drafts).
Proof.
  intros Horiginal.
  unfold Poll.original_post, Poll.minutesSinceLastPost, Poll.create_original_post,
    Poll.generateOriginalPost.
  pose proof sends_postToMoltbook as Hpost.
  pose proof (fun s => sends_openaiChat P E _ (Horiginal s)) as Hask.
  keeps_sends P.
Qed.

End SendsPhases.

(** ** The steps of the draft lifecycle *)

Lemma Lifecycle_refl (w : World) : Lifecycle w w.
Proof.
  split; [reflexivity|]. split; [apply Sends_refl|]. intros id d Hd. eauto.
Qed.

Lemma Lifecycle_trans (a b c : World) :
  Lifecycle a b -> Lifecycle b c -> Lifecycle a c.
Proof.
  intros (Hs1 & Ho1 & Hr1) (Hs2 & Ho2 & Hr2).
  split; [congruence|]. split; [eapply Sends_trans; eassumption|].
  intros id d Hd. destruct (Hr1 id d Hd) as (d1 & Hd1 & Ht1 & Hc1).
  destruct (Hr2 id d1 Hd1) as (d2 & Hd2 & Ht2 & Hc2).
  exists d2. repeat split; congruence.
Qed.

(** The shape shared by the steps: what was sent, and what became of the
    rows. *)
Lemma Lifecycle_intro (w w' : World) (sent : list Outbound) :
  seen_posts w' = seen_posts w ->
  (tick w <= tick w')%nat ->
  outbound w' = (outbound w ++ sent)%list ->
  Forall (fun o => is_relevance_check o = false) sent ->
  (forall id d, post_queue w !! id = Some d ->
     exists d', post_queue w' !! id = Some d' /\
       Draft.type d' = Draft.type d /\ Draft.created_at d' = Draft.created_at d) ->
  Lifecycle w w'.
Proof.
  intros Hseen Htick Hout Hall Hrows. split; [exact Hseen|].
  split; [|exact Hrows]. split; [exact Htick|]. eauto.
Qed.

Ltac lifecycle_intro sent :=
  apply (Lifecycle_intro _ _ sent); simpl;
  [ reflexivity
  | lia
  | rewrite ?app_nil_r; reflexivity
  | repeat constructor; try assumption
  | try solve [intros ? ? ?; eauto] ].

Lemma keeps_now (E : Env) : keeps Lifecycle (now E).
Proof.
  intros w r w' H. unfold now in H. simplify_eq. lifecycle_intro (@nil Outbound).
Qed.

Lemma keeps_random_index (E : Env) (n : nat) : keeps Lifecycle (Poll.random_index E n).
Proof.
  intros w r w' H. unfold Poll.random_index in H. simplify_eq.
  lifecycle_intro (@nil Outbound).
Qed.

Lemma keeps_update_draft (p : Patch.t) (id : string) :
  keeps Lifecycle (update_draft p id).
Proof.
  intros w r w' H. unfold update_draft in H. simplify_eq.
  lifecycle_intro (@nil Outbound).
  intros id' d Hd. destruct (decide (id = id')) as [->|Hne].
  - rewrite lookup_alter_eq, Hd. simpl. eauto.
  - rewrite lookup_alter_ne by assumption. eauto.
Qed.

Lemma keeps_insert_draft (E : Env) (c : Insert.t) :
  keeps Lifecycle (insert_draft E c).
Proof.
  intros w r w' H. unfold insert_draft in H.
  destruct (post_queue w !! gen_random_uuid E (tick w)) eqn:Hnew; simplify_eq.
  - lifecycle_intro (@nil Outbound).
  - lifecycle_intro (@nil Outbound).
    intros id' d Hd. rewrite lookup_insert_ne by congruence. eauto.
Qed.

Lemma keeps_log_activity (e : ActivityLogEntry.t) :
  keeps Lifecycle (log_activity e).
Proof.
  intros w r w' H. unfold log_activity in H. simplify_eq.
  lifecycle_intro (@nil Outbound).
Qed.

Lemma keeps_fetch_publish (E : Env) (r : PublishRequest) :
  keeps Lifecycle (fetch_publish E r).
Proof.
  intros w o w' H. unfold fetch_publish in H. simplify_eq.
  lifecycle_intro [ToPublish r].
Qed.

Lemma keeps_fetch_feed (E : Env) (submolt : string) :
  keeps Lifecycle (fetch_feed E submolt).
Proof.
  intros w o w' H. unfold fetch_feed in H.
  destruct (feed E (tick w) submolt); simplify_eq; lifecycle_intro [ToFeed submolt].
Qed.

Lemma keeps_openaiChat (E : Env) (r : Chat.request) :
  Chat.model r <> "gpt-4o-mini" ->
  keeps Lifecycle (openaiChat E r).
Proof.
  intros Hm w o w' H. unfold openaiChat in H.
  assert (is_relevance_check (ToOpenAI r) = false) as Hr
      by (simpl; apply String.eqb_neq, Hm).
  destruct (openai E (tick w) r); simplify_eq; lifecycle_intro [ToOpenAI r].
Qed.

#[local] Hint Resolve keeps_now keeps_random_index keeps_update_draft
  keeps_insert_draft keeps_log_activity keeps_fetch_publish keeps_fetch_feed
  : keeps.

Ltac keeps_lifecycle := keeps_steps Lifecycle_refl Lifecycle_trans.

Lemma keeps_postToMoltbook (E : Env) (queueId apiKey : string) :
  keeps Lifecycle (Poll.postToMoltbook E queueId apiKey).
Proof. unfold Poll.postToMoltbook, select_draft. keeps_lifecycle. Qed.

Lemma keeps_generateOriginalPost (E : Env) (apiKey : string) (config : AgentConfig.t) :
  keeps Lifecycle (Poll.generateOriginalPost E apiKey config).
Proof.
  unfold Poll.generateOriginalPost.
  assert (forall submolt,
            keeps Lifecycle
              (openaiChat E (Poll.original_post_request apiKey config submolt)))
    as Hask by (intros submolt; apply keeps_openaiChat; discriminate).
  keeps_lifecycle.
Qed.

Lemma keeps_reply_posts (E : Env) (openaiApiKey moltbookApiKey : string)
    (config : AgentConfig.t) (postsToReply : list MoltbookPost.t) :
  forall drafts,
    keeps Lifecycle
      (Poll.reply_posts E openaiApiKey moltbookApiKey config postsToReply drafts).
Proof.
  induction postsToReply as [|p rest IH]; intros drafts; simpl.
  - keeps_lifecycle.
  - unfold Poll.generateReply.
    pose proof (keeps_postToMoltbook E) as Hpost.
    assert (keeps Lifecycle (openaiChat E (Poll.reply_request openaiApiKey p config)))
      as Hask by (apply keeps_openaiChat; discriminate).
    keeps_lifecycle.
Qed.

Lemma keeps_create_original_post (E : Env) (openaiApiKey moltbookApiKey : string)
    (config : AgentConfig.t) (drafts : list Draft.t) :
  keeps Lifecycle
    (Poll.create_original_post E openaiApiKey moltbookApiKey config drafts).
Proof.
  unfold Poll.create_original_post.
  pose proof (keeps_postToMoltbook E) as Hpost.
  pose proof (keeps_generateOriginalPost E) as Hgen.
  keeps_lifecycle.
Qed.

Lemma keeps_original_post (E : Env) (openaiApiKey moltbookApiKey : string)
    (config : AgentConfig.t) (drafts : list Draft.t) :
  keeps Lifecycle (Poll.original_post E openaiApiKey moltbookApiKey config drafts).
Proof.
  unfold Poll.original_post, Poll.minutesSinceLastPost.
  pose proof (keeps_create_original_post E) as Hcreate.
  keeps_lifecycle.
Qed.

Lemma keeps_fetch_posts (E : Env) (submolts : list string) :
  forall posts, keeps Lifecycle (Poll.fetch_posts E submolts posts).
Proof.
  induction submolts as [|submolt rest IH]; intros posts; simpl; keeps_lifecycle.
Qed.

(** ** The creation times of the drafts of type post *)

Lemma SamePosts_refl (w : World) : SamePosts w w.
Proof. intros t. reflexivity. Qed.

Lemma SamePosts_trans (a b c : World) : SamePosts a b -> SamePosts b c -> SamePosts a c.
Proof. intros H1 H2 t. rewrite (H1 t). apply H2. Qed.

Lemma SamePosts_same_queue (w w' : World) :
  post_queue w' = post_queue w -> SamePosts w w'.
Proof. intros H t. rewrite H. reflexivity. Qed.

Lemma same_posts_now (E : Env) : keeps SamePosts (now E).
Proof.
  intros w r w' H. unfold now in H. simplify_eq. apply SamePosts_same_queue.
  reflexivity.
Qed.

Lemma same_posts_log_activity (e : ActivityLogEntry.t) :
  keeps SamePosts (log_activity e).
Proof.
  intros w r w' H. unfold log_activity in H. simplify_eq.
  apply SamePosts_same_queue. reflexivity.
Qed.

Lemma same_posts_upsert_seen_post (id : string) :
  keeps SamePosts (upsert_seen_post id).
Proof.
  intros w r w' H. unfold upsert_seen_post in H. simplify_eq.
  apply SamePosts_same_queue. reflexivity.
Qed.

Lemma same_posts_fetch_publish (E : Env) (r : PublishRequest) :
  keeps SamePosts (fetch_publish E r).
Proof.
  intros w o w' H. unfold fetch_publish in H. simplify_eq.
  apply SamePosts_same_queue. reflexivity.
Qed.

Lemma same_posts_fetch_feed (E : Env) (submolt : string) :
  keeps SamePosts (fetch_feed E submolt).
Proof.
  intros w o w' H. unfold fetch_feed in H.
  destruct (feed E (tick w) submolt); simplify_eq; apply SamePosts_same_queue;
    reflexivity.
Qed.

Lemma same_posts_openaiChat (E : Env) (r : Chat.request) :
  keeps SamePosts (openaiChat E r).
Proof.
  intros w o w' H. unfold openaiChat in H.
  destruct (openai E (tick w) r); simplify_eq; apply SamePosts_same_queue;
    reflexivity.
Qed.

Lemma same_posts_update_draft (p : Patch.t) (id : string) :
  keeps SamePosts (update_draft p id).
Proof.
  intros w r w' H. unfold update_draft in H. simplify_eq.
  intros t. unfold post_time. simpl. split.
  - intros (id' & d & Hd & Htype & Ht).
    destruct (decide (id = id')) as [<-|Hne].
    + exists id, (Patch.apply p d). rewrite lookup_alter_eq, Hd. auto.
    + exists id', d. rewrite lookup_alter_ne by assumption. auto.
  - intros (id' & d' & Hd' & Htype & Ht).
    destruct (decide (id = id')) as [<-|Hne].
    + rewrite lookup_alter_eq in Hd'.
      destruct (post_queue w !! id) as [d|] eqn:Hd; [|discriminate].
      simpl in Hd'. simplify_eq. exists id, d. auto.
    + rewrite lookup_alter_ne in Hd' by assumption. eauto.
Qed.

Lemma same_posts_insert_reply (E : Env) (c : Insert.t) :
  Insert.type c = Reply -> keeps SamePosts (insert_draft E c).
Proof.
  intros Hreply w r w' H. unfold insert_draft in H.
  destruct (post_queue w !! gen_random_uuid E (tick w)) eqn:Hnew; simplify_eq.
  { apply SamePosts_same_queue. reflexivity. }
  intros t. unfold post_time. simpl. split.
  - intros (id & d & Hd & Htype & Ht). exists id, d.
    rewrite lookup_insert_ne by congruence. auto.
  - intros (id & d & Hd & Htype & Ht).
    apply lookup_insert_Some in Hd. destruct Hd as [[_ <-]|[_ Hd]].
    + simpl in Htype. congruence.
    + eauto.
Qed.

#[local] Hint Resolve same_posts_now same_posts_log_activity
  same_posts_upsert_seen_post same_posts_fetch_publish same_posts_fetch_feed
  same_posts_openaiChat same_posts_update_draft : keeps.

Ltac keeps_same_posts := keeps_steps SamePosts_refl SamePosts_trans.

Lemma same_posts_postToMoltbook (E : Env) (queueId apiKey : string) :
  keeps SamePosts (Poll.postToMoltbook E queueId apiKey).
Proof. unfold Poll.postToMoltbook, select_draft. keeps_same_posts. Qed.

Lemma same_posts_reply_posts (E : Env) (openaiApiKey moltbookApiKey : string)
    (config : AgentConfig.t) (postsToReply : list MoltbookPost.t) :
  forall drafts,
    keeps SamePosts
      (Poll.reply_posts E openaiApiKey moltbookApiKey config postsToReply drafts).
Proof.
  induction postsToReply as [|p rest IH]; intros drafts; simpl.
  - keeps_same_posts.
  - unfold Poll.generateReply.
    pose proof (same_posts_postToMoltbook E) as Hpost.
    pose proof (fun content t =>
                  same_posts_insert_reply E (Poll.reply_insert p content t) eq_refl)
      as Hinsert.
    keeps_same_posts.
Qed.

Lemma same_posts_check_posts (E : Env) (apiKey : string) (config : AgentConfig.t)
    (batch : list MoltbookPost.t) :
  forall postsToReply,
    keeps SamePosts (Poll.check_posts E apiKey config batch postsToReply).
Proof.
  induction batch as [|p rest IH]; intros postsToReply; simpl.
  - keeps_same_posts.
  - unfold Poll.checkRelevance. keeps_same_posts.
Qed.

Lemma same_posts_fetch_posts (E : Env) (submolts : list string) :
  forall posts, keeps SamePosts (Poll.fetch_posts E submolts posts).
Proof.
  induction submolts as [|submolt rest IH]; intros posts; simpl; keeps_same_posts.
Qed.

Lemma cooldown_met_post_times (q : gmap string Draft.t) (now frequency : Z) :
  cooldown_met q now frequency <->
  (forall t, ~ post_time q t) \/
  exists t, post_time q t /\ (forall t', post_time q t' -> t' <= t) /\
    (inject_Z frequency <= Qmake (now - t) 60000)%Q.
Proof.
  unfold cooldown_met, no_post_draft, most_recent_post, post_time. split.
  - intros [Hnone|(d & ((id & Hd) & Htype & Hmax) & Hle)].
    + left. intros t (id & d & Hd & Htype & _). exact (Hnone id d Hd Htype).
    + right. exists (Draft.created_at d). split; [eauto|]. split; [|exact Hle].
      intros t' (id' & d' & Hd' & Htype' & <-). eauto.
  - intros [Hnone|(t & (id & d & Hd & Htype & <-) & Hmax & Hle)].
    + left. intros id d Hd Htype. apply (Hnone (Draft.created_at d)). eauto.
    + right. exists d. split; [|exact Hle]. split; [eauto|]. split; [exact Htype|].
      intros id' d' Hd' Htype'. apply Hmax. eauto.
Qed.

Lemma cooldown_met_SamePosts (w w' : World) (now frequency : Z) :
  SamePosts w w' ->
  cooldown_met (post_queue w) now frequency
  <-> cooldown_met (post_queue w') now frequency.
Proof.
  intros Hsame. rewrite !cooldown_met_post_times.
  assert (forall a b : World, SamePosts a b ->
    ((forall t, ~ post_time (post_queue a) t) \/
     exists t, post_time (post_queue a) t /\
       (forall t', post_time (post_queue a) t' -> t' <= t) /\
       (inject_Z frequency <= Qmake (now - t) 60000)%Q) ->
    ((forall t, ~ post_time (post_queue b) t) \/
     exists t, post_time (post_queue b) t /\
       (forall t', post_time (post_queue b) t' -> t' <= t) /\
       (inject_Z frequency <= Qmake (now - t) 60000)%Q)) as Hdir.
  { intros a b Hab [Hnone|(t & Ht & Hmax & Hle)].
    - left. intros t Ht. apply (Hnone t), Hab, Ht.
    - right. exists t. split; [apply Hab, Ht|]. split; [|exact Hle].
      intros t' Ht'. apply Hmax, Hab, Ht'. }
  split; apply Hdir; [exact Hsame|].
  intros t. symmetry. apply Hsame.
Qed.

(** ** The scheduled run, phase by phase *)

Lemma handler_phases (E : Env) (w w' : World) (r : Outcome Poll.body) :
  Poll.handler E w = (r, w') ->
  (w' = w /\ exists e, r = Throw e) \/
  exists config,
    agent_config w = Some config /\
    let openaiApiKey := default "" (OPENAI_API_KEY w) in
    let moltbookApiKey := default "" (AgentConfig.api_key config) in
    exists fetched w1,
      Poll.fetch_posts E (AgentConfig.target_submolts config) [] w = (fetched, w1) /\
      match fetched with
      | Throw e => r = Throw e /\ w' = w1
      | Return posts =>
          let newPosts := Poll.new_posts (seen_posts w1) posts in
          exists checked w2,
            Poll.check_posts E openaiApiKey config (JS.slice0 5 newPosts) [] w1
            = (checked, w2) /\
            match checked with
            | Throw e => r = Throw e /\ w' = w2
            | Return postsToReply =>
                exists replied w3,
                  Poll.reply_posts E openaiApiKey moltbookApiKey config postsToReply [] w2
                  = (replied, w3) /\
                  match replied with
                  | Throw e => r = Throw e /\ w' = w3
                  | Return drafts =>
                      exists created,
                        Poll.original_post E openaiApiKey moltbookApiKey config drafts w3
                        = (created, w') /\
                        match created with
                        | Throw e => r = Throw e
                        | Return drafts' =>
                            r = Return
                                  {| Poll.posts_checked := length newPosts;
                                     Poll.drafts_created := length drafts';
                                     Poll.auto_posted := AgentConfig.auto_post config |}
                        end
                  end
            end
      end.
Proof.
  unfold Poll.handler. intros H.
  apply bind_cases in H. destruct H as [(e & H & _)|(key & w0 & Hkey & H)];
    [discriminate|].
  unfold env_openai_key in Hkey. simplify_eq.
  destruct (JS.truthy (OPENAI_API_KEY w0)); simpl in H;
    [|unfold throw in H; simplify_eq; left; eauto].
  apply bind_cases in H. destruct H as [(e & H & _)|(config & w1 & Hconfig & H)];
    [discriminate|].
  unfold select_config in Hconfig. simplify_eq.
  destruct (agent_config w1) as [config|] eqn:Hconfig;
    [|unfold throw in H; simplify_eq; left; eauto].
  destruct (JS.truthy (AgentConfig.api_key config)); simpl in H;
    [|unfold throw in H; simplify_eq; left; eauto].
  right. exists config. split; [reflexivity|]. cbv zeta.
  apply bind_cases in H. destruct H as [(e & H & ->)|(posts & w2 & Hfetch & H)].
  { exists (Throw e), w'. auto. }
  exists (Return posts), w2. split; [exact Hfetch|].
  apply bind_cases in H. destruct H as [(e & H & _)|(seen & w3 & Hsel & H)];
    [discriminate|].
  unfold select_seen_posts in Hsel. simplify_eq.
  apply bind_cases in H. destruct H as [(e & H & ->)|(postsToReply & w4 & Hcheck & H)].
  { exists (Throw e), w'. auto. }
  exists (Return postsToReply), w4. split; [exact Hcheck|].
  apply bind_cases in H. destruct H as [(e & H & ->)|(drafts & w5 & Hreply & H)].
  { exists (Throw e), w'. auto. }
  exists (Return drafts), w5. split; [exact Hreply|].
  apply bind_cases in H. destruct H as [(e & H & ->)|(drafts' & w6 & Hcreate & H)].
  { exists (Throw e). auto. }
  unfold ret in H. simplify_eq.
  exists (Return drafts'). auto.
Qed.

(** *** The relevance loop *)

Lemma marked_nil (seen : gset string) : marked [] seen = seen.
Proof. unfold marked. simpl. apply (left_id_L ∅ (∪)). Qed.

Lemma marked_cons (p : MoltbookPost.t) (posts : list MoltbookPost.t)
    (seen : gset string) :
  marked (p :: posts) seen = marked posts ({[ MoltbookPost.id p ]} ∪ seen).
Proof.
  unfold marked. simpl.
  rewrite (comm_L (∪) {[ MoltbookPost.id p ]}), <- (assoc_L (∪)). reflexivity.
Qed.

Lemma check_posts_step (E : Env) (apiKey : string) (config : AgentConfig.t)
    (p : MoltbookPost.t) (rest postsToReply : list MoltbookPost.t) (w : World) :
  Poll.check_posts E apiKey config (p :: rest) postsToReply w
  = match openai E (tick w) (Poll.relevance_request apiKey p config) with
    | Chat.Ok content =>
        Poll.check_posts E apiKey config rest
          (if Poll.says_yes content then postsToReply ++ [p] else postsToReply)%list
          (set_seen_posts ({[ MoltbookPost.id p ]} ∪ seen_posts w)
             (interact [ToOpenAI (Poll.relevance_request apiKey p config)] w))
    | Chat.Fail status body =>
        (Throw ("OpenAI API error: " +:+ pretty status +:+ " - " +:+ body),
         interact [ToOpenAI (Poll.relevance_request apiKey p config)] w)
    end.
Proof.
  simpl. unfold bind, Poll.checkRelevance, bind, openaiChat, ret, upsert_seen_post.
  destruct (openai E (tick w) _); reflexivity.
Qed.

Lemma check_posts_ledger (E : Env) (apiKey : string) (config : AgentConfig.t)
    (batch : list MoltbookPost.t) :
  forall postsToReply w r w',
    Poll.check_posts E apiKey config batch postsToReply w = (r, w') ->
    exists n : nat,
      seen_posts w' = marked (take n batch) (seen_posts w) /\
      match r with
      | Return _ =>
          n = length batch /\
          outbound w' = (outbound w ++ relevance_checks apiKey config batch)%list
      | Throw _ =>
          (n < length batch)%nat /\
          outbound w'
          = (outbound w ++ relevance_checks apiKey config (take (S n) batch))%list
      end.
Proof.
  unfold relevance_checks.
  induction batch as [|p rest IH]; intros postsToReply w r w' H.
  - simpl in H. unfold ret in H. simplify_eq. exists 0%nat. simpl.
    rewrite marked_nil, app_nil_r. auto.
  - rewrite check_posts_step in H.
    destruct (openai E (tick w) _) as [content|status body].
    + apply IH in H. destruct H as (n & Hseen & Hr). simpl in Hseen.
      exists (S n). split; [simpl; rewrite marked_cons; exact Hseen|].
      destruct r; destruct Hr as [Hn Hout]; simpl in Hout;
        (split; [simpl; lia|]); rewrite Hout, <- app_assoc; reflexivity.
    + simplify_eq. exists 0%nat. simpl. rewrite marked_nil.
      split; [reflexivity|]. split; [lia|]. rewrite ?take_0. reflexivity.
Qed.

Lemma check_posts_answers (E : Env) (apiKey : string) (config : AgentConfig.t)
    (batch : list MoltbookPost.t) :
  forall postsToReply w out w',
    Poll.check_posts E apiKey config batch postsToReply w = (Return out, w') ->
    forall p, p ∈ out ->
      p ∈ postsToReply \/
      (p ∈ batch /\
       exists n response,
         openai E n (Poll.relevance_request apiKey p config) = Chat.Ok response /\
         Poll.says_yes response = true).
Proof.
  induction batch as [|q rest IH]; intros postsToReply w out w' H p Hp.
  - simpl in H. unfold ret in H. simplify_eq. left. exact Hp.
  - rewrite check_posts_step in H.
    destruct (openai E (tick w) _) as [content|status body] eqn:Hanswer;
      [|discriminate].
    destruct (IH _ _ _ _ H p Hp) as [Hin|(Hin & n & response & Hn & Hyes)].
    + destruct (Poll.says_yes content) eqn:Hyes; [|left; exact Hin].
      apply elem_of_app in Hin. destruct Hin as [Hin|Hin]; [left; exact Hin|].
      apply list_elem_of_singleton in Hin. subst p. right.
      split; [left|]. eauto.
    + right. split; [right; exact Hin|]. eauto.
Qed.

(** *** The whole run and the ledger *)




Lemma new_posts_unseen (seen : gset string) (posts : list MoltbookPost.t)
    (p : MoltbookPost.t) :
  p ∈ Poll.new_posts seen posts -> (MoltbookPost.id p ∉ seen) /\ (p ∈ posts).
Proof.
  unfold Poll.new_posts. intros H. apply list_elem_of_filter in H. exact H.
Qed.



(** After a run that completes, the ledger is the one it started from
    with the ids of the new posts it checked, five at most. *)
Lemma run_marks (E : Env) (w w' : World) (body : Poll.body)
    (config : AgentConfig.t) :
  Poll.serve E w = (Ok200 body, w') ->
  agent_config w = Some config ->
  exists posts w1,
    Poll.fetch_posts E (AgentConfig.target_submolts config) [] w = (Return posts, w1) /\
    Poll.posts_checked body = length (Poll.new_posts (seen_posts w) posts) /\
    seen_posts w'
    = marked (JS.slice0 5 (Poll.new_posts (seen_posts w) posts)) (seen_posts w).
Proof.
  intros Hserve Hconfig. apply try_catch_Ok200, handler_phases in Hserve.
  destruct Hserve as [(_ & e & He)|(config' & Hconfig' & Hphases)]; [discriminate|].
  rewrite Hconfig in Hconfig'. injection Hconfig' as <-. cbv zeta in Hphases.
  destruct Hphases as ([posts|e] & w1 & Hfetch & Hphases);
    [|destruct Hphases; discriminate].
  destruct Hphases as ([postsToReply|e] & w2 & Hcheck & Hphases);
    [|destruct Hphases; discriminate].
  destruct Hphases as ([drafts|e] & w3 & Hreply & Hphases);
    [|destruct Hphases; discriminate].
  destruct Hphases as ([drafts'|e] & Hcreate & Hbody); [|discriminate].
  exists posts, w1. split; [exact Hfetch|].
  apply keeps_fetch_posts in Hfetch. destruct Hfetch as (Hseen1 & _).
  apply check_posts_ledger in Hcheck. destruct Hcheck as (n & Hseen2 & -> & _).
  apply keeps_reply_posts in Hreply. destruct Hreply as (Hseen3 & _).
  apply keeps_original_post in Hcreate. destruct Hcreate as (Hseen4 & _).
  rewrite Hseen1 in *. injection Hbody as ->. split; [reflexivity|].
  rewrite Hseen4, Hseen3, Hseen2. f_equal. apply firstn_all.
Qed.

(** *** The cooldown of original posts *)

Global Instance newer_trans : Transitive Poll.newer.
Proof. intros a b c. unfold Poll.newer. lia. Qed.

Global Instance newer_total : Total Poll.newer.
Proof. intros a b. unfold Poll.newer. lia. Qed.

Lemma post_created_ats_elem (q : gmap string Draft.t) (t : Z) :
  t ∈ Poll.post_created_ats q <->
  exists id d, q !! id = Some d /\ Draft.type d = Post /\ Draft.created_at d = t.
Proof.
  unfold Poll.post_created_ats. rewrite list_elem_of_fmap. split.
  - intros (d & -> & Hd). apply list_elem_of_filter in Hd.
    destruct Hd as [Htype Hd]. apply list_elem_of_fmap in Hd.
    destruct Hd as ([id d'] & -> & Hd). apply elem_of_map_to_list in Hd.
    exists id, d'. auto.
  - intros (id & d & Hd & Htype & <-). exists d. split; [reflexivity|].
    apply list_elem_of_filter. split; [assumption|].
    apply list_elem_of_fmap. exists (id, d). split; [reflexivity|].
    apply elem_of_map_to_list, Hd.
Qed.

Lemma head_merge_sort_newer (l : list Z) (t : Z) :
  head (merge_sort Poll.newer l) = Some t <->
  t ∈ l /\ forall x, x ∈ l -> x <= t.
Proof.
  pose proof (merge_sort_Permutation Poll.newer l) as Hperm.
  pose proof (StronglySorted_merge_sort Poll.newer l) as Hsorted.
  destruct (merge_sort Poll.newer l) as [|m sorted] eqn:Hm; simpl.
  - apply Permutation_nil_l in Hperm. subst l. split; [discriminate|].
    intros [Hin _]. apply elem_of_nil in Hin. contradiction.
  - apply StronglySorted_inv in Hsorted. destruct Hsorted as [_ Hall].
    rewrite Forall_forall in Hall.
    assert (forall x, x ∈ l -> x <= m) as Hmax.
    { intros x Hx. rewrite <- Hperm in Hx. apply elem_of_cons in Hx.
      destruct Hx as [->|Hx]; [lia|]. apply Hall, Hx. }
    assert (m ∈ l) as Hin by (rewrite <- Hperm; left).
    split.
    + intros Heq. simplify_eq. auto.
    + intros [Ht Htmax]. f_equal.
      apply Hmax in Ht. apply Htmax in Hin. lia.
Qed.

Lemma lastPostTime_None (q : gmap string Draft.t) :
  Poll.lastPostTime q = None <-> no_post_draft q.
Proof.
  unfold Poll.lastPostTime, no_post_draft.
  pose proof (merge_sort_Permutation Poll.newer (Poll.post_created_ats q)) as Hperm.
  split.
  - intros Hhead id d Hd Htype.
    assert (Draft.created_at d ∈ Poll.post_created_ats q) as Hin
        by (apply post_created_ats_elem; eauto).
    rewrite <- Hperm in Hin.
    destruct (merge_sort Poll.newer (Poll.post_created_ats q)); [|discriminate].
    apply elem_of_nil in Hin. contradiction.
  - intros Hnone.
    destruct (merge_sort Poll.newer (Poll.post_created_ats q)) as [|m sorted];
      [reflexivity|].
    assert (m ∈ Poll.post_created_ats q) as Hin by (rewrite <- Hperm; left).
    apply post_created_ats_elem in Hin. destruct Hin as (id & d & Hd & Htype & _).
    destruct (Hnone id d Hd Htype).
Qed.

Lemma lastPostTime_Some (q : gmap string Draft.t) (t : Z) :
  Poll.lastPostTime q = Some t <->
  exists d, most_recent_post q d /\ Draft.created_at d = t.
Proof.
  unfold Poll.lastPostTime, most_recent_post. rewrite head_merge_sort_newer. split.
  - intros [Hin Hmax]. apply post_created_ats_elem in Hin.
    destruct Hin as (id & d & Hd & Htype & <-). exists d.
    split; [|reflexivity]. split; [eauto|]. split; [assumption|].
    intros id' d' Hd' Htype'. apply Hmax, post_created_ats_elem. eauto.
  - intros (d & ((id & Hd) & Htype & Hmax) & <-). split.
    + apply post_created_ats_elem. eauto.
    + intros x Hx. apply post_created_ats_elem in Hx.
      destruct Hx as (id' & d' & Hd' & Htype' & <-). eauto.
Qed.

Lemma due_cooldown_met (q : gmap string Draft.t) (now frequency : Z) :
  due q now frequency = true <-> cooldown_met q now frequency.
Proof.
  unfold due, cooldown_met.
  destruct (Poll.lastPostTime q) as [last|] eqn:Hlast; simpl.
  - rewrite Qle_bool_iff. split.
    + intros Hle. right. apply lastPostTime_Some in Hlast.
      destruct Hlast as (d & Hd & <-). eauto.
    + intros [Hnone|(d & Hd & Hle)].
      * apply lastPostTime_None in Hnone. congruence.
      * assert (Poll.lastPostTime q = Some (Draft.created_at d)) as Hd'
            by (apply lastPostTime_Some; eauto).
        congruence.
  - split; [|reflexivity]. intros _. left. apply lastPostTime_None, Hlast.
Qed.

(** The world in which the cooldown has been read: the clock is only
    consulted when there is a last post. *)
Lemma original_post_unfold (E : Env) (openaiApiKey moltbookApiKey : string)
    (config : AgentConfig.t) (drafts : list Draft.t) (w : World) :
  Poll.original_post E openaiApiKey moltbookApiKey config drafts w
  = let w0 :=
      match Poll.lastPostTime (post_queue w) with
      | Some _ => interact [] w
      | None => w
      end in
    if due (post_queue w) (Date_now E (tick w))
         (AgentConfig.post_frequency_minutes config)
    then Poll.create_original_post E openaiApiKey moltbookApiKey config drafts w0
    else (Return drafts, w0).
Proof.
  unfold Poll.original_post, Poll.minutesSinceLastPost, due, bind, now, ret.
  destruct (Poll.lastPostTime (post_queue w)); cbn beta iota;
    destruct (Poll.minutes_ge _ _); reflexivity.
Qed.

Lemma generateOriginalPost_asks (E : Env) (apiKey : string)
    (config : AgentConfig.t) (w w' : World)
    (r : Outcome (option string * option string * option string)) :
  Poll.generateOriginalPost E apiKey config w = (r, w') ->
  exists submolt,
    outbound w'
    = (outbound w ++ [ToOpenAI (Poll.original_post_request apiKey config submolt)])%list
    /\ post_queue w' = post_queue w.
Proof.
  unfold Poll.generateOriginalPost, bind, Poll.random_index, openaiChat, ret, throw.
  cbn [tick interact]. intros H.
  eexists.
  destruct (openai E (S (tick w)) _) as [content|status body].
  - destruct (JSON_parse E content) as [[|title body]|]; simplify_eq; simpl;
      rewrite app_nil_r; split; reflexivity.
  - simplify_eq. simpl. rewrite app_nil_r. split; reflexivity.
Qed.

Lemma create_original_post_asks (E : Env) (openaiApiKey moltbookApiKey : string)
    (config : AgentConfig.t) (drafts : list Draft.t) (w w' : World)
    (r : Outcome (list Draft.t)) :
  Poll.create_original_post E openaiApiKey moltbookApiKey config drafts w = (r, w') ->
  exists submolt rest,
    outbound w'
    = (outbound w
         ++ ToOpenAI (Poll.original_post_request openaiApiKey config submolt) :: rest)%list.
Proof.
  unfold Poll.create_original_post. intros H.
  apply bind_cases in H. destruct H as [(e & H & _)|(generated & w1 & Hgen & H)].
  - apply generateOriginalPost_asks in H. destruct H as (submolt & H & _).
    exists submolt, []. exact H.
  - apply generateOriginalPost_asks in Hgen. destruct Hgen as (submolt & Hgen & _).
    pose proof (keeps_postToMoltbook E) as Hpost.
    match type of H with
    | ?m w1 = _ => assert (keeps Lifecycle m) as Hk by keeps_lifecycle
    end.
    apply Hk in H. destruct H as (_ & (_ & rest & Hrest & _) & _).
    exists submolt, rest. rewrite Hrest, Hgen, <- app_assoc. reflexivity.
Qed.

Lemma create_original_post_Return (E : Env) (openaiApiKey moltbookApiKey : string)
    (config : AgentConfig.t) (drafts drafts' : list Draft.t) (w w' : World) :
  Poll.create_original_post E openaiApiKey moltbookApiKey config drafts w
  = (Return drafts', w') ->
  drafts' = drafts \/
  exists inserted d',
    drafts' = (drafts ++ [inserted])%list /\
    Draft.type inserted = Post /\
    Draft.status inserted = pending /\
    Draft.generation_attempt inserted = 0 /\
    post_queue w !! Draft.id inserted = None /\
    post_queue w' !! Draft.id inserted = Some d' /\
    Draft.type d' = Post.
Proof.
  unfold Poll.create_original_post. intros H.
  inv_bind H. apply generateOriginalPost_asks in Hstep.
  destruct Hstep as (_ & _ & Hq). destruct a as [[title content] submolt].
  inv_bind H. inv_step Hstep.
  inv_bind H. unfold insert_draft in Hstep. cbn [post_queue tick interact] in Hstep.
  rewrite Hq in Hstep.
  match type of Hstep with
  | context [post_queue w !! ?k] => destruct (post_queue w !! k) eqn:Hnew
  end; simplify_eq.
  { inv_step H. left. reflexivity. }
  right.
  pose proof (keeps_postToMoltbook E) as Hpost.
  match type of H with
  | ?m ?w3 = _ => assert (keeps Lifecycle m) as Hk by keeps_lifecycle
  end.
  pose proof (Hk _ _ _ H) as (_ & _ & Hrows).
  match type of H with
  | _ (set_post_queue (<[?k := ?row]> ?q) ?w3) = _ =>
      destruct (Hrows k row) as (d' & Hd' & Htype & _);
      [simpl; apply lookup_insert_eq|]
  end.
  inv_bind H. inv_step Hstep. inv_bind H. inv_step H.
  eexists. exists d'. split; [reflexivity|]. simpl.
  repeat split; assumption.
Qed.

Lemma outbound_not_extended (l : list Outbound) (o : Outbound) (rest : list Outbound) :
  l <> (l ++ o :: rest)%list.
Proof.
  intros H. apply (f_equal length) in H. rewrite length_app in H. simpl in H. lia.
Qed.

(** The cooldown step of a scheduled run asks the generator for an
    original post exactly when the cooldown is met.  When it is not met
    the step returns the drafts it was given and leaves the queue as it
    was; a draft it adds is a new pending row of type post, and is added
    only when the cooldown is met. *)
Lemma cooldown_step (E : Env) (openaiApiKey moltbookApiKey : string)
    (config : AgentConfig.t) (drafts : list Draft.t) (w w' : World)
    (r : Outcome (list Draft.t)) :
  Poll.original_post E openaiApiKey moltbookApiKey config drafts w = (r, w') ->
  let met :=
    cooldown_met (post_queue w) (Date_now E (tick w))
      (AgentConfig.post_frequency_minutes config) in
  ((exists submolt rest,
      outbound w'
      = (outbound w
           ++ ToOpenAI (Poll.original_post_request openaiApiKey config submolt)
              :: rest)%list)
   <-> met) /\
  (~ met ->
   r = Return drafts /\ post_queue w' = post_queue w /\ outbound w' = outbound w) /\
  (forall drafts', r = Return drafts' ->
     drafts' = drafts \/
     (met /\
      exists inserted d',
        drafts' = (drafts ++ [inserted])%list /\
        Draft.type inserted = Post /\
        Draft.status inserted = pending /\
        Draft.generation_attempt inserted = 0 /\
        post_queue w !! Draft.id inserted = None /\
        post_queue w' !! Draft.id inserted = Some d' /\
        Draft.type d' = Post)) /\
  (forall d, most_recent_post (post_queue w) d ->
     AgentConfig.post_frequency_minutes config = 60 ->
     Date_now E (tick w) - Draft.created_at d = 10 * 60000 ->
     r = Return drafts /\ post_queue w' = post_queue w /\ outbound w' = outbound w).
Proof.
  intros H met. rewrite original_post_unfold in H. cbv zeta in H.
  assert (outbound
            match Poll.lastPostTime (post_queue w) with
            | Some _ => interact [] w
            | None => w
            end = outbound w) as Hout0.
  { destruct (Poll.lastPostTime (post_queue w)); simpl; [apply app_nil_r|reflexivity]. }
  assert (post_queue
            match Poll.lastPostTime (post_queue w) with
            | Some _ => interact [] w
            | None => w
            end = post_queue w) as Hq0.
  { destruct (Poll.lastPostTime (post_queue w)); reflexivity. }
  assert (due (post_queue w) (Date_now E (tick w))
            (AgentConfig.post_frequency_minutes config) = false ->
          r = Return drafts /\ post_queue w' = post_queue w /\
          outbound w' = outbound w) as Hidle.
  { intros Hdue. rewrite Hdue in H. simplify_eq. auto. }
  destruct (due (post_queue w) (Date_now E (tick w))
              (AgentConfig.post_frequency_minutes config)) eqn:Hdue.
  - assert met as Hmet by (apply due_cooldown_met, Hdue).
    split; [|split; [|split]].
    + split; [intros _; exact Hmet|]. intros _.
      apply create_original_post_asks in H. rewrite Hout0 in H. exact H.
    + intros Hn. contradiction.
    + intros drafts' ->. apply create_original_post_Return in H.
      rewrite Hq0 in H. destruct H as [H|H]; [left; exact H|right; auto].
    + intros d Hd Hfreq Hago. exfalso.
      assert (Poll.lastPostTime (post_queue w) = Some (Draft.created_at d)) as Hlast
          by (apply lastPostTime_Some; eauto).
      unfold due in Hdue. rewrite Hlast, Hfreq in Hdue.
      unfold Poll.minutesSince in Hdue. rewrite Hago in Hdue. discriminate.
  - assert (~ met) as Hmet.
    { intros Hmet. apply due_cooldown_met in Hmet. congruence. }
    destruct (Hidle eq_refl) as (-> & Hq & Hout).
    split; [|split; [|split]]; auto.
    + split; [|intros Hm; contradiction].
      intros (submolt & rest & Hsent). rewrite Hout in Hsent.
      destruct (outbound_not_extended _ _ _ Hsent).
    + intros drafts' Hr. left. congruence.
Qed.

(** *** The whole run and the cooldown *)

Lemma before_cooldown (E : Env) (config : AgentConfig.t) (w w1 w2 w3 : World)
    (openaiApiKey moltbookApiKey : string)
    (posts batch postsToReply : list MoltbookPost.t) (drafts : list Draft.t) :
  Poll.fetch_posts E (AgentConfig.target_submolts config) [] w = (Return posts, w1) ->
  Poll.check_posts E openaiApiKey config batch [] w1 = (Return postsToReply, w2) ->
  Poll.reply_posts E openaiApiKey moltbookApiKey config postsToReply [] w2
  = (Return drafts, w3) ->
  Sends (fun o => is_original_post_request o = false) w w3 /\ SamePosts w w3.
Proof.
  intros Hfetch Hcheck Hreply. split.
  - eapply Sends_trans; [|eapply Sends_trans].
    + eapply sends_fetch_posts; [|exact Hfetch]. reflexivity.
    + eapply sends_check_posts; [|exact Hcheck]. reflexivity.
    + eapply sends_reply_posts; [| |exact Hreply]; reflexivity.
  - eapply SamePosts_trans; [|eapply SamePosts_trans].
    + eapply same_posts_fetch_posts, Hfetch.
    + eapply same_posts_check_posts, Hcheck.
    + eapply same_posts_reply_posts, Hreply.
Qed.

Lemma run_cooldown (E : Env) (w w' : World) (body : Poll.body)
    (config : AgentConfig.t) (sent : list Outbound) :
  Poll.serve E w = (Ok200 body, w') ->
  agent_config w = Some config ->
  outbound w' = (outbound w ++ sent)%list ->
  exists n : nat,
    (tick w <= n)%nat /\
    ((exists o, o ∈ sent /\ is_original_post_request o = true)
     <-> cooldown_met (post_queue w) (Date_now E n)
           (AgentConfig.post_frequency_minutes config)).
Proof.
  intros Hserve Hconfig Hsent. apply try_catch_Ok200, handler_phases in Hserve.
  destruct Hserve as [(_ & e & He)|(config' & Hconfig' & Hphases)]; [discriminate|].
  rewrite Hconfig in Hconfig'. injection Hconfig' as <-. cbv zeta in Hphases.
  destruct Hphases as ([posts|e] & w1 & Hfetch & Hphases);
    [|destruct Hphases; discriminate].
  destruct Hphases as ([postsToReply|e] & w2 & Hcheck & Hphases);
    [|destruct Hphases; discriminate].
  destruct Hphases as ([drafts|e] & w3 & Hreply & Hphases);
    [|destruct Hphases; discriminate].
  destruct Hphases as ([drafts'|e] & Hcreate & Hbody); [|discriminate].
  destruct (before_cooldown _ _ _ _ _ _ _ _ _ _ _ _ Hfetch Hcheck Hreply)
    as [Hquiet Hsame].
  exists (tick w3). split; [apply Hquiet|].
  rewrite (cooldown_met_SamePosts w w3 _ _ Hsame).
  destruct Hquiet as (_ & before & Hbefore & Hnone).
  rewrite Forall_forall in Hnone.
  destruct (cooldown_step E _ _ _ _ _ _ _ Hcreate)
    as (Hasks & Hidle & _ & _).
  split.
  - intros (o & Hin & Ho).
    destruct (due (post_queue w3) (Date_now E (tick w3))
                (AgentConfig.post_frequency_minutes config)) eqn:Hdue;
      [apply due_cooldown_met, Hdue|].
    exfalso. destruct Hidle as (_ & _ & Hout).
    { intros Hmet. apply due_cooldown_met in Hmet. congruence. }
    rewrite Hout, Hbefore in Hsent. apply app_inv_head in Hsent. subst sent.
    apply Hnone in Hin. congruence.
  - intros Hmet. apply Hasks in Hmet. destruct Hmet as (submolt & rest & Hout).
    rewrite Hout, Hbefore, <- app_assoc in Hsent. apply app_inv_head in Hsent.
    subst sent.
    exists (ToOpenAI
              (Poll.original_post_request (default "" (OPENAI_API_KEY w)) config
                 submolt)).
    split; [|reflexivity]. apply elem_of_app. right. left.
Qed.

(** *** The whole run and the replies *)

Lemma run_replies (E : Env) (w w' : World) (r : Outcome Poll.body) :
  Poll.handler E w = (r, w') ->
  Sends (fun o =>
           is_reply_request o = true ->
           exists p apiKey config n response,
             o = ToOpenAI (Poll.reply_request apiKey p config) /\
             openai E n (Poll.relevance_request apiKey p config) = Chat.Ok response /\
             contains_affirmative_token response) w w'.
Proof.
  intros H. apply handler_phases in H.
  set (P := fun o =>
           is_reply_request o = true ->
           exists p apiKey config n response,
             o = ToOpenAI (Poll.reply_request apiKey p config) /\
             openai E n (Poll.relevance_request apiKey p config) = Chat.Ok response /\
             contains_affirmative_token response).
  destruct H as [(-> & _)|(config & _ & Hphases)]; [apply Sends_refl|].
  cbv zeta in Hphases.
  destruct Hphases as (fetched & w1 & Hfetch & Hphases).
  assert (Sends P w w1) as H1.
  { eapply sends_fetch_posts; [|exact Hfetch]. intros submolt Hn. discriminate. }
  destruct fetched as [posts|e]; [|destruct Hphases as [_ ->]; exact H1].
  destruct Hphases as (checked & w2 & Hcheck & Hphases).
  assert (Sends P w1 w2) as H2.
  { eapply sends_check_posts; [|exact Hcheck]. intros p Hn. discriminate. }
  apply (Sends_trans P _ _ _ H1). clear H1.
  destruct checked as [postsToReply|e]; [|destruct Hphases as [_ ->]; exact H2].
  destruct Hphases as (replied & w3 & Hreply & Hphases).
  assert (Sends P w2 w3) as H3.
  { eapply sends_reply_posts; [| |exact Hreply].
    - intros request Hn. discriminate.
    - intros p Hp _.
      destruct (check_posts_answers _ _ _ _ _ _ _ _ Hcheck p Hp)
        as [Hin|(_ & n & response & Hn & Hyes)].
      + apply elem_of_nil in Hin. contradiction.
      + exists p, (default "" (OPENAI_API_KEY w)), config, n, response.
        split; [reflexivity|]. split; [exact Hn|]. apply says_yes_spec, Hyes. }
  apply (Sends_trans P _ _ _ H2). clear H2.
  destruct replied as [drafts|e]; [|destruct Hphases as [_ ->]; exact H3].
  destruct Hphases as (created & Hcreate & _).
  apply (Sends_trans P _ _ _ H3).
  eapply sends_original_post; [| |exact Hcreate].
  - intros request Hn. discriminate.
  - intros submolt Hn. discriminate.
Qed.

(** ** The fetch loop and the requests of a run *)

(** Every run of the fetch loop, in closed form. *)
Lemma fetch_posts_pages (E : Env) (submolts : list string) :
  forall (posts : list MoltbookPost.t) (w : World),
    exists r w',
      Poll.fetch_posts E submolts posts w = (r, w') /\
      post_queue w' = post_queue w /\
      activity_log w' = activity_log w /\
      seen_posts w' = seen_posts w /\
      agent_config w' = agent_config w /\
      OPENAI_API_KEY w' = OPENAI_API_KEY w /\
      match first_malformed E (tick w) submolts with
      | None =>
          r = Return (posts ++ feed_pages E (tick w) submolts)%list /\
          outbound w' = (outbound w ++ (ToFeed <$> submolts))%list /\
          tick w' = (tick w + length submolts)%nat
      | Some (k, message) =>
          r = Throw message /\
          (k < length submolts)%nat /\
          outbound w' = (outbound w ++ (ToFeed <$> take (S k) submolts))%list
      end.
Proof.
  induction submolts as [|submolt rest IH]; intros posts w; simpl.
  - exists (Return posts), w. unfold ret. rewrite !app_nil_r, Nat.add_0_r. auto 10.
  - unfold bind, fetch_feed.
    destruct (feed E (tick w) submolt) as [|page|message] eqn:Hpage.
    + destruct (IH posts (interact [ToFeed submolt] w))
        as (r & w' & Hrun & Hq & Hlog & Hseen & Hconfig & Hkey & Hr).
      exists r, w'. do 6 (split; [assumption|]).
      cbn [tick interact outbound] in Hr.
      destruct (first_malformed E (S (tick w)) rest) as [[k message]|].
      * destruct Hr as (-> & Hk & Hout). split; [reflexivity|].
        split; [simpl; lia|]. rewrite Hout, <- app_assoc. reflexivity.
      * destruct Hr as (-> & Hout & Htick). simpl.
        split; [reflexivity|]. split; [rewrite Hout, <- app_assoc; reflexivity|lia].
    + destruct (IH (posts ++ page)%list (interact [ToFeed submolt] w))
        as (r & w' & Hrun & Hq & Hlog & Hseen & Hconfig & Hkey & Hr).
      exists r, w'. do 6 (split; [assumption|]).
      cbn [tick interact outbound] in Hr.
      destruct (first_malformed E (S (tick w)) rest) as [[k message]|].
      * destruct Hr as (-> & Hk & Hout). split; [reflexivity|].
        split; [simpl; lia|]. rewrite Hout, <- app_assoc. reflexivity.
      * destruct Hr as (-> & Hout & Htick). simpl.
        split; [rewrite <- app_assoc; reflexivity|].
        split; [rewrite Hout, <- app_assoc; reflexivity|lia].
    + exists (Throw message), (interact [ToFeed submolt] w). simpl.
      do 6 (split; [reflexivity|]). split; [reflexivity|]. split; [lia|reflexivity].
Qed.

Lemma fetch_posts_Return (E : Env) (submolts : list string)
    (posts out : list MoltbookPost.t) (w w' : World) :
  Poll.fetch_posts E submolts posts w = (Return out, w') ->
  out = (posts ++ feed_pages E (tick w) submolts)%list /\
  first_malformed E (tick w) submolts = None.
Proof.
  intros H.
  destruct (fetch_posts_pages E submolts posts w) as (r & w1 & Hrun & _ & _ & _ & _ & _ & Hr).
  rewrite H in Hrun. injection Hrun as <- <-.
  destruct (first_malformed E (tick w) submolts) as [[k message]|].
  - destruct Hr as [Hr _]. discriminate.
  - destruct Hr as [Hr _]. injection Hr as ->. auto.
Qed.

Lemma Sends_no_relevance_check (w w' : World) :
  Sends (fun o => is_relevance_check o = false) w w' ->
  exists sent,
    outbound w' = (outbound w ++ sent)%list /\
    List.filter is_relevance_check sent = [].
Proof.
  intros (_ & sent & Hout & Hall). exists sent. split; [exact Hout|].
  clear Hout. induction Hall as [|o rest Ho _ IH]; [reflexivity|].
  simpl. rewrite Ho. exact IH.
Qed.

Lemma filter_relevance_checks (apiKey : string) (config : AgentConfig.t)
    (posts : list MoltbookPost.t) :
  List.filter is_relevance_check (relevance_checks apiKey config posts)
  = relevance_checks apiKey config posts.
Proof.
  unfold relevance_checks. induction posts as [|p rest IH]; [reflexivity|].
  cbn [fmap list_fmap List.filter is_relevance_check Poll.relevance_request Chat.model].
  change (String.eqb "gpt-4o-mini" "gpt-4o-mini") with true. cbv iota.
  f_equal. exact IH.
Qed.




(** ** The rows of a run before its cooldown step *)

Section Replying.
Context (E : Env) (w0 : World).

Lemma Replying_refl : Replying E w0 w0.
Proof.
  split; [lia|]. split; [auto|]. intros id d Hd. rewrite Hd. reflexivity.
Qed.

Lemma KeepsReplying_refl (w : World) : KeepsReplying E w0 w w.
Proof. intros H. exact H. Qed.

Lemma KeepsReplying_trans (a b c : World) :
  KeepsReplying E w0 a b -> KeepsReplying E w0 b c -> KeepsReplying E w0 a c.
Proof. intros Hab Hbc H. apply Hbc, Hab, H. Qed.

Lemma KeepsReplying_same (w w' : World) :
  post_queue w' = post_queue w -> (tick w <= tick w')%nat ->
  KeepsReplying E w0 w w'.
Proof.
  intros Hq Ht (Htick & Hold & Hrows). split; [lia|]. rewrite Hq.
  split; [exact Hold|]. intros id d Hd. specialize (Hrows id d Hd).
  destruct (post_queue w0 !! id); [exact Hrows|].
  destruct Hrows as (Htype & k & Hk & ->). split; [exact Htype|].
  exists k. split; [lia|reflexivity].
Qed.

Ltac same_queue H := simplify_eq; apply KeepsReplying_same; simpl; [reflexivity|lia].

Lemma replying_now : keeps (KeepsReplying E w0) (now E).
Proof. intros w r w' H. unfold now in H. same_queue H. Qed.

Lemma replying_random_index (n : nat) :
  keeps (KeepsReplying E w0) (Poll.random_index E n).
Proof. intros w r w' H. unfold Poll.random_index in H. same_queue H. Qed.

Lemma replying_log_activity (e : ActivityLogEntry.t) :
  keeps (KeepsReplying E w0) (log_activity e).
Proof. intros w r w' H. unfold log_activity in H. same_queue H. Qed.

Lemma replying_upsert_seen_post (id : string) :
  keeps (KeepsReplying E w0) (upsert_seen_post id).
Proof. intros w r w' H. unfold upsert_seen_post in H. same_queue H. Qed.

Lemma replying_fetch_publish (r : PublishRequest) :
  keeps (KeepsReplying E w0) (fetch_publish E r).
Proof. intros w o w' H. unfold fetch_publish in H. same_queue H. Qed.

Lemma replying_fetch_feed (submolt : string) :
  keeps (KeepsReplying E w0) (fetch_feed E submolt).
Proof.
  intros w o w' H. unfold fetch_feed in H.
  destruct (feed E (tick w) submolt); same_queue H.
Qed.

Lemma replying_openaiChat (r : Chat.request) :
  keeps (KeepsReplying E w0) (openaiChat E r).
Proof.
  intros w o w' H. unfold openaiChat in H.
  destruct (openai E (tick w) r); same_queue H.
Qed.

Lemma replying_update_draft (p : Patch.t) (id : string) :
  keeps (KeepsReplying E w0) (update_draft p id).
Proof.
  intros w r w' H. unfold update_draft in H. simplify_eq.
  intros (Htick & Hold & Hrows). split; [exact Htick|]. simpl. split.
  - intros id' Hin. apply Hold in Hin.
    destruct (decide (id = id')) as [<-|Hne].
    + rewrite lookup_alter_eq. destruct Hin as [d ->]. simpl. eauto.
    + rewrite lookup_alter_ne by assumption. exact Hin.
  - intros id' d' Hd'. destruct (decide (id = id')) as [<-|Hne].
    + rewrite lookup_alter_eq in Hd'.
      destruct (post_queue w !! id) as [d|] eqn:Hd; [|discriminate].
      simpl in Hd'. injection Hd' as <-. exact (Hrows id d Hd).
    + rewrite lookup_alter_ne in Hd' by assumption. exact (Hrows id' d' Hd').
Qed.

Lemma replying_insert_reply (c : Insert.t) :
  Insert.type c = Reply -> keeps (KeepsReplying E w0) (insert_draft E c).
Proof.
  intros Hreply w r w' H. unfold insert_draft in H.
  destruct (post_queue w !! gen_random_uuid E (tick w)) eqn:Hnew;
    [same_queue H|].
  simplify_eq. intros (Htick & Hold & Hrows). split; [simpl; lia|]. simpl. split.
  - intros id Hin. apply Hold in Hin.
    rewrite lookup_insert_ne; [exact Hin|]. intros <-.
    rewrite Hnew in Hin. destruct Hin. discriminate.
  - intros id d Hd. apply lookup_insert_Some in Hd.
    destruct Hd as [[<- <-]|[Hne Hd]].
    + destruct (post_queue w0 !! gen_random_uuid E (tick w)) eqn:Hold0.
      * destruct (Hold (gen_random_uuid E (tick w))) as [d Hd]; [eauto|]. congruence.
      * split; [exact Hreply|]. exists (tick w). split; [lia|reflexivity].
    + specialize (Hrows id d Hd). destruct (post_queue w0 !! id); [exact Hrows|].
      destruct Hrows as (Htype & k & Hk & ->). split; [exact Htype|].
      exists k. split; [lia|reflexivity].
Qed.

End Replying.

#[local] Hint Resolve replying_now replying_random_index replying_log_activity
  replying_upsert_seen_post replying_fetch_publish replying_fetch_feed
  replying_openaiChat replying_update_draft : keeps.

Ltac keeps_replying E w0 :=
  keeps_steps (KeepsReplying_refl E w0) (KeepsReplying_trans E w0).

Lemma replying_postToMoltbook (E : Env) (w0 : World) (queueId apiKey : string) :
  keeps (KeepsReplying E w0) (Poll.postToMoltbook E queueId apiKey).
Proof. unfold Poll.postToMoltbook, select_draft. keeps_replying E w0. Qed.

Lemma replying_fetch_posts (E : Env) (w0 : World) (submolts : list string) :
  forall posts, keeps (KeepsReplying E w0) (Poll.fetch_posts E submolts posts).
Proof.
  induction submolts as [|submolt rest IH]; intros posts; simpl; keeps_replying E w0.
Qed.

Lemma replying_check_posts (E : Env) (w0 : World) (apiKey : string)
    (config : AgentConfig.t) (batch : list MoltbookPost.t) :
  forall postsToReply,
    keeps (KeepsReplying E w0) (Poll.check_posts E apiKey config batch postsToReply).
Proof.
  induction batch as [|p rest IH]; intros postsToReply; simpl.
  - keeps_replying E w0.
  - unfold Poll.checkRelevance. keeps_replying E w0.
Qed.

Lemma replying_reply_posts (E : Env) (w0 : World) (openaiApiKey moltbookApiKey : string)
    (config : AgentConfig.t) (postsToReply : list MoltbookPost.t) :
  forall drafts,
    keeps (KeepsReplying E w0)
      (Poll.reply_posts E openaiApiKey moltbookApiKey config postsToReply drafts).
Proof.
  induction postsToReply as [|p rest IH]; intros drafts; simpl.
  - keeps_replying E w0.
  - unfold Poll.generateReply.
    pose proof (replying_postToMoltbook E w0) as Hpost.
    pose proof (fun content t =>
                  replying_insert_reply E w0 (Poll.reply_insert p content t) eq_refl)
      as Hinsert.
    keeps_replying E w0.
Qed.

(** With fresh ids, an id drawn from the cooldown step on is not in the
    queue that step starts from. *)
Lemma Replying_fresh (E : Env) (w0 w : World) (k : nat) :
  fresh_ids E w0 -> Replying E w0 w -> (tick w <= k)%nat ->
  post_queue w !! gen_random_uuid E k = None.
Proof.
  intros [Hnew Hinj] (Htick & _ & Hrows) Hk.
  destruct (post_queue w !! gen_random_uuid E k) as [d|] eqn:Hd; [|reflexivity].
  specialize (Hrows _ _ Hd). rewrite (Hnew k) in Hrows by lia.
  destruct Hrows as (_ & k' & Hk' & Heq). apply Hinj in Heq; lia.
Qed.

Lemma Replying_no_new_post (E : Env) (w0 w : World) :
  Replying E w0 w -> ~ exists id, new_post_draft w0 w id.
Proof.
  intros (_ & _ & Hrows) (id & Hnone & d' & Hd' & Htype).
  specialize (Hrows id d' Hd'). rewrite Hnone in Hrows.
  destruct Hrows as [Hreply _]. congruence.
Qed.

Lemma generateOriginalPost_cases (E : Env) (apiKey : string)
    (config : AgentConfig.t) (w : World) :
  Poll.generateOriginalPost E apiKey config w
  = let targets := AgentConfig.target_submolts config in
    let submolt := targets !! Math_random_index E (tick w) (length targets) in
    let request := Poll.original_post_request apiKey config submolt in
    let w2 := interact [ToOpenAI request] (interact [] w) in
    match openai E (S (tick w)) request with
    | Chat.Fail status body =>
        (Throw ("OpenAI API error: " +:+ pretty status +:+ " - " +:+ body), w2)
    | Chat.Ok completion =>
        match JSON_parse E completion with
        | None => (Throw "Unexpected token in JSON", w2)
        | Some ParsedNull => (Return (None, None, submolt), w2)
        | Some (ParsedValue title content) => (Return (title, content, submolt), w2)
        end
    end.
Proof.
  unfold Poll.generateOriginalPost, bind, Poll.random_index, openaiChat, ret, throw.
  cbn [tick interact].
  destruct (openai E (S (tick w)) _) as [completion|status body]; [|reflexivity].
  destruct (JSON_parse E completion) as [[|title content]|]; reflexivity.
Qed.

Lemma postToMoltbook_result (E : Env) (queueId apiKey : string) (w : World)
    (draft : Draft.t) :
  post_queue w !! queueId = Some draft ->
  fst (Poll.postToMoltbook E queueId apiKey w)
  = match Fetch.json (publish E (tick w) (Poll.publish_request apiKey draft)) with
    | Some _ => Return tt
    | None => Throw "Unexpected token in JSON"
    end.
Proof.
  intros Hd.
  unfold Poll.postToMoltbook, bind, select_draft, fetch_publish, now,
    update_draft, log_activity, ret, throw.
  rewrite Hd.
  destruct (Fetch.json _); [|reflexivity].
  destruct (Fetch.ok _); reflexivity.
Qed.

(** The insert of the generated post and what follows it. *)
Lemma insert_original_post_cases (E : Env) (moltbookApiKey : string)
    (config : AgentConfig.t) (drafts : list Draft.t)
    (title content submolt : option string) (w w' : World)
    (r : Outcome (list Draft.t)) :
  (generated_at <- now E;
   inserted <- insert_draft E
                 (Poll.original_post_insert title content submolt generated_at);
   match inserted with
   | Some inserted =>
       update_draft (Poll.root_patch (Draft.id inserted)) (Draft.id inserted);;;
       (if AgentConfig.auto_post config
        then Poll.postToMoltbook E (Draft.id inserted) moltbookApiKey
        else ret tt);;;
       ret (drafts ++ [inserted])%list
   | None => ret drafts
   end) w = (r, w') ->
  let id := gen_random_uuid E (S (tick w)) in
  let inserted :=
    row_of_insert id (Date_now E (S (tick w)))
      (Poll.original_post_insert title content submolt (Date_now E (tick w))) in
  match post_queue w !! id with
  | Some _ => r = Return drafts /\ post_queue w' = post_queue w
  | None =>
      (exists d',
         post_queue w' !! id = Some d' /\
         Draft.type d' = Post /\
         Draft.created_at d' = Date_now E (S (tick w))) /\
      r = if AgentConfig.auto_post config
          then
            match
              Fetch.json
                (publish E (S (S (tick w)))
                   (Poll.publish_request moltbookApiKey
                      (Patch.apply (Poll.root_patch id) inserted)))
            with
            | Some _ => Return (drafts ++ [inserted])%list
            | None => Throw "Unexpected token in JSON"
            end
          else Return (drafts ++ [inserted])%list
  end.
Proof.
  intros H id inserted.
  apply bind_cases in H. destruct H as [(e & H & _)|(t & w1 & Hnow & H)];
    [unfold now in H; discriminate|].
  unfold now in Hnow. injection Hnow as <- <-.
  apply bind_cases in H. unfold insert_draft in H.
  cbn [post_queue tick interact] in H. fold id in H. fold inserted in H.
  destruct (post_queue w !! id) eqn:Hnew.
  { destruct H as [(e & H & _)|(a & w1 & Hins & H)]; [discriminate|].
    injection Hins as <- <-. inv_step H. split; reflexivity. }
  destruct H as [(e & H & _)|(a & w1 & Hins & H)]; [discriminate|].
  injection Hins as <- <-. split.
  - pose proof (keeps_postToMoltbook E) as Hpost.
    match type of H with
    | ?m ?w3 = _ => assert (keeps Lifecycle m) as Hk by keeps_lifecycle
    end.
    pose proof (Hk _ _ _ H) as (_ & _ & Hrows).
    destruct (Hrows id inserted) as (d' & Hd' & Htype & Hcreated);
      [simpl; apply lookup_insert_eq|].
    exists d'. auto.
  - change (Draft.id inserted) with id in H.
    unfold bind at 1, update_draft in H. unfold bind in H.
    destruct (AgentConfig.auto_post config).
    + match type of H with
      | context [Poll.postToMoltbook E id moltbookApiKey ?w5] =>
          pose proof (postToMoltbook_result E id moltbookApiKey w5
                        (Patch.apply (Poll.root_patch id) inserted)) as Hresult;
          destruct (Poll.postToMoltbook E id moltbookApiKey w5) as [rp wp]
      end.
      simpl in Hresult. rewrite lookup_alter_eq, lookup_insert_eq in Hresult.
      specialize (Hresult eq_refl). subst rp.
      destruct (Fetch.json _); unfold ret in H; injection H as <- _; reflexivity.
    + unfold ret in H. injection H as <- _. reflexivity.
Qed.

(** The body of the cooldown test, whatever its outcome. *)
Lemma create_original_post_generates (E : Env) (openaiApiKey moltbookApiKey : string)
    (config : AgentConfig.t) (drafts : list Draft.t) (w w' : World)
    (r : Outcome (list Draft.t)) :
  Poll.create_original_post E openaiApiKey moltbookApiKey config drafts w = (r, w') ->
  generates_original_post E openaiApiKey moltbookApiKey config drafts
    (post_queue w) (tick w) r (post_queue w').
Proof.
  intros H. unfold generates_original_post. cbv zeta.
  replace (tick w + 2)%nat with (S (S (tick w))) by lia.
  replace (tick w + 3)%nat with (S (S (S (tick w)))) by lia.
  replace (tick w + 4)%nat with (S (S (S (S (tick w))))) by lia.
  unfold Poll.create_original_post in H.
  apply bind_cases in H. rewrite generateOriginalPost_cases in H. cbv zeta in H.
  destruct (openai E (S (tick w)) _) as [completion|status body].
  2: { destruct H as [(e & H & ->)|(a & w1 & H & _)]; [|discriminate].
       injection H as _ <-. split; [eauto|reflexivity]. }
  destruct (JSON_parse E completion) as [parsed|].
  2: { destruct H as [(e & H & ->)|(a & w1 & H & _)]; [|discriminate].
       injection H as _ <-. split; [eauto|reflexivity]. }
  destruct H as [(e & H & _)|(a & w1 & Hgen & H)];
    [destruct parsed; discriminate|].
  destruct parsed as [|title content]; injection Hgen as <- <-;
    apply insert_original_post_cases in H; cbv zeta in H;
    cbn [post_queue tick interact] in H;
    (destruct (post_queue w !! gen_random_uuid E (S (S (S (tick w)))));
     [exact H|]);
    destruct H as [Hrow Hr]; (split; [reflexivity|]); (split; [reflexivity|]);
    (split; [exact Hrow|exact Hr]).
Qed.

(** The whole cooldown step, once the cooldown is met. *)
Lemma cooldown_step_generates (E : Env) (openaiApiKey moltbookApiKey : string)
    (config : AgentConfig.t) (drafts : list Draft.t) (w w' : World)
    (r : Outcome (list Draft.t)) :
  Poll.original_post E openaiApiKey moltbookApiKey config drafts w = (r, w') ->
  cooldown_met (post_queue w) (Date_now E (tick w))
    (AgentConfig.post_frequency_minutes config) ->
  generates_original_post E openaiApiKey moltbookApiKey config drafts (post_queue w)
    match Poll.lastPostTime (post_queue w) with
    | Some _ => S (tick w)
    | None => tick w
    end r (post_queue w').
Proof.
  intros H Hmet. apply due_cooldown_met in Hmet.
  rewrite original_post_unfold in H. cbv zeta in H. rewrite Hmet in H.
  apply create_original_post_generates in H.
  destruct (Poll.lastPostTime (post_queue w)); exact H.
Qed.

(** *** The whole run and the original post *)

Lemma run_original_post (E : Env) (w w' : World) (r : Outcome Poll.body)
    (config : AgentConfig.t) (sent : list Outbound) :
  Poll.handler E w = (r, w') ->
  agent_config w = Some config ->
  let met := fun n : nat =>
    cooldown_met (post_queue w) (Date_now E n)
      (AgentConfig.post_frequency_minutes config) in
  ((exists id, new_post_draft w w' id) -> exists n, (tick w <= n)%nat /\ met n) /\
  (forall body, r = Return body ->
     outbound w' = (outbound w ++ sent)%list ->
     exists n : nat,
       (tick w <= n)%nat /\
       ((exists o, o ∈ sent /\ is_original_post_request o = true) <-> met n) /\
       ((exists id, new_post_draft w w' id) -> met n) /\
       (fresh_ids E w -> met n ->
        exists k : nat,
          (n <= k)%nat /\
          new_post_draft w w' (gen_random_uuid E k) /\
          (Draft.created_at <$> post_queue w' !! gen_random_uuid E k)
          = Some (Date_now E k))).
Proof.
  intros Hrun Hconfig met. apply handler_phases in Hrun.
  destruct Hrun as [(-> & e & ->)|(config' & Hconfig' & Hphases)].
  { split; [|discriminate]. intros Hnew.
    destruct (Replying_no_new_post E w w (Replying_refl E w) Hnew). }
  rewrite Hconfig in Hconfig'. injection Hconfig' as <-. cbv zeta in Hphases.
  destruct Hphases as (fetched & w1 & Hfetch & Hphases).
  pose proof (replying_fetch_posts E w _ _ _ _ _ Hfetch (Replying_refl E w)) as H1.
  destruct fetched as [posts|e].
  2: { destruct Hphases as [-> ->]. split; [|discriminate]. intros Hnew.
       destruct (Replying_no_new_post E w w1 H1 Hnew). }
  destruct Hphases as (checked & w2 & Hcheck & Hphases).
  pose proof (replying_check_posts E w _ _ _ _ _ _ _ Hcheck H1) as H2.
  destruct checked as [postsToReply|e].
  2: { destruct Hphases as [-> ->]. split; [|discriminate]. intros Hnew.
       destruct (Replying_no_new_post E w w2 H2 Hnew). }
  destruct Hphases as (replied & w3 & Hreply & Hphases).
  pose proof (replying_reply_posts E w _ _ _ _ _ _ _ _ Hreply H2) as H3.
  destruct replied as [drafts|e].
  2: { destruct Hphases as [-> ->]. split; [|discriminate]. intros Hnew.
       destruct (Replying_no_new_post E w w3 H3 Hnew). }
  destruct Hphases as (created & Hcreate & Hbody).
  destruct (before_cooldown _ _ _ _ _ _ _ _ _ _ _ _ Hfetch Hcheck Hreply)
    as [Hquiet Hsame].
  destruct (cooldown_step E _ _ _ _ _ _ _ Hcreate) as (Hasks & Hidle & _ & _).
  assert ((exists id, new_post_draft w w' id) -> met (tick w3)) as Honly.
  { intros Hnew. unfold met. rewrite (cooldown_met_SamePosts w w3 _ _ Hsame).
    destruct (due (post_queue w3) (Date_now E (tick w3))
                (AgentConfig.post_frequency_minutes config)) eqn:Hdue;
      [apply due_cooldown_met, Hdue|].
    exfalso. destruct Hidle as (_ & Hq & _).
    { intros Hmet. apply due_cooldown_met in Hmet. congruence. }
    apply (Replying_no_new_post E w w3 H3).
    destruct Hnew as (id & Hnone & d' & Hd' & Htype).
    exists id. split; [exact Hnone|]. exists d'. rewrite <- Hq. auto. }
  assert (tick w <= tick w3)%nat as Htick by apply Hquiet.
  split; [intros Hnew; exists (tick w3); auto|].
  intros body -> Hsent. destruct created as [drafts'|e]; [|discriminate].
  exists (tick w3). split; [exact Htick|].
  split; [|split; [exact Honly|]].
  - unfold met. rewrite (cooldown_met_SamePosts w w3 _ _ Hsame).
    destruct Hquiet as (_ & before & Hbefore & Hnone).
    rewrite Forall_forall in Hnone.
    split.
    + intros (o & Hin & Ho).
      destruct (due (post_queue w3) (Date_now E (tick w3))
                  (AgentConfig.post_frequency_minutes config)) eqn:Hdue;
        [apply due_cooldown_met, Hdue|].
      exfalso. destruct Hidle as (_ & _ & Hout).
      { intros Hmet. apply due_cooldown_met in Hmet. congruence. }
      rewrite Hout, Hbefore in Hsent. apply app_inv_head in Hsent. subst sent.
      apply Hnone in Hin. congruence.
    + intros Hmet. apply Hasks in Hmet. destruct Hmet as (submolt & rest & Hout).
      rewrite Hout, Hbefore, <- app_assoc in Hsent. apply app_inv_head in Hsent.
      subst sent.
      exists (ToOpenAI
                (Poll.original_post_request (default "" (OPENAI_API_KEY w)) config
                   submolt)).
      split; [|reflexivity]. apply elem_of_app. right. left.
  - intros Hfresh Hmet. unfold met in Hmet.
    rewrite (cooldown_met_SamePosts w w3 _ _ Hsame) in Hmet.
    apply (cooldown_step_generates E _ _ _ _ _ _ _ Hcreate) in Hmet.
    set (t := match Poll.lastPostTime (post_queue w3) with
              | Some _ => S (tick w3)
              | None => tick w3
              end) in Hmet.
    assert (tick w3 <= t)%nat as Ht
        by (unfold t; destruct (Poll.lastPostTime (post_queue w3)); lia).
    unfold generates_original_post in Hmet. cbv zeta in Hmet.
    destruct (openai E (S t) _) as [completion|status message];
      [|destruct Hmet as [[e He] _]; discriminate].
    destruct (JSON_parse E completion) as [parsed|];
      [|destruct Hmet as [[e He] _]; discriminate].
    rewrite (Replying_fresh E w w3 (t + 3) Hfresh H3) in Hmet by lia.
    destruct Hmet as (_ & _ & (d' & Hd' & Htype & Hcreated) & _).
    exists (t + 3)%nat. split; [lia|]. split.
    + split; [apply Hfresh; lia|]. exists d'. auto.
    + rewrite Hd'. simpl. rewrite Hcreated. reflexivity.
Qed.

(** The ids of the concrete worlds are fresh. *)
Lemma scenario_fresh_ids (publish_answer : Fetch.response) (relevance : Chat.response)
    (w : World) :
  (forall k : nat, post_queue w !! ("draft-" +:+ pretty k) = None) ->
  fresh_ids (Scenario.env publish_answer relevance) w.
Proof.
  intros Hnone. split.
  - intros k _. apply Hnone.
  - intros k k' _ _ Heq. simpl in Heq.
    apply (inj (String.app "draft-")) in Heq. apply (inj pretty) in Heq. exact Heq.
Qed.

(** ** The claims on the seen-post ledger and on relevance *)



(** C10. The relevance filter answers true exactly when the response of
    the text-generation collaborator contains the word yes, in any mix of
    cases; every other response gives false.  Whenever the collaborator
    answers with a response, the filter returns: true when the response
    contains the token and false when it does not, having sent the one
    relevance request; and the loop over the posts goes on with the post
    added to the posts to reply to in the first case and left out in the
    second, the post being marked seen in both.  So a post enters the
    list of posts to reply to only when a response to its relevance check
    contained that token, and every request for a reply that a run sends,
    however the run ends, is for such a post. *)
Theorem relevance_is_affirmative_token (E : Env) :
  (forall response,
     Poll.says_yes response = true <-> contains_affirmative_token response) /\
  (forall apiKey p config w b w',
     Poll.checkRelevance E apiKey p config w = (Return b, w') ->
     exists response,
       openai E (tick w) (Poll.relevance_request apiKey p config) = Chat.Ok response /\
       (b = true <-> contains_affirmative_token response) /\
       (~ contains_affirmative_token response -> b = false)) /\
  (forall apiKey config batch postsToReply w out w',
     Poll.check_posts E apiKey config batch postsToReply w = (Return out, w') ->
     forall p, p ∈ out ->
       p ∈ postsToReply \/
       (p ∈ batch /\
        exists n response,
          openai E n (Poll.relevance_request apiKey p config) = Chat.Ok response /\
          contains_affirmative_token response)) /\
  (forall w r w' sent,
     Poll.serve E w = (r, w') ->
     outbound w' = (outbound w ++ sent)%list ->
     forall o, o ∈ sent -> is_reply_request o = true ->
       exists p apiKey config n response,
         o = ToOpenAI (Poll.reply_request apiKey p config) /\
         openai E n (Poll.relevance_request apiKey p config) = Chat.Ok response /\
         contains_affirmative_token response) /\
  (forall apiKey p config w response,
     openai E (tick w) (Poll.relevance_request apiKey p config) = Chat.Ok response ->
     let w1 := interact [ToOpenAI (Poll.relevance_request apiKey p config)] w in
     (contains_affirmative_token response ->
      Poll.checkRelevance E apiKey p config w = (Return true, w1)) /\
     (~ contains_affirmative_token response ->
      Poll.checkRelevance E apiKey p config w = (Return false, w1))) /\
  (forall apiKey config p rest postsToReply w response,
     openai E (tick w) (Poll.relevance_request apiKey p config) = Chat.Ok response ->
     let w1 :=
       set_seen_posts ({[ MoltbookPost.id p ]} ∪ seen_posts w)
         (interact [ToOpenAI (Poll.relevance_request apiKey p config)] w) in
     (contains_affirmative_token response ->
      Poll.check_posts E apiKey config (p :: rest) postsToReply w
      = Poll.check_posts E apiKey config rest (postsToReply ++ [p])%list w1) /\
     (~ contains_affirmative_token response ->
      Poll.check_posts E apiKey config (p :: rest) postsToReply w
      = Poll.check_posts E apiKey config rest postsToReply w1)).
Proof.
  assert (forall response,
            (contains_affirmative_token response -> Poll.says_yes response = true) /\
            (~ contains_affirmative_token response -> Poll.says_yes response = false))
    as Hfilter.
  { intros response. split; [apply says_yes_spec|].
    intros Hn. destruct (Poll.says_yes response) eqn:Hsays; [|reflexivity].
    destruct Hn. apply says_yes_spec, Hsays. }
  split; [apply says_yes_spec|]. split; [|split; [|split; [|split]]].
  - intros apiKey p config w b w' H.
    unfold Poll.checkRelevance, bind, openaiChat, ret in H.
    destruct (openai E (tick w) _) as [response|status body]; [|discriminate].
    simplify_eq. exists response. split; [reflexivity|].
    split; [apply says_yes_spec|].
    intros Hn. destruct (Poll.says_yes response) eqn:Hyes; [|reflexivity].
    destruct Hn. apply says_yes_spec, Hyes.
  - intros apiKey config batch postsToReply w out w' H p Hp.
    destruct (check_posts_answers _ _ _ _ _ _ _ _ H p Hp)
      as [Hin|(Hin & n & response & Hn & Hyes)]; [left; exact Hin|].
    right. split; [exact Hin|]. exists n, response.
    split; [exact Hn|]. apply says_yes_spec, Hyes.
  - intros w r w' sent H Hsent o Hin Hreply.
    assert (exists r0, Poll.handler E w = (r0, w')) as [r0 Hr0].
    { unfold Poll.serve, try_catch in H.
      destruct (Poll.handler E w) as [[b|e] w1]; simplify_eq; eauto. }
    apply run_replies in Hr0.
    exact (Sends_elem _ _ _ _ Hr0 Hsent o Hin Hreply).
  - intros apiKey p config w response Hanswer w1.
    unfold Poll.checkRelevance, bind, openaiChat, ret. rewrite Hanswer.
    split; intros Hc; apply Hfilter in Hc; rewrite Hc; reflexivity.
  - intros apiKey config p rest postsToReply w response Hanswer w1.
    rewrite check_posts_step, Hanswer.
    split; intros Hc; apply Hfilter in Hc; rewrite Hc; reflexivity.
Qed.

(** C9. A scheduled run generates an original draft, of type post,
    exactly when the cooldown is met: when, on the clock the run reads at
    that step, the minutes elapsed since the creation of the most recent
    draft of type post in the queue meet or exceed the configured
    cooldown, the elapsed time counting as infinite when there is no such
    draft.  For a run that answers 200: the generator is asked for an
    original post exactly when the cooldown is met; a draft of type post
    that was not in the queue before is there afterwards only if it is
    met; and, the store drawing fresh ids, if it is met such a draft is
    there afterwards, created at the time of its insert.  Whatever the run
    answers, it leaves a new draft of type post only if the cooldown was
    met.  At the cooldown step itself: the generator is asked exactly when
    the cooldown is met; when it is not met the step returns the drafts it
    was given and leaves the queue as it was; when it is met the step
    fails before any write if the generator fails or does not answer in
    JSON, and otherwise inserts a pending draft of type post and returns
    it after the drafts it was given, unless the id drawn is taken (no
    draft then) or, auto-post being on, the body of the publish answer
    cannot be read (the step throws, the draft is in the queue); and with
    a cooldown of 60 minutes and the most recent post draft created 10
    minutes before, nothing is generated. *)
Theorem original_post_iff_cooldown (E : Env) :
  (forall w body w' config sent,
     Poll.serve E w = (Ok200 body, w') ->
     agent_config w = Some config ->
     outbound w' = (outbound w ++ sent)%list ->
     exists n : nat,
       (tick w <= n)%nat /\
       let met :=
         cooldown_met (post_queue w) (Date_now E n)
           (AgentConfig.post_frequency_minutes config) in
       ((exists o, o ∈ sent /\ is_original_post_request o = true) <-> met) /\
       ((exists id, new_post_draft w w' id) -> met) /\
       (fresh_ids E w -> met ->
        exists k : nat,
          (n <= k)%nat /\
          new_post_draft w w' (gen_random_uuid E k) /\
          (Draft.created_at <$> post_queue w' !! gen_random_uuid E k)
          = Some (Date_now E k))) /\
  (forall w r w' config,
     Poll.serve E w = (r, w') ->
     agent_config w = Some config ->
     (exists id, new_post_draft w w' id) ->
     exists n : nat,
       (tick w <= n)%nat /\
       cooldown_met (post_queue w) (Date_now E n)
         (AgentConfig.post_frequency_minutes config)) /\
  (forall openaiApiKey moltbookApiKey config drafts w r w',
     Poll.original_post E openaiApiKey moltbookApiKey config drafts w = (r, w') ->
     let met :=
       cooldown_met (post_queue w) (Date_now E (tick w))
         (AgentConfig.post_frequency_minutes config) in
     ((exists submolt rest,
         outbound w'
         = (outbound w
              ++ ToOpenAI (Poll.original_post_request openaiApiKey config submolt)
                 :: rest)%list)
      <-> met) /\
     (~ met ->
      r = Return drafts /\ post_queue w' = post_queue w /\ outbound w' = outbound w) /\
     (met ->
      generates_original_post E openaiApiKey moltbookApiKey config drafts
        (post_queue w)
        match Poll.lastPostTime (post_queue w) with
        | Some _ => S (tick w)
        | None => tick w
        end r (post_queue w')) /\
     (forall drafts', r = Return drafts' ->
        drafts' = drafts \/
        (met /\
         exists inserted d',
           drafts' = (drafts ++ [inserted])%list /\
           Draft.type inserted = Post /\
           Draft.status inserted = pending /\
           Draft.generation_attempt inserted = 0 /\
           post_queue w !! Draft.id inserted = None /\
           post_queue w' !! Draft.id inserted = Some d' /\
           Draft.type d' = Post)) /\
     (forall d, most_recent_post (post_queue w) d ->
        AgentConfig.post_frequency_minutes config = 60 ->
        Date_now E (tick w) - Draft.created_at d = 10 * 60000 ->
        r = Return drafts /\ post_queue w' = post_queue w /\ outbound w' = outbound w)).
Proof.
  split; [|split].
  - intros w body w' config sent Hserve Hconfig Hsent.
    apply try_catch_Ok200 in Hserve.
    destruct (run_original_post E w w' _ config sent Hserve Hconfig) as [_ Hrun].
    exact (Hrun body eq_refl Hsent).
  - intros w r w' config H Hconfig Hnew.
    assert (exists r0, Poll.handler E w = (r0, w')) as [r0 Hr0].
    { unfold Poll.serve, try_catch in H.
      destruct (Poll.handler E w) as [[b|e] w1]; simplify_eq; eauto. }
    destruct (run_original_post E w w' r0 config [] Hr0 Hconfig) as [Honly _].
    exact (Honly Hnew).
  - intros openaiApiKey moltbookApiKey config drafts w r w' H met.
    destruct (cooldown_step E _ _ _ _ _ _ _ H) as (Hasks & Hidle & Hreturn & Hscenario).
    split; [exact Hasks|]. split; [exact Hidle|].
    split; [apply (cooldown_step_generates E _ _ _ _ _ _ _ H)|].
    split; [exact Hreturn|exact Hscenario].
Qed.

(** ** Publishing from the scheduled run *)

(** What [postToMoltbook] does with an answer whose body parses: it
    records the publication when the answer is ok, and otherwise returns
    normally with the draft untouched. *)
Lemma postToMoltbook_answer (E : Env) (queueId apiKey : string) (w : World)
    (draft : Draft.t) (moltbookId : option string) :
  post_queue w !! queueId = Some draft ->
  let request := Poll.publish_request apiKey draft in
  let response := publish E (tick w) request in
  Fetch.json response = Some moltbookId ->
  Poll.postToMoltbook E queueId apiKey w
  = if Fetch.ok response
    then (Return tt,
          set_activity_log
            (activity_log w ++
               [{| ActivityLogEntry.action := "posted";
                   ActivityLogEntry.post_queue_id := queueId;
                   ActivityLogEntry.details := PostedDetails moltbookId |}])%list
            (set_post_queue
               (alter
                  (Patch.apply
                     (Poll.posted_patch draft moltbookId (Date_now E (S (tick w)))))
                  queueId (post_queue w))
               (interact [] (interact [ToPublish request] w))))
    else (Return tt, interact [ToPublish request] w).
Proof.
  intros Hd request response Hjson.
  unfold Poll.postToMoltbook, bind, select_draft, fetch_publish, now,
    update_draft, log_activity, ret.
  rewrite Hd. fold request. fold response. rewrite Hjson.
  destruct (Fetch.ok response); reflexivity.
Qed.

(** C5, at the failing input.  Auto-post is on, the feed has one new
    relevant post, and the publish call is refused with status 500 and a
    JSON error body.  The run answers 200 with one draft created: the
    refusal reaches nobody, and the draft stays pending without a remote
    id. *)
Theorem auto_post_failure_is_swallowed :
  let E := Scenario.env Scenario.refused (Chat.Ok "yes") in
  let w := Scenario.recent_post true in
  let w' := snd (Poll.serve E w) in
  fst (Poll.serve E w)
  = Ok200 {| Poll.posts_checked := 1;
             Poll.drafts_created := 1;
             Poll.auto_posted := true |} /\
  last (outbound w')
  = Some (ToPublish
            (CreateComment (Some "moltbook-key") (Some "p1") (Some "A thought."))) /\
  (Draft.status <$> post_queue w' !! "draft-4") = Some pending /\
  (Draft.moltbook_comment_id <$> post_queue w' !! "draft-4") = Some None /\
  activity_log w'
  = [{| ActivityLogEntry.action := "generated";
        ActivityLogEntry.post_queue_id := "draft-4";
        ActivityLogEntry.details := GeneratedDetails "reply" "p1" |}].
Proof. vm_compute. repeat split. Qed.

(** ** The theorems at concrete worlds *)

(** Scenario 5 of the specification, and a decision repeated after a
    successful reject. *)
Lemma decision_guards_witness :
  let E := Scenario.env Scenario.published (Chat.Ok "yes") in
  (exists message,
     Decision.serve E (Scenario.decide "reject" None) (Scenario.one_draft approved)
     = (Error500 message, Scenario.one_draft approved)) /\
  (exists s, s <> pending /\
     let w1 :=
       snd (Decision.serve E (Scenario.decide "reject" None)
              (Scenario.one_draft pending)) in
     Decision.serve E (Scenario.decide "approve" None) w1
     = (Error500 (Decision.already_processed s), w1)).
Proof.
  intros E. split.
  - apply (proj1 (decision_guards E (Scenario.decide "reject" None)
                    (Scenario.one_draft approved))).
    right. right.
    exists (Scenario.draft "d1" Reply approved (Scenario.clock0 - 60 * 60000)).
    split; [vm_compute; reflexivity|]. simpl. discriminate.
  - cbv zeta.
    set (w1 := snd (Decision.serve E (Scenario.decide "reject" None)
                      (Scenario.one_draft pending))).
    assert (Decision.serve E (Scenario.decide "reject" None)
              (Scenario.one_draft pending) = (Ok200 Decision.Rejected, w1)) as Hfirst.
    { subst w1. vm_compute. reflexivity. }
    apply (proj2 (decision_guards E (Scenario.decide "reject" None)
                    (Scenario.one_draft pending))
             Decision.Rejected w1 Hfirst E (Scenario.decide "approve" None));
      reflexivity.
Defined.

(** An approve decision whose publish call is refused. *)
Lemma publish_failure_commits_nothing_witness :
  let E := Scenario.env Scenario.refused (Chat.Ok "yes") in
  let w := Scenario.one_draft pending in
  exists w',
    Decision.serve E (Scenario.decide "approve" None) w
    = (Error500 "Moltbook API error: 500 - { error: unavailable }", w') /\
    post_queue w' = post_queue w /\
    (Draft.status <$> post_queue w' !! "d1") = Some pending.
Proof.
  intros E w.
  destruct (publish_failure_commits_nothing E (Scenario.decide "approve" None) w
              "d1" (Scenario.draft "d1" Reply pending (Scenario.clock0 - 60 * 60000)))
    as (w' & Hserve & Hq & _ & Hd).
  - reflexivity.
  - discriminate.
  - left. reflexivity.
  - vm_compute. reflexivity.
  - reflexivity.
  - reflexivity.
  - exists w'. split; [exact Hserve|]. split; [exact Hq|].
    rewrite Hd. reflexivity.
Defined.

(** A rejected draft regenerated: its status is overwritten. *)
Lemma regeneration_supersedes_any_status_witness :
  let E := Scenario.env Scenario.published (Chat.Ok "yes") in
  let w := Scenario.one_draft rejected in
  (Draft.status <$> post_queue w !! "d1") = Some rejected /\
  (Draft.status <$> post_queue (snd (Regenerate.serve E Scenario.regenerate w)) !! "d1")
  = Some superseded.
Proof.
  intros E w. split; [vm_compute; reflexivity|].
  destruct (Regenerate.serve E Scenario.regenerate w) as [r w'] eqn:Hserve.
  assert (exists newDraft, r = Ok200 newDraft) as [newDraft ->].
  { apply (f_equal fst) in Hserve. vm_compute in Hserve. subst r. eauto. }
  destruct (regeneration_supersedes_any_status E Scenario.regenerate w w' newDraft
              Hserve) as (id & d & Hid & _ & _ & Hstatus & _).
  injection Hid as <-. exact Hstatus.
Defined.

(** The code against claim C3: a rejected draft, a terminal status, is
    regenerated from; the mark-superseded step is not skipped, and the
    rejected status is overwritten with superseded. *)
Lemma regenerate_overwrites_rejected :
  let E := Scenario.env Scenario.published (Chat.Ok "yes") in
  let w := Scenario.one_draft rejected in
  let after := Regenerate.serve E Scenario.regenerate w in
  (Draft.status <$> post_queue w !! "d1") = Some rejected /\
  (exists newDraft, fst after = Ok200 newDraft) /\
  (Draft.status <$> post_queue (snd after) !! "d1") = Some superseded /\
  (Draft.status <$> post_queue (snd after) !! "d1") <> Some rejected.
Proof.
  vm_compute. split; [reflexivity|]. split; [eauto|].
  split; [reflexivity|discriminate].
Qed.

(** Scenario 3 of the specification. *)
Lemma regeneration_lineage_witness :
  let E := Scenario.env Scenario.published (Chat.Ok "yes") in
  let w := Scenario.one_draft pending in
  exists newDraft w',
    Regenerate.serve E Scenario.regenerate w = (Ok200 newDraft, w') /\
    Draft.generation_attempt newDraft = 1 /\
    Draft.root_draft_id newDraft = Some "d1" /\
    (Draft.status <$> post_queue w' !! "d1") = Some superseded /\
    last (activity_log w')
    = Some {| ActivityLogEntry.action := "regenerated";
              ActivityLogEntry.post_queue_id := Draft.id newDraft;
              ActivityLogEntry.details :=
                RegeneratedDetails "d1" 1 (Some "too formal") |}.
Proof.
  intros E w.
  destruct (Regenerate.serve E Scenario.regenerate w) as [r w'] eqn:Hserve.
  assert (exists newDraft, r = Ok200 newDraft) as [newDraft ->].
  { apply (f_equal fst) in Hserve. vm_compute in Hserve. subst r. eauto. }
  exists newDraft, w'. split; [reflexivity|].
  destruct (regeneration_lineage E Scenario.regenerate w w' newDraft Hserve)
    as (id & d & d' & Hid & Hd & Hattempt & Hroot & _ & _ & _ & _ & _ & _ & _ & _
        & _ & Hd' & Hstatus & Hlog).
  injection Hid as <-.
  vm_compute in Hd. injection Hd as <-.
  split; [exact Hattempt|].
  split; [apply Hroot; [reflexivity|discriminate]|].
  split; [rewrite Hd'; simpl; f_equal; exact Hstatus|].
  rewrite Hlog. simpl. reflexivity.
Defined.



(** The code against claim C7: an approve decision that carries an edited
    content is recorded as edited, not as approved. *)
Lemma approve_with_edits_is_edited :
  let E := Scenario.env Scenario.published (Chat.Ok "yes") in
  let request := Scenario.decide "approve" (Some "Edited text") in
  let after := Decision.serve E request (Scenario.one_draft pending) in
  Decision.action request = Some "approve" /\
  fst after
  = Ok200 (Decision.Published "edited" (Some "m1")
             "https://www.moltbook.com/m/general/p0#m1") /\
  (Draft.status <$> post_queue (snd after) !! "d1") = Some edited /\
  (Draft.status <$> post_queue (snd after) !! "d1") <> Some approved.
Proof.
  vm_compute. split; [reflexivity|]. split; [reflexivity|].
  split; [reflexivity|discriminate].
Qed.

(** An edit decision with a replacement content. *)
Lemma decision_publish_effects_witness :
  let E := Scenario.env Scenario.published (Chat.Ok "yes") in
  let request := Scenario.decide "edit" (Some "Edited text") in
  let w := Scenario.one_draft pending in
  exists d' w1,
    snd (Decision.serve E request w) = w1 /\
    post_queue w1 !! "d1" = Some d' /\
    Draft.status d' = edited /\
    Draft.final_content d' = Some "Edited text" /\
    Draft.moltbook_comment_id d' = Some "m1".
Proof.
  intros E request w.
  destruct (Decision.serve E request w) as [r w1] eqn:Hserve.
  assert (exists b, r = Ok200 b) as [b ->].
  { apply (f_equal fst) in Hserve. vm_compute in Hserve. subst r. eauto. }
  destruct (decision_publish_effects E request w w1 b Hserve)
    as (id & d & d' & moltbookId & Hid & Hd & _ & (_ & _ & _ & Hjson) & Hd' & _
        & _ & _ & _ & _ & Hremote & Hb & Hedited & _); [discriminate|].
  injection Hid as <-.
  vm_compute in Hd. injection Hd as <-.
  assert (moltbookId = Some "m1") as -> by (injection Hjson as <-; reflexivity).
  exists d', w1. split; [reflexivity|]. split; [exact Hd'|].
  destruct (Hedited eq_refl) as [Hstatus Hfinal].
  split; [exact Hstatus|]. split; [exact Hfinal|].
  exact (Hremote "m1" eq_refl).
Defined.

(** A reject decision with no platform credential configured. *)
Lemma reject_effects_witness :
  let E := Scenario.env Scenario.refused (Chat.Ok "yes") in
  let w :=
    {| post_queue := post_queue (Scenario.one_draft pending);
       activity_log := [];
       seen_posts := ∅;
       agent_config := None;
       OPENAI_API_KEY := None;
       outbound := [];
       tick := 0 |} in
  exists w1,
    Decision.serve E (Scenario.decide "reject" None) w
    = (Ok200 Decision.Rejected, w1) /\
    (Draft.status <$> post_queue w1 !! "d1") = Some rejected /\
    (Draft.decided_at <$> post_queue w1 !! "d1") = Some (Some Scenario.clock0) /\
    outbound w1 = [].
Proof.
  intros E w.
  destruct (reject_effects E (Scenario.decide "reject" None) w "d1"
              (Scenario.draft "d1" Reply pending (Scenario.clock0 - 60 * 60000)))
    as (w1 & Hserve & Hd & _ & _ & Hout & _).
  - reflexivity.
  - discriminate.
  - reflexivity.
  - vm_compute. reflexivity.
  - reflexivity.
  - exists w1. split; [exact Hserve|]. rewrite Hd. simpl.
    split; [reflexivity|]. split; [|exact Hout].
    unfold Scenario.env, Scenario.clock0. simpl. reflexivity.
Defined.

(** Scenario 4 of the specification: a cooldown of 60 minutes, the last
    post drafted 10 minutes ago; then a whole run on the same world.  And
    a run two hours after the last post: it answers 200 with one draft
    created, and leaves the new draft draft-6, of type post, created at
    the time of its insert; the cooldown step alone, on that world,
    returns one draft. *)
Lemma original_post_iff_cooldown_witness :
  let E := Scenario.env Scenario.published (Chat.Ok "no") in
  let w := Scenario.recent_post false in
  let after :=
    Poll.original_post E "openai-key" "moltbook-key" (Scenario.config false) [] w in
  let late := Cases.old_post in
  let run := Poll.serve E late in
  let step :=
    Poll.original_post E "openai-key" "moltbook-key" (Scenario.config false) [] late in
  (fst after = Return [] /\
   post_queue (snd after) = post_queue w /\
   outbound (snd after) = outbound w) /\
  (exists n : nat,
     (exists o, o ∈ outbound (snd (Poll.serve E w)) /\ is_original_post_request o = true)
     <-> cooldown_met (post_queue w) (Date_now E n) 60) /\
  (fst run = Ok200 {| Poll.posts_checked := 1;
                      Poll.drafts_created := 1;
                      Poll.auto_posted := false |} /\
   (exists n : nat, cooldown_met (post_queue late) (Date_now E n) 60) /\
   (exists k : nat,
      new_post_draft late (snd run) (gen_random_uuid E k) /\
      (Draft.created_at <$> post_queue (snd run) !! gen_random_uuid E k)
      = Some (Date_now E k)) /\
   (Draft.type <$> post_queue (snd run) !! "draft-6") = Some Post /\
   (Draft.created_at <$> post_queue (snd run) !! "draft-6")
   = Some (Date_now E 6)) /\
  (generates_original_post E "openai-key" "moltbook-key" (Scenario.config false) []
     (post_queue late) 1 (fst step) (post_queue (snd step)) /\
   (length <$> match fst step with Return drafts => Some drafts | Throw _ => None end)
   = Some 1%nat /\
   (Draft.type <$> post_queue (snd step) !! "draft-4") = Some Post).
Proof.
  intros E w after late run step.
  destruct (original_post_iff_cooldown E) as (Hrun & Hany & Hstep).
  split; [|split; [|split]].
  - destruct (Hstep "openai-key" "moltbook-key" (Scenario.config false) [] w
                (fst after) (snd after))
      as (_ & _ & _ & _ & Hscenario); [symmetry; apply surjective_pairing|].
    apply (Hscenario
             (Scenario.draft "d0" Post approved (Scenario.clock0 - 10 * 60000))).
    + split; [exists "d0"; vm_compute; reflexivity|]. split; [reflexivity|].
      intros id' d' Hd' _.
      change (post_queue w)
        with (<["d0" := Scenario.draft "d0" Post approved
                          (Scenario.clock0 - 10 * 60000)]>
                (∅ : gmap string Draft.t)) in Hd'.
      apply lookup_insert_Some in Hd'.
      destruct Hd' as [[_ <-]|[_ Hd']]; [reflexivity|].
      rewrite lookup_empty in Hd'. discriminate.
    + reflexivity.
    + vm_compute. reflexivity.
  - destruct (Hrun w
                {| Poll.posts_checked := 1;
                   Poll.drafts_created := 0;
                   Poll.auto_posted := false |}
                (snd (Poll.serve E w)) (Scenario.config false)
                (outbound (snd (Poll.serve E w))))
      as (n & _ & Hiff & _).
    + vm_compute. reflexivity.
    + reflexivity.
    + reflexivity.
    + exists n. exact Hiff.
  - assert (fst run = Ok200 {| Poll.posts_checked := 1;
                               Poll.drafts_created := 1;
                               Poll.auto_posted := false |}) as Hanswer
        by (vm_compute; reflexivity).
    split; [exact Hanswer|].
    destruct (Hrun late
                {| Poll.posts_checked := 1;
                   Poll.drafts_created := 1;
                   Poll.auto_posted := false |}
                (snd run) (Scenario.config false) (outbound (snd run)))
      as (n & _ & Hiff & _ & Hnew).
    + rewrite <- Hanswer. apply surjective_pairing.
    + reflexivity.
    + reflexivity.
    + assert (cooldown_met (post_queue late) (Date_now E n)
                (AgentConfig.post_frequency_minutes (Scenario.config false))) as Hmet.
      { apply Hiff.
        exists (ToOpenAI
                  (Poll.original_post_request "openai-key" (Scenario.config false)
                     (Some "general"))).
        split; [|reflexivity].
        assert (outbound (snd run)
                = [ToFeed "general";
                   ToOpenAI (Poll.relevance_request "openai-key" Scenario.feed_post
                               (Scenario.config false));
                   ToOpenAI (Poll.original_post_request "openai-key"
                               (Scenario.config false) (Some "general"))]) as ->
            by (vm_compute; reflexivity).
        right. right. left. }
      split; [exists n; exact Hmet|].
      split; [|split; vm_compute; reflexivity].
      destruct Hnew as (k & _ & Hk); [|exact Hmet|exists k; exact Hk].
      apply scenario_fresh_ids. intros k.
      change (post_queue late)
        with (<["d0" := Scenario.draft "d0" Post approved
                          (Scenario.clock0 - 120 * 60000)]>
                (∅ : gmap string Draft.t)).
      rewrite lookup_insert_ne; [apply lookup_empty|].
      change ("draft-" +:+ pretty k) with (String "d" (String "r" ("aft-" +:+ pretty k))).
      discriminate.
  - split; [|split; vm_compute; reflexivity].
    destruct (Hstep "openai-key" "moltbook-key" (Scenario.config false) [] late
                (fst step) (snd step))
      as (_ & _ & Hgenerates & _); [symmetry; apply surjective_pairing|].
    apply Hgenerates. apply due_cooldown_met. vm_compute. reflexivity.
Defined.

(** Three responses: one affirmative, one in capitals inside a sentence,
    one that is not an answer.  The filter on the post of the feed returns
    true when the check is answered "Yes, it is." and false when it is
    answered "Not really."; a run whose relevance check is answered no
    asks for no reply, and a run whose check is answered yes asks for
    one. *)
Lemma relevance_is_affirmative_token_witness :
  let E := Scenario.env Scenario.published (Chat.Ok "no") in
  let w := Scenario.recent_post false in
  let agreeing := Scenario.env Scenario.published (Chat.Ok "Yes, it is.") in
  let declining := Scenario.env Scenario.published (Chat.Ok "Not really.") in
  (contains_affirmative_token "yes" /\
   contains_affirmative_token "I would say YES." /\
   ~ contains_affirmative_token "probably" /\
   ~ contains_affirmative_token "") /\
  fst (Poll.checkRelevance agreeing "openai-key" Scenario.feed_post
         (Scenario.config false) w) = Return true /\
  fst (Poll.checkRelevance declining "openai-key" Scenario.feed_post
         (Scenario.config false) w) = Return false /\
  (forall o, o ∈ outbound (snd (Poll.serve E w)) -> is_reply_request o = false) /\
  List.filter is_reply_request (outbound (snd (Poll.serve agreeing w)))
  = [ToOpenAI (Poll.reply_request "openai-key" Scenario.feed_post
                 (Scenario.config false))].
Proof.
  intros E w agreeing declining.
  destruct (relevance_is_affirmative_token E) as (Hspec & _ & _ & Hrun & _ & _).
  split; [|split; [|split; [|split]]].
  - split; [apply Hspec; vm_compute; reflexivity|].
    split; [apply Hspec; vm_compute; reflexivity|].
    split; intros Hyes; apply Hspec in Hyes; vm_compute in Hyes; discriminate.
  - destruct (relevance_is_affirmative_token agreeing)
      as (Hsays & _ & _ & _ & Hfilter & _).
    destruct (Hfilter "openai-key" Scenario.feed_post (Scenario.config false) w
                "Yes, it is." eq_refl) as [Htrue _].
    rewrite Htrue; [reflexivity|]. apply Hsays. vm_compute. reflexivity.
  - destruct (relevance_is_affirmative_token declining)
      as (Hsays & _ & _ & _ & Hfilter & _).
    destruct (Hfilter "openai-key" Scenario.feed_post (Scenario.config false) w
                "Not really." eq_refl) as [_ Hfalse].
    rewrite Hfalse; [reflexivity|].
    intros Hyes. apply Hsays in Hyes. vm_compute in Hyes. discriminate.
  - intros o Hin. destruct (is_reply_request o) eqn:Hreply; [|reflexivity].
    destruct (Hrun w (fst (Poll.serve E w)) (snd (Poll.serve E w))
                (outbound (snd (Poll.serve E w))))
      with (o := o)
      as (p & apiKey & config & n & response & _ & Hanswer & Hyes).
    + apply surjective_pairing.
    + reflexivity.
    + exact Hin.
    + exact Hreply.
    + exfalso. unfold E, Scenario.env in Hanswer. simpl in Hanswer.
      injection Hanswer as <-. apply Hspec in Hyes. vm_compute in Hyes.
      discriminate.
  - vm_compute. reflexivity.
Defined.

(** * Further properties *)

(** ** The decision entry point *)

(** X1. A decision is answered with 200 exactly when the request names a
    draft, the action is one of the three words, the draft exists and is
    pending, and either the action is reject, or a Moltbook key is
    configured and the publish call is answered ok with a body that
    parses. *)
Theorem decision_answers_200_iff (E : Env) (req : Decision.request) (w : World) :
  (exists b w', Decision.serve E req w = (Ok200 b, w')) <->
  exists id d,
    Decision.draft_id req = Some id /\ id <> "" /\
    Decision.is_action (Decision.action req) = true /\
    post_queue w !! id = Some d /\ Draft.status d = pending /\
    (Decision.action req = Some "reject" \/
     let api_key := agent_config w ≫= AgentConfig.api_key in
     let response :=
       publish E (tick w)
         (Decision.publish_request api_key d
            (JS.or (Decision.edited_title req) (Draft.title d))
            (JS.or (Decision.edited_content req) (Draft.content d))) in
     JS.truthy api_key = true /\ Fetch.ok response = true /\
     Fetch.json response <> None).
Proof.
  split.
  - intros (b & w' & H). apply decision_ok_inv in H.
    destruct H as (id & d & Hid & Hne & Hact & Hd & Hst & H).
    exists id, d. repeat (split; [assumption|]).
    destruct H as [(Hr & _)|(_ & moltbookId & Hkey & Hok & Hjson & _)];
      [left; exact Hr|right].
    cbv zeta. rewrite Hjson. repeat split; try assumption. discriminate.
  - intros (id & d & Hid & Hne & Hact & Hd & Hst & H). run.
    rewrite Hid. simpl. rewrite (eqb_empty_false _ Hne). simpl.
    rewrite Hact. simpl. rewrite Hd.
    rewrite bool_decide_eq_true_2 by assumption. simpl.
    destruct (bool_decide (Decision.action req = Some "reject")) eqn:Hrej; [eauto|].
    apply bool_decide_eq_false in Hrej.
    destruct H as [H|(Hkey & Hok & Hjson)]; [contradiction|].
    rewrite Hkey. simpl. rewrite Hok. simpl.
    destruct (Fetch.json _) as [moltbookId|]; [eauto|contradiction].
Qed.

(** X2. A decision answered with an error has written nothing: the queue,
    the activity log, the seen-post ledger and the configuration are as
    they were, whatever made it fail, a publish call that was sent and
    refused or whose answer did not parse included. *)
Theorem decision_error_commits_nothing (E : Env) (req : Decision.request)
    (w w' : World) (e : string) :
  Decision.serve E req w = (Error500 e, w') ->
  post_queue w' = post_queue w /\
  activity_log w' = activity_log w /\
  seen_posts w' = seen_posts w /\
  agent_config w' = agent_config w.
Proof.
  intros H. run.
  destruct (Decision.draft_id req) as [id|]; simpl in H; [|simplify_eq; auto].
  destruct (String.eqb id ""); simpl in H; [simplify_eq; auto|].
  destruct (Decision.is_action (Decision.action req)); simpl in H;
    [|simplify_eq; auto].
  destruct (post_queue w !! id) as [d|]; [|simplify_eq; auto].
  destruct (bool_decide (Draft.status d = pending)); simpl in H;
    [|simplify_eq; auto].
  destruct (bool_decide (Decision.action req = Some "reject")); [discriminate|].
  destruct (JS.truthy (agent_config w ≫= AgentConfig.api_key)); simpl in H;
    [|simplify_eq; auto].
  match type of H with
  | context [Fetch.ok ?r] => destruct (Fetch.ok r); simpl in H
  end; [|simplify_eq; auto].
  match type of H with
  | context [Fetch.json ?r] => destruct (Fetch.json r)
  end; [discriminate|simplify_eq; auto].
Qed.

Lemma is_action_cases (a : option string) :
  Decision.is_action a = true ->
  a = Some "approve" \/ a = Some "reject" \/ a = Some "edit".
Proof.
  destruct a as [s|]; [|discriminate]. simpl. intros H.
  apply bool_decide_eq_true in H.
  repeat (apply elem_of_cons in H; destruct H as [->|H]; [auto|]).
  apply elem_of_nil in H. contradiction.
Qed.

(** X3. Whatever its outcome, a decision sends at most one request, and
    sends it only for an approve or an edit of a pending draft with a
    Moltbook key configured: the request creates a post, or a comment on
    the post replied to, with the edited title and content where the
    request carries them and the draft's own otherwise.  A reject, and a
    request refused by a guard, send nothing. *)
Theorem decision_publishes_only_pending (E : Env) (req : Decision.request)
    (w w' : World) (r : Response Decision.body) :
  Decision.serve E req w = (r, w') ->
  outbound w' = outbound w \/
  exists id d,
    Decision.draft_id req = Some id /\
    post_queue w !! id = Some d /\ Draft.status d = pending /\
    (Decision.action req = Some "approve" \/ Decision.action req = Some "edit") /\
    let api_key := agent_config w ≫= AgentConfig.api_key in
    JS.truthy api_key = true /\
    outbound w'
    = (outbound w ++
         [ToPublish
            (Decision.publish_request api_key d
               (JS.or (Decision.edited_title req) (Draft.title d))
               (JS.or (Decision.edited_content req) (Draft.content d)))])%list.
Proof.
  intros H. run.
  destruct (Decision.draft_id req) as [id|]; simpl in H; [|simplify_eq; auto].
  destruct (String.eqb id ""); simpl in H; [simplify_eq; auto|].
  destruct (Decision.is_action (Decision.action req)) eqn:Hact; simpl in H;
    [|simplify_eq; auto].
  destruct (post_queue w !! id) as [d|] eqn:Hd; [|simplify_eq; auto].
  destruct (bool_decide (Draft.status d = pending)) eqn:Hst; simpl in H;
    [|simplify_eq; auto].
  apply bool_decide_eq_true in Hst.
  destruct (bool_decide (Decision.action req = Some "reject")) eqn:Hrej.
  { simplify_eq. left. simpl. apply app_nil_r. }
  apply bool_decide_eq_false in Hrej.
  destruct (JS.truthy (agent_config w ≫= AgentConfig.api_key)) eqn:Hkey;
    simpl in H; [|simplify_eq; auto].
  right. exists id, d. split; [reflexivity|]. split; [assumption|].
  split; [assumption|]. split.
  { apply is_action_cases in Hact. destruct Hact as [?|[?|?]]; auto.
    contradiction. }
  cbv zeta. split; [reflexivity|].
  match type of H with
  | context [Fetch.ok ?r] => destruct (Fetch.ok r); simpl in H
  end; [|simplify_eq; reflexivity].
  match type of H with
  | context [Fetch.json ?r] => destruct (Fetch.json r)
  end; simplify_eq; simpl; rewrite ?app_nil_r; reflexivity.
Qed.

(** X4. After a successful decision the three records of it agree: the
    activity log has gained exactly one entry, for the draft decided,
    whose action is the status now stored in the row, and that is also
    the action of the answer; for a publish the entry carries the remote
    id of the answer and tells whether the draft was edited. *)
Theorem decision_records_agree (E : Env) (req : Decision.request)
    (w w' : World) (b : Decision.body) :
  Decision.serve E req w = (Ok200 b, w') ->
  exists id d' entry,
    Decision.draft_id req = Some id /\
    post_queue w' !! id = Some d' /\
    activity_log w' = (activity_log w ++ [entry])%list /\
    ActivityLogEntry.post_queue_id entry = id /\
    ActivityLogEntry.action entry = status_string (Draft.status d') /\
    match b with
    | Decision.Rejected =>
        Draft.status d' = rejected /\ ActivityLogEntry.details entry = NoDetails
    | Decision.Published action moltbookId _ =>
        action = status_string (Draft.status d') /\
        ActivityLogEntry.details entry
        = DecidedDetails moltbookId (bool_decide (Draft.status d' = edited))
    end.
Proof.
  intros H. apply decision_ok_inv in H.
  destruct H as (id & d & Hid & _ & _ & Hd & _ & H). exists id.
  destruct H as [(_ & -> & ->)|(_ & moltbookId & _ & _ & _ & -> & ->)].
  - eexists. eexists. split; [assumption|].
    split; [unfold after_reject; simpl; rewrite lookup_alter_eq, Hd; reflexivity|].
    simpl. repeat split.
  - unfold after_publish. cbv zeta.
    destruct (Decision.wasEdited _ _);
      (eexists; eexists; split; [assumption|];
       split; [simpl; rewrite lookup_alter_eq, Hd; reflexivity|];
       simpl; repeat split).
Qed.

(** X5. A successful decision keeps what was generated: in the row decided
    the identity, the title, the content, the reply target, the context
    snapshot and the place in the lineage are as before, also after an
    edit, whose text goes to [final_content] and whose title is sent but
    stored nowhere; every other row of the queue, the ledger and the
    configuration are untouched. *)
Theorem decision_keeps_generated_text (E : Env) (req : Decision.request)
    (w w' : World) (b : Decision.body) :
  Decision.serve E req w = (Ok200 b, w') ->
  exists id d d',
    Decision.draft_id req = Some id /\
    post_queue w !! id = Some d /\
    post_queue w' !! id = Some d' /\
    generated_columns d d' /\
    (forall id', id' <> id -> post_queue w' !! id' = post_queue w !! id') /\
    seen_posts w' = seen_posts w /\
    agent_config w' = agent_config w.
Proof.
  intros H. apply decision_ok_inv in H.
  destruct H as (id & d & Hid & _ & _ & Hd & _ & H). exists id, d.
  destruct H as [(_ & _ & ->)|(_ & moltbookId & _ & _ & _ & _ & ->)].
  - eexists. split; [assumption|]. split; [assumption|].
    split; [unfold after_reject; simpl; rewrite lookup_alter_eq, Hd; reflexivity|].
    split; [repeat split|].
    split; [intros id' Hn; simpl; apply lookup_alter_ne; congruence|].
    split; reflexivity.
  - eexists. split; [assumption|]. split; [assumption|].
    split; [unfold after_publish; simpl; rewrite lookup_alter_eq, Hd; reflexivity|].
    split; [repeat split|].
    split; [intros id' Hn; simpl; apply lookup_alter_ne; congruence|].
    split; reflexivity.
Qed.

(** ** The regeneration entry point *)

Lemma generate_cases (E : Env) (apiKey : string) (config : option AgentConfig.t)
    (original : Draft.t) (attemptNumber : Z) (feedback : option string)
    (previousVersions : string) (w w' : World)
    (r : Outcome (option string * option string)) :
  Regenerate.generate E apiKey config original attemptNumber feedback
    previousVersions w = (r, w') ->
  match generation_request apiKey config original attemptNumber feedback
          previousVersions with
  | None => w' = w /\ exists e, r = Throw e
  | Some request =>
      w' = interact [ToOpenAI request] w /\
      match openai E (tick w) request with
      | Chat.Ok response => r = Return (regenerated_texts E original response)
      | Chat.Fail status body =>
          r = Throw ("OpenAI API error: " +:+ pretty status +:+ " - " +:+ body)
      end
  end.
Proof.
  unfold Regenerate.generate, generation_request, regenerated_texts, bind,
    openaiChat, ret, throw.
  intros H. destruct (Draft.type original).
  - destruct (Draft.context original) as [context|]; simpl.
    + destruct (openai E (tick w) _); simplify_eq; auto.
    + simplify_eq. eauto.
  - destruct (openai E (tick w) _) as [response|status body]; simplify_eq; auto.
    destruct (JSON_parse E response) as [[|title content]|]; simplify_eq; auto.
Qed.

(** Every run of the regeneration handler: refused by a guard, failed at
    the generator, failed at the insert, or carried out. *)
(** A step that returns: its result and its world replace the names. *)
Ltac read_step H :=
  unfold ret, select_draft, select_config, update_draft, log_activity,
    env_openai_key, select_seen_posts, upsert_seen_post, now in H;
  injection H as <- <-.

Lemma regenerate_cases (E : Env) (req : Regenerate.request) (w w' : World)
    (r : Response Draft.t) :
  Regenerate.serve E req w = (r, w') ->
  ((exists e, r = Error500 e) /\ w' = w /\
   (JS.truthy (Regenerate.draft_id req) = false \/
    JS.truthy (OPENAI_API_KEY w) = false \/
    exists id, Regenerate.draft_id req = Some id /\
      match post_queue w !! id with
      | None => True
      | Some d => regeneration_request req id d w = None
      end)) \/
  exists id d request,
    Regenerate.draft_id req = Some id /\ id <> "" /\
    JS.truthy (OPENAI_API_KEY w) = true /\
    post_queue w !! id = Some d /\
    regeneration_request req id d w = Some request /\
    let w1 := interact [ToOpenAI request] w in
    match openai E (tick w) request with
    | Chat.Fail status body =>
        r = Error500 ("OpenAI API error: " +:+ pretty status +:+ " - " +:+ body) /\
        w' = w1
    | Chat.Ok response =>
        let w2 :=
          interact [] (set_post_queue (superseded_queue E id w) (interact [] w1)) in
        let row := regenerated_row E id d response w in
        match post_queue w !! Draft.id row with
        | Some _ => (exists e, r = Error500 e) /\ w' = w2
        | None =>
            r = Ok200 row /\
            w' = set_activity_log
                   (activity_log w ++
                      [{| ActivityLogEntry.action := "regenerated";
                          ActivityLogEntry.post_queue_id := Draft.id row;
                          ActivityLogEntry.details :=
                            RegeneratedDetails id (Draft.generation_attempt d + 1)
                              (JS.or (Regenerate.feedback req) None) |}])
                   (set_post_queue (<[Draft.id row := row]> (superseded_queue E id w)) w2)
        end
    end.
Proof.
  unfold Regenerate.serve, try_catch. intros H.
  destruct (Regenerate.handler E req w) as [o w0] eqn:Hh.
  assert (r = match o with Return b => Ok200 b | Throw e => Error500 e end /\ w0 = w')
    as [-> ->] by (destruct o; simplify_eq; auto).
  clear H. rename Hh into H. unfold Regenerate.handler in H.
  destruct (JS.truthy (Regenerate.draft_id req)) eqn:Hid; simpl in H;
    [|unfold throw in H; simplify_eq; left; split; [eauto|]; split; [reflexivity|]; auto].
  destruct (Regenerate.draft_id req) as [id|] eqn:Hid'; [|discriminate].
  simpl in Hid. apply negb_true_iff, String.eqb_neq in Hid. simpl in H.
  apply bind_cases in H. destruct H as [(e & H & _)|(key & ? & Hstep & H)];
    [discriminate|].
  read_step Hstep.
  destruct (JS.truthy (OPENAI_API_KEY w)) eqn:Hkey; simpl in H;
    [|unfold throw in H; simplify_eq; left; split; [eauto|]; split; [reflexivity|]; auto].
  apply bind_cases in H. destruct H as [(e & H & _)|(original & ? & Hstep & H)];
    [discriminate|].
  read_step Hstep.
  destruct (post_queue w !! id) as [d|] eqn:Hd.
  2:{ unfold throw in H. simplify_eq. left. split; [eauto|]. split; [reflexivity|].
      right. right. exists id. rewrite Hd. auto. }
  apply bind_cases in H. destruct H as [(e & H & _)|(config & ? & Hstep & H)];
    [discriminate|].
  read_step Hstep.
  apply bind_cases in H. destruct H as [(e & H & _)|(attempts & ? & Hstep & H)];
    [discriminate|].
  injection Hstep as <- <-.
  apply bind_cases in H. destruct H as [(e & H & ->)|(generated & w1 & Hgen & H)].
  - apply generate_cases in H. fold (regeneration_request req id d w) in H.
    destruct (regeneration_request req id d w) as [request|] eqn:Hreq.
    + right. exists id, d, request.
      do 5 (split; [first [assumption|reflexivity]|]). cbv zeta.
      destruct H as [-> H].
      destruct (openai E (tick w) request); [discriminate|].
      simplify_eq. auto.
    + destruct H as [-> _]. left. split; [eauto|]. split; [reflexivity|].
      right. right. exists id. rewrite Hd. split; [reflexivity|exact Hreq].
  - apply generate_cases in Hgen. fold (regeneration_request req id d w) in Hgen.
    destruct (regeneration_request req id d w) as [request|] eqn:Hreq;
      [|destruct Hgen as [_ [e He]]; discriminate].
    right. exists id, d, request.
      do 5 (split; [first [assumption|reflexivity]|]). cbv zeta.
    destruct Hgen as [-> Hgen].
    destruct (openai E (tick w) request) as [response|]; [|discriminate].
    injection Hgen as ->.
    unfold regenerated_row.
    destruct (regenerated_texts E d response) as [newContent newTitle]. cbn [fst snd].
    apply bind_cases in H. destruct H as [(e & H & _)|(t & ? & Hstep & H)];
      [unfold now in H; discriminate|].
    read_step Hstep.
    apply bind_cases in H. destruct H as [(e & H & _)|(? & ? & Hstep & H)];
      [discriminate|].
    read_step Hstep.
    apply bind_cases in H. destruct H as [(e & H & _)|(newDraft & w3 & Hstep & H)].
    { unfold insert_draft in H. simpl in H.
      destruct (alter _ id (post_queue w) !! _); discriminate. }
    unfold insert_draft in Hstep. cbn [post_queue tick interact set_post_queue] in Hstep.
    cbn [Draft.id row_of_insert].
    destruct (decide (gen_random_uuid E (S (S (tick w))) = id)) as [Heq|Hne].
    + rewrite Heq in *. rewrite lookup_alter_eq, Hd in Hstep. rewrite Hd.
      simpl in Hstep. simplify_eq. unfold throw in H. simplify_eq. split; [eauto|].
      reflexivity.
    + rewrite lookup_alter_ne in Hstep by congruence.
      destruct (post_queue w !! gen_random_uuid E (S (S (tick w)))) eqn:Hnew.
      * simplify_eq. unfold throw in H. simplify_eq. split; [eauto|]. reflexivity.
      * simplify_eq.
        apply bind_cases in H. destruct H as [(e & H & _)|(? & ? & Hstep & H)];
          [discriminate|].
        read_step Hstep. inv_step H. split; reflexivity.
Qed.

(** X6. A regeneration is answered with 200 exactly when the request names
    a draft that exists, the OpenAI key is set, the draft is not a reply
    whose context snapshot is null, the generator answers the request
    with a completion, and the id the store draws for the new row is
    free. *)
Theorem regeneration_answers_200_iff (E : Env) (req : Regenerate.request)
    (w : World) :
  (exists newDraft w', Regenerate.serve E req w = (Ok200 newDraft, w')) <->
  exists id d request response,
    Regenerate.draft_id req = Some id /\ id <> "" /\
    JS.truthy (OPENAI_API_KEY w) = true /\
    post_queue w !! id = Some d /\
    regeneration_request req id d w = Some request /\
    openai E (tick w) request = Chat.Ok response /\
    post_queue w !! gen_random_uuid E (S (S (tick w))) = None.
Proof.
  destruct (Regenerate.serve E req w) as [r w0] eqn:Hserve.
  apply regenerate_cases in Hserve.
  destruct Hserve as [((e & ->) & -> & Hguard)|
                      (id & d & request & Hid & Hne & Hkey & Hd & Hreq & H)].
  - split; [intros (newDraft & w' & H); discriminate|].
    intros (id & d & request & response & Hid & Hne & Hkey & Hd & Hreq & _).
    exfalso. destruct Hguard as [H|[H|(id' & Hid' & H)]].
    + rewrite Hid in H. simpl in H. apply negb_false_iff, String.eqb_eq in H.
      contradiction.
    + congruence.
    + assert (id' = id) as -> by congruence. rewrite Hd in H. congruence.
  - cbv zeta in H. split.
    + intros (newDraft & w' & Hok). injection Hok as -> ->.
      destruct (openai E (tick w) request) as [response|status body] eqn:Hanswer;
        [|destruct H; discriminate].
      unfold regenerated_row in H. cbn [Draft.id row_of_insert] in H.
      destruct (post_queue w !! gen_random_uuid E (S (S (tick w)))) eqn:Hnew;
        [destruct H as [[e He] _]; discriminate|].
      exists id, d, request, response. auto 10.
    + intros (id' & d' & request' & response & Hid' & _ & _ & Hd' & Hreq' & Hanswer
              & Hnew).
      assert (id' = id) as -> by congruence.
      assert (d' = d) as -> by congruence.
      assert (request' = request) as -> by congruence.
      rewrite Hanswer in H. unfold regenerated_row in H.
      cbn [Draft.id row_of_insert] in H. rewrite Hnew in H.
      destruct H as [-> ->]. eauto.
Qed.

(** X7. A regeneration answered with an error has logged nothing and has
    sent at most one request, to the generator.  It has written nothing
    to the queue either, with one exception: when the generator answered
    and the insert of the new draft was refused, the source draft is left
    superseded, with no successor in the queue. *)
Theorem regeneration_error_commits (E : Env) (req : Regenerate.request)
    (w w' : World) (e : string) :
  Regenerate.serve E req w = (Error500 e, w') ->
  activity_log w' = activity_log w /\
  seen_posts w' = seen_posts w /\
  agent_config w' = agent_config w /\
  (outbound w' = outbound w \/
   exists request, outbound w' = (outbound w ++ [ToOpenAI request])%list) /\
  (post_queue w' = post_queue w \/
   exists id d request response,
     Regenerate.draft_id req = Some id /\
     post_queue w !! id = Some d /\
     regeneration_request req id d w = Some request /\
     openai E (tick w) request = Chat.Ok response /\
     is_Some (post_queue w !! gen_random_uuid E (S (S (tick w)))) /\
     post_queue w'
     = alter (Patch.apply (Regenerate.superseded_patch (Date_now E (S (tick w)))))
         id (post_queue w) /\
     (Draft.status <$> post_queue w' !! id) = Some superseded).
Proof.
  intros Hserve. apply regenerate_cases in Hserve.
  destruct Hserve as [(_ & -> & _)|
                      (id & d & request & Hid & Hne & Hkey & Hd & Hreq & H)];
    [auto 10|].
  cbv zeta in H.
  destruct (openai E (tick w) request) as [response|status body] eqn:Hanswer.
  - unfold regenerated_row in H. cbn [Draft.id row_of_insert] in H.
    destruct (post_queue w !! gen_random_uuid E (S (S (tick w)))) eqn:Hnew;
      [|destruct H; discriminate].
    destruct H as [_ ->]. simpl. rewrite !app_nil_r.
    do 3 (split; [reflexivity|]). split; [eauto|].
    right. exists id, d, request, response.
    do 5 (split; [first [assumption|eauto]|]). split; [reflexivity|].
    unfold superseded_queue. rewrite lookup_alter_eq, Hd. reflexivity.
  - destruct H as [_ ->]. simpl. do 3 (split; [reflexivity|]). eauto.
Qed.

(** X8. The texts of a regenerated draft.  A regenerated reply has the
    completion as its content and the title of its source.  A
    regenerated post takes its content and its title from the completion
    read as JSON, the title of the source standing in for a missing or
    empty one; a completion that is not JSON, or is null, does not fail
    the regeneration: it becomes the content as it is, under the title of
    the source.  Exactly one request is sent, the one that lists the
    previous attempts of the lineage. *)
Theorem regenerated_texts_of_completion (E : Env) (req : Regenerate.request)
    (w w' : World) (newDraft : Draft.t) :
  Regenerate.serve E req w = (Ok200 newDraft, w') ->
  exists id d request response,
    Regenerate.draft_id req = Some id /\
    post_queue w !! id = Some d /\
    regeneration_request req id d w = Some request /\
    openai E (tick w) request = Chat.Ok response /\
    outbound w' = (outbound w ++ [ToOpenAI request])%list /\
    match Draft.type d with
    | Reply =>
        Draft.content newDraft = Some response /\
        Draft.title newDraft = Draft.title d
    | Post =>
        match JSON_parse E response with
        | Some (ParsedValue title content) =>
            Draft.content newDraft = content /\
            Draft.title newDraft = JS.or title (Draft.title d)
        | Some ParsedNull | None =>
            Draft.content newDraft = Some response /\
            Draft.title newDraft = Draft.title d
        end
    end.
Proof.
  intros Hserve. apply regenerate_cases in Hserve.
  destruct Hserve as [((e & He) & _)|
                      (id & d & request & Hid & Hne & Hkey & Hd & Hreq & H)];
    [discriminate|].
  cbv zeta in H.
  destruct (openai E (tick w) request) as [response|status body] eqn:Hanswer;
    [|destruct H; discriminate].
  unfold regenerated_row in H. cbn [Draft.id row_of_insert] in H.
  destruct (post_queue w !! gen_random_uuid E (S (S (tick w)))) eqn:Hnew;
    [destruct H as [[e He] _]; discriminate|].
  destruct H as [Hrow ->]. injection Hrow as ->.
  exists id, d, request, response. do 4 (split; [assumption|]).
  split; [simpl; rewrite !app_nil_r; reflexivity|].
  unfold regenerated_texts. simpl.
  destruct (Draft.type d); [split; reflexivity|].
  destruct (JSON_parse E response) as [[|title content]|]; split; reflexivity.
Qed.





(** X11. After a regeneration the draft it was made from is closed to
    decisions: any decision on it is refused as already processed, with
    status superseded, and changes nothing.  The new draft is pending, in
    the queue, and open: a reject of it is carried out. *)
Theorem superseded_draft_is_closed (E E' : Env) (req : Regenerate.request)
    (w w' : World) (newDraft : Draft.t) (decision : Decision.request) :
  Regenerate.serve E req w = (Ok200 newDraft, w') ->
  Decision.is_action (Decision.action decision) = true ->
  (Decision.draft_id decision = Regenerate.draft_id req ->
   Decision.serve E' decision w'
   = (Error500 (Decision.already_processed superseded), w')) /\
  post_queue w' !! Draft.id newDraft = Some newDraft /\
  Draft.status newDraft = pending /\
  (Decision.draft_id decision = Some (Draft.id newDraft) ->
   Draft.id newDraft <> "" ->
   Decision.action decision = Some "reject" ->
   exists w'', Decision.serve E' decision w' = (Ok200 Decision.Rejected, w'')).
Proof.
  intros H Hact. apply regenerate_ok_inv in H.
  destruct H as (id & d & newTitle & newContent & H). cbv zeta in H.
  destruct H as (Hid & Hne & Hd & Hfresh & Hnone & Hn & Hq & _).
  assert (Draft.id newDraft = gen_random_uuid E (S (S (tick w)))) as Hidn
      by (rewrite Hn; reflexivity).
  assert (post_queue w' !! Draft.id newDraft = Some newDraft) as Hrow
      by (rewrite Hq, Hidn; apply lookup_insert_eq).
  assert (Draft.status newDraft = pending) as Hst by (rewrite Hn; reflexivity).
  split; [|split; [exact Hrow|split; [exact Hst|]]].
  - intros Hsame.
    assert (post_queue w' !! id
            = Some (Patch.apply
                      (Regenerate.superseded_patch (Date_now E (S (tick w)))) d)) as Hsrc.
    { rewrite Hq. rewrite lookup_insert_ne by assumption.
      rewrite lookup_alter_eq, Hd. reflexivity. }
    apply (decision_not_pending E' decision w' id
             (Patch.apply (Regenerate.superseded_patch (Date_now E (S (tick w)))) d));
      try assumption.
    + congruence.
    + simpl. discriminate.
  - intros Hnew Hnonempty Hreject. run.
    rewrite Hnew. simpl. rewrite (eqb_empty_false _ Hnonempty). simpl.
    rewrite Hact. simpl. rewrite Hrow.
    rewrite bool_decide_eq_true_2 by assumption. simpl.
    rewrite bool_decide_eq_true_2 by assumption. eauto.
Qed.

(** ** The scheduled run *)

(** X12. A scheduled run whose configuration is incomplete stops before it
    does anything: without the OpenAI key, without a configuration row, or
    without the Moltbook key in it, the answer is the error of the first
    of these that is missing, and the world is as it was, nothing
    fetched, sent or written. *)
Theorem run_needs_configuration (E : Env) (w : World) :
  (JS.truthy (OPENAI_API_KEY w) = false ->
   Poll.serve E w
   = (Error500 "OPENAI_API_KEY not configured in Supabase secrets", w)) /\
  (JS.truthy (OPENAI_API_KEY w) = true -> agent_config w = None ->
   Poll.serve E w = (Error500 "Agent config not found", w)) /\
  (forall config,
     JS.truthy (OPENAI_API_KEY w) = true -> agent_config w = Some config ->
     JS.truthy (AgentConfig.api_key config) = false ->
     Poll.serve E w = (Error500 "Moltbook API key not configured", w)).
Proof.
  unfold Poll.serve, try_catch, Poll.handler, bind, env_openai_key, select_config,
    throw.
  split; [|split].
  - intros ->. reflexivity.
  - intros -> Hconfig. simpl. rewrite Hconfig. reflexivity.
  - intros config -> Hconfig Hkey. simpl. rewrite Hconfig, Hkey. reflexivity.
Qed.

(** X13. The fetch loop writes nothing and sends one feed request per
    target submolt, in order.  A page that is not ok contributes no post
    and does not stop the loop; when every page that is ok can be read,
    the loop returns the posts of those pages, in order.  A page that is
    ok and cannot be read, its body not being JSON or its posts not being
    a list, stops the loop there with the error of the read; the run then
    answers with that error and has written nothing. *)
Theorem fetch_posts_collects (E : Env) (submolts : list string)
    (posts : list MoltbookPost.t) (w : World) :
  (exists r w',
     Poll.fetch_posts E submolts posts w = (r, w') /\
     post_queue w' = post_queue w /\
     activity_log w' = activity_log w /\
     seen_posts w' = seen_posts w /\
     agent_config w' = agent_config w /\
     match first_malformed E (tick w) submolts with
     | None =>
         r = Return (posts ++ feed_pages E (tick w) submolts)%list /\
         outbound w' = (outbound w ++ (ToFeed <$> submolts))%list /\
         tick w' = (tick w + length submolts)%nat
     | Some (k, message) =>
         r = Throw message /\
         (k < length submolts)%nat /\
         outbound w' = (outbound w ++ (ToFeed <$> take (S k) submolts))%list
     end) /\
  (forall config k message,
     JS.truthy (OPENAI_API_KEY w) = true ->
     agent_config w = Some config ->
     JS.truthy (AgentConfig.api_key config) = true ->
     first_malformed E (tick w) (AgentConfig.target_submolts config)
     = Some (k, message) ->
     exists w',
       Poll.serve E w = (Error500 message, w') /\
       post_queue w' = post_queue w /\
       activity_log w' = activity_log w /\
       seen_posts w' = seen_posts w /\
       outbound w'
       = (outbound w
            ++ (ToFeed <$> take (S k) (AgentConfig.target_submolts config)))%list).
Proof.
  split.
  - destruct (fetch_posts_pages E submolts posts w)
      as (r & w' & Hrun & Hq & Hlog & Hseen & Hconfig & _ & Hr).
    exists r, w'. auto 10.
  - intros config k message Hkey Hconfig Hmoltbook Hbroken.
    destruct (fetch_posts_pages E (AgentConfig.target_submolts config) [] w)
      as (r & w' & Hrun & Hq & Hlog & Hseen & _ & _ & Hr).
    rewrite Hbroken in Hr. destruct Hr as (-> & _ & Hout).
    exists w'. split; [|auto].
    unfold Poll.serve, try_catch, Poll.handler, bind at 1, env_openai_key.
    rewrite Hkey. cbn [negb]. unfold bind at 1, select_config.
    rewrite Hconfig, Hmoltbook. cbn [negb]. unfold bind at 1.
    rewrite Hrun. reflexivity.
Qed.

(** The relevance checks of a run, however it ends: the requests sent
    for the small model are the checks of some of the first five new
    posts, and of all of them when the run completes. *)
Lemma run_relevance_checks (E : Env) (w w' : World) (r : Outcome Poll.body) :
  Poll.handler E w = (r, w') ->
  exists sent apiKey config checked,
    outbound w' = (outbound w ++ sent)%list /\
    List.filter is_relevance_check sent = relevance_checks apiKey config checked /\
    (length checked <= 5)%nat /\
    forall body, r = Return body ->
      length checked = Nat.min 5 (Poll.posts_checked body).
Proof.
  intros H. apply handler_phases in H.
  pose (nobody := {| AgentConfig.persona := None; AgentConfig.topics := [];
                     AgentConfig.target_submolts := []; AgentConfig.auto_post := false;
                     AgentConfig.post_frequency_minutes := 0;
                     AgentConfig.api_key := None |}).
  destruct H as [(-> & e & ->)|(config & _ & Hphases)].
  { exists [], "", nobody, []. rewrite app_nil_r. repeat split; [simpl; lia|].
    intros body Hb. discriminate. }
  cbv zeta in Hphases. destruct Hphases as (fetched & w1 & Hfetch & Hphases).
  apply keeps_fetch_posts in Hfetch. destruct Hfetch as (_ & Hfetch & _).
  apply Sends_no_relevance_check in Hfetch. destruct Hfetch as (s1 & Ho1 & Hf1).
  destruct fetched as [posts|e].
  2:{ destruct Hphases as [-> ->]. exists s1, "", nobody, [].
      repeat split; [exact Ho1|exact Hf1|simpl; lia|]. intros body Hb. discriminate. }
  destruct Hphases as (checked & w2 & Hcheck & Hphases).
  set (newPosts := Poll.new_posts (seen_posts w1) posts) in *.
  set (apiKey := default "" (OPENAI_API_KEY w)) in *.
  apply check_posts_ledger in Hcheck. destruct Hcheck as (n & _ & Hcheck).
  assert (length (JS.slice0 5 newPosts) = Nat.min 5 (length newPosts)) as Hbatch
      by (unfold JS.slice0; apply length_take).
  destruct checked as [postsToReply|e].
  2:{ destruct Hphases as [-> ->]. destruct Hcheck as [Hn Ho2].
      exists (s1 ++ relevance_checks apiKey config
                      (take (S n) (JS.slice0 5 newPosts)))%list,
        apiKey, config, (take (S n) (JS.slice0 5 newPosts)).
      split; [rewrite Ho2, Ho1, app_assoc; reflexivity|].
      split; [rewrite List.filter_app, Hf1, filter_relevance_checks; reflexivity|].
      split; [rewrite length_take; lia|]. intros body Hb. discriminate. }
  destruct Hcheck as [_ Ho2].
  destruct Hphases as (replied & w3 & Hreply & Hphases).
  apply keeps_reply_posts in Hreply. destruct Hreply as (_ & Hreply & _).
  apply Sends_no_relevance_check in Hreply. destruct Hreply as (s3 & Ho3 & Hf3).
  destruct replied as [drafts|e].
  2:{ destruct Hphases as [-> ->].
      exists (s1 ++ relevance_checks apiKey config (JS.slice0 5 newPosts) ++ s3)%list,
        apiKey, config, (JS.slice0 5 newPosts).
      split; [rewrite Ho3, Ho2, Ho1, <- !app_assoc; reflexivity|].
      split; [rewrite !List.filter_app, Hf1, Hf3, filter_relevance_checks, app_nil_r;
              reflexivity|].
      split; [lia|]. intros body Hb. discriminate. }
  destruct Hphases as (created & Hcreate & Hr).
  apply keeps_original_post in Hcreate. destruct Hcreate as (_ & Hcreate & _).
  apply Sends_no_relevance_check in Hcreate. destruct Hcreate as (s4 & Ho4 & Hf4).
  exists (s1 ++ relevance_checks apiKey config (JS.slice0 5 newPosts) ++ s3 ++ s4)%list,
    apiKey, config, (JS.slice0 5 newPosts).
  split; [rewrite Ho4, Ho3, Ho2, Ho1, <- !app_assoc; reflexivity|].
  split; [rewrite !List.filter_app, Hf1, Hf3, Hf4, filter_relevance_checks, app_nil_r;
          reflexivity|].
  split; [lia|]. intros body Hb.
  destruct created as [drafts'|e]; [|congruence].
  rewrite Hr in Hb. injection Hb as <-. simpl. exact Hbatch.
Qed.

(** X14. A scheduled run checks at most five posts: however it ends, at
    most five relevance checks are among the requests it sent; and when
    it completes their number is the smaller of five and the
    [posts_checked] of its answer, which counts every new post of the
    feed, checked or not. *)
Theorem run_checks_at_most_five (E : Env) (w w' : World)
    (r : Response Poll.body) (sent : list Outbound) :
  Poll.serve E w = (r, w') ->
  outbound w' = (outbound w ++ sent)%list ->
  (length (List.filter is_relevance_check sent) <= 5)%nat /\
  forall body, r = Ok200 body ->
    length (List.filter is_relevance_check sent)
    = Nat.min 5 (Poll.posts_checked body).
Proof.
  intros H Hsent.
  assert (exists r0, Poll.handler E w = (r0, w') /\
            forall body, r = Ok200 body -> r0 = Return body) as (r0 & Hr0 & Hbody).
  { unfold Poll.serve, try_catch in H.
    destruct (Poll.handler E w) as [[b|e] w1]; simplify_eq; eexists;
      (split; [reflexivity|]); intros body Hb; congruence. }
  apply run_relevance_checks in Hr0.
  destruct Hr0 as (sent' & apiKey & config & checked & Hout & Hfilter & Hle & Hdone).
  rewrite Hout in Hsent. apply app_inv_head in Hsent. subst sent'.
  rewrite Hfilter. unfold relevance_checks. rewrite length_fmap.
  split; [exact Hle|]. intros body Hb. apply Hdone, Hbody, Hb.
Qed.

(** X15. The posts a completed run did not get to.  The new posts of a
    run are the posts of the fetched pages whose id is not in the ledger;
    the answer counts them all, and the run marks the first five of them
    and no other: a new post beyond the fifth is not in the ledger when
    the run ends, unless it shares its id with one of the five, so the
    next run finds it new again. *)
Theorem posts_beyond_the_fifth_stay_new (E : Env) (w w' : World)
    (body : Poll.body) (config : AgentConfig.t) :
  Poll.serve E w = (Ok200 body, w') ->
  agent_config w = Some config ->
  let new :=
    Poll.new_posts (seen_posts w)
      (feed_pages E (tick w) (AgentConfig.target_submolts config)) in
  Poll.posts_checked body = length new /\
  forall p, p ∈ new ->
    (MoltbookPost.id p ∈ seen_posts w' <->
     MoltbookPost.id p ∈ MoltbookPost.id <$> take 5 new).
Proof.
  intros H Hconfig new.
  destruct (run_marks E w w' body config H Hconfig)
    as (posts & w1 & Hfetch & Hcount & Hseen).
  apply fetch_posts_Return in Hfetch. destruct Hfetch as [-> _].
  simpl in Hcount, Hseen.
  fold new in Hcount, Hseen. split; [exact Hcount|].
  intros p Hp. apply new_posts_unseen in Hp. destruct Hp as [Hunseen _].
  rewrite Hseen. unfold marked, JS.slice0.
  rewrite elem_of_union, elem_of_list_to_set. tauto.
Qed.

(** *** What a run does to the queue and to the log *)

Section Extends.
Context (auto_post : bool) (w0 : World).

Lemma RunInv_refl : RunInv auto_post w0 w0.
Proof.
  split.
  - intros id. destruct (post_queue w0 !! id) eqn:Hd; [reflexivity|discriminate].
  - exists []. rewrite app_nil_r. split; [reflexivity|constructor].
Qed.

Lemma Extends_refl (w : World) : Extends auto_post w0 w w.
Proof. intros H. exact H. Qed.

Lemma Extends_trans (a b c : World) :
  Extends auto_post w0 a b -> Extends auto_post w0 b c -> Extends auto_post w0 a c.
Proof. intros Hab Hbc H. apply Hbc, Hab, H. Qed.

Lemma Extends_same (w w' : World) :
  post_queue w' = post_queue w -> activity_log w' = activity_log w ->
  Extends auto_post w0 w w'.
Proof. intros Hq Hlog. unfold Extends, RunInv. rewrite Hq, Hlog. auto. Qed.

Lemma extends_now (E : Env) : keeps (Extends auto_post w0) (now E).
Proof.
  intros w r w' H. unfold now in H. simplify_eq. apply Extends_same; reflexivity.
Qed.

Lemma extends_random_index (E : Env) (n : nat) :
  keeps (Extends auto_post w0) (Poll.random_index E n).
Proof.
  intros w r w' H. unfold Poll.random_index in H. simplify_eq.
  apply Extends_same; reflexivity.
Qed.

Lemma extends_upsert_seen_post (id : string) :
  keeps (Extends auto_post w0) (upsert_seen_post id).
Proof.
  intros w r w' H. unfold upsert_seen_post in H. simplify_eq.
  apply Extends_same; reflexivity.
Qed.

Lemma extends_fetch_publish (E : Env) (r : PublishRequest) :
  keeps (Extends auto_post w0) (fetch_publish E r).
Proof.
  intros w o w' H. unfold fetch_publish in H. simplify_eq.
  apply Extends_same; reflexivity.
Qed.

Lemma extends_fetch_feed (E : Env) (submolt : string) :
  keeps (Extends auto_post w0) (fetch_feed E submolt).
Proof.
  intros w o w' H. unfold fetch_feed in H.
  destruct (feed E (tick w) submolt); simplify_eq; apply Extends_same; reflexivity.
Qed.

Lemma extends_openaiChat (E : Env) (r : Chat.request) :
  keeps (Extends auto_post w0) (openaiChat E r).
Proof.
  intros w o w' H. unfold openaiChat in H.
  destruct (openai E (tick w) r); simplify_eq; apply Extends_same; reflexivity.
Qed.

Lemma extends_log_activity (e : ActivityLogEntry.t) :
  post_queue w0 !! ActivityLogEntry.post_queue_id e = None ->
  run_entry auto_post e ->
  keeps (Extends auto_post w0) (log_activity e).
Proof.
  intros Hnew Hentry w r w' H. unfold log_activity in H. simplify_eq.
  intros (Hrows & entries & Hlog & Hall). split; [exact Hrows|].
  exists (entries ++ [e])%list. simpl. rewrite Hlog, app_assoc.
  split; [reflexivity|]. apply Forall_app. split; [exact Hall|].
  constructor; [auto|constructor].
Qed.

Lemma extends_update_posted (draft : Draft.t) (moltbookId : option string)
    (t_posted : Z) (id : string) :
  post_queue w0 !! id = None -> auto_post = true ->
  keeps (Extends auto_post w0)
    (update_draft (Poll.posted_patch draft moltbookId t_posted) id).
Proof.
  intros Hnew Hauto w r w' H. unfold update_draft in H. simplify_eq.
  intros (Hrows & Hlog). split; [|exact Hlog].
  intros id'. specialize (Hrows id'). simpl.
  destruct (decide (id = id')) as [<-|Hne].
  - rewrite Hnew in *. intros d' Hd'. rewrite lookup_alter_eq in Hd'.
    destruct (post_queue w !! id) as [d|] eqn:Hd; [|discriminate].
    simpl in Hd'. injection Hd' as <-.
    destruct (Hrows d eq_refl) as (Hi & Hroot & Hattempt & Hcontext & Hdecided
                                   & Hfinal & _).
    unfold created_by_run. simpl. rewrite Hroot, Hdecided, Hfinal.
    repeat split; try assumption. right. repeat split. discriminate.
  - rewrite lookup_alter_ne by assumption. exact Hrows.
Qed.

Lemma extends_postToMoltbook (E : Env) (queueId apiKey : string) :
  post_queue w0 !! queueId = None -> auto_post = true ->
  keeps (Extends auto_post w0) (Poll.postToMoltbook E queueId apiKey).
Proof.
  intros Hnew Hauto. unfold Poll.postToMoltbook, select_draft.
  pose proof (fun draft moltbookId t =>
                extends_update_posted draft moltbookId t queueId Hnew Hauto) as Hupdate.
  pose proof extends_now as Hnow.
  pose proof extends_fetch_publish as Hpublish.
  assert (forall moltbookId,
            keeps (Extends auto_post w0)
              (log_activity
                 {| ActivityLogEntry.action := "posted";
                    ActivityLogEntry.post_queue_id := queueId;
                    ActivityLogEntry.details := PostedDetails moltbookId |})) as Hlog.
  { intros moltbookId. apply extends_log_activity; [exact Hnew|].
    right. simpl. eauto. }
  keeps_steps Extends_refl Extends_trans.
Qed.

(** An insert followed by the update that roots the new row at itself:
    what follows runs with a row that was not in the queue the run
    started from. *)
Lemma extends_insert_root (E : Env) (c : Insert.t) {B}
    (k : Draft.t -> M B) (k0 : M B) :
  Insert.generation_attempt c = None ->
  Insert.context c <> None ->
  (forall inserted,
     post_queue w0 !! Draft.id inserted = None ->
     keeps (Extends auto_post w0) (k inserted)) ->
  keeps (Extends auto_post w0) k0 ->
  keeps (Extends auto_post w0)
    (bind (insert_draft E c)
       (fun inserted =>
          match inserted with
          | Some inserted =>
              bind (update_draft (Poll.root_patch (Draft.id inserted))
                      (Draft.id inserted))
                (fun _ => k inserted)
          | None => k0
          end)).
Proof.
  intros Hattempt Hcontext Hk Hk0 w r w' H Hinv.
  unfold bind at 1 in H. unfold insert_draft in H.
  destruct (post_queue w !! gen_random_uuid E (tick w)) eqn:Htaken.
  { apply Hk0 in H. apply H. revert Hinv. apply Extends_same; reflexivity. }
  assert (post_queue w0 !! gen_random_uuid E (tick w) = None) as Hnew.
  { destruct Hinv as [Hrows _]. specialize (Hrows (gen_random_uuid E (tick w))).
    destruct (post_queue w0 !! gen_random_uuid E (tick w)); [congruence|reflexivity]. }
  unfold bind, update_draft in H. cbn [Draft.id row_of_insert] in H.
  apply Hk in H; [|exact Hnew]. apply H. clear H.
  destruct Hinv as [Hrows Hlog]. split; [|exact Hlog].
  intros id. specialize (Hrows id). cbn [post_queue set_post_queue interact].
  destruct (decide (gen_random_uuid E (tick w) = id)) as [<-|Hne].
  - rewrite Hnew. intros d'. rewrite lookup_alter_eq, lookup_insert_eq. simpl.
    intros Hd'. injection Hd' as <-.
    unfold created_by_run. simpl. rewrite Hattempt. repeat split; auto.
  - rewrite lookup_alter_ne, lookup_insert_ne by assumption. exact Hrows.
Qed.

End Extends.

#[local] Hint Resolve extends_now extends_random_index extends_upsert_seen_post
  extends_fetch_publish extends_fetch_feed extends_openaiChat : keeps.

Ltac keeps_extends a w := keeps_steps (Extends_refl a w) (Extends_trans a w).

Lemma extends_auto_post (E : Env) (config : AgentConfig.t) (w0 : World)
    (queueId apiKey : string) :
  post_queue w0 !! queueId = None ->
  keeps (Extends (AgentConfig.auto_post config) w0)
    (if AgentConfig.auto_post config
     then Poll.postToMoltbook E queueId apiKey
     else ret tt).
Proof.
  intros Hnew. destruct (AgentConfig.auto_post config).
  - apply extends_postToMoltbook; [exact Hnew|reflexivity].
  - apply keeps_ret. apply Extends_refl.
Qed.

Lemma extends_fetch_posts (E : Env) (auto_post : bool) (w0 : World)
    (submolts : list string) :
  forall posts, keeps (Extends auto_post w0) (Poll.fetch_posts E submolts posts).
Proof.
  induction submolts as [|submolt rest IH]; intros posts; simpl;
    keeps_extends auto_post w0.
Qed.

Lemma extends_check_posts (E : Env) (auto_post : bool) (w0 : World)
    (apiKey : string) (config : AgentConfig.t) (batch : list MoltbookPost.t) :
  forall postsToReply,
    keeps (Extends auto_post w0) (Poll.check_posts E apiKey config batch postsToReply).
Proof.
  induction batch as [|p rest IH]; intros postsToReply; simpl.
  - keeps_extends auto_post w0.
  - unfold Poll.checkRelevance. keeps_extends auto_post w0.
Qed.

Lemma extends_reply_posts (E : Env) (w0 : World) (openaiApiKey moltbookApiKey : string)
    (config : AgentConfig.t) (postsToReply : list MoltbookPost.t) :
  forall drafts,
    keeps (Extends (AgentConfig.auto_post config) w0)
      (Poll.reply_posts E openaiApiKey moltbookApiKey config postsToReply drafts).
Proof.
  induction postsToReply as [|p rest IH]; intros drafts; simpl.
  - keeps_extends (AgentConfig.auto_post config) w0.
  - unfold Poll.generateReply.
    apply keeps_bind; [apply Extends_trans|auto with keeps|intros content].
    apply keeps_bind; [apply Extends_trans|auto with keeps|intros generated_at].
    apply extends_insert_root; [reflexivity|discriminate| |apply IH].
    intros inserted Hnew.
    pose proof (extends_auto_post E config w0 (Draft.id inserted) moltbookApiKey Hnew)
      as Hpost.
    assert (keeps (Extends (AgentConfig.auto_post config) w0)
              (log_activity
                 {| ActivityLogEntry.action := "generated";
                    ActivityLogEntry.post_queue_id := Draft.id inserted;
                    ActivityLogEntry.details :=
                      GeneratedDetails "reply" (MoltbookPost.id p) |})) as Hlog.
    { apply extends_log_activity; [exact Hnew|]. left. simpl. eauto. }
    keeps_extends (AgentConfig.auto_post config) w0.
Qed.

Lemma extends_original_post (E : Env) (w0 : World) (openaiApiKey moltbookApiKey : string)
    (config : AgentConfig.t) (drafts : list Draft.t) :
  keeps (Extends (AgentConfig.auto_post config) w0)
    (Poll.original_post E openaiApiKey moltbookApiKey config drafts).
Proof.
  unfold Poll.original_post, Poll.minutesSinceLastPost.
  set (auto_post := AgentConfig.auto_post config).
  apply keeps_bind; [apply Extends_trans|keeps_extends auto_post w0|intros minutes].
  destruct (Poll.minutes_ge _ _); [|keeps_extends auto_post w0].
  unfold Poll.create_original_post, Poll.generateOriginalPost.
  apply keeps_bind;
    [apply Extends_trans|keeps_extends auto_post w0|intros [[title content] submolt]].
  apply keeps_bind; [apply Extends_trans|auto with keeps|intros generated_at].
  apply extends_insert_root; [reflexivity|discriminate| |keeps_extends auto_post w0].
  intros inserted Hnew.
  pose proof (extends_auto_post E config w0 (Draft.id inserted) moltbookApiKey Hnew)
    as Hpost.
  keeps_extends auto_post w0.
Qed.

(** The world a scheduled run ends in, however it ends. *)
Lemma handler_extends (E : Env) (w w' : World) (r : Outcome Poll.body)
    (config : AgentConfig.t) :
  Poll.handler E w = (r, w') ->
  agent_config w = Some config ->
  RunInv (AgentConfig.auto_post config) w w'.
Proof.
  intros H Hconfig. apply handler_phases in H.
  destruct H as [(-> & _)|(config' & Hconfig' & Hphases)]; [apply RunInv_refl|].
  rewrite Hconfig in Hconfig'. injection Hconfig' as <-. cbv zeta in Hphases.
  pose proof (RunInv_refl (AgentConfig.auto_post config) w) as Hinv.
  destruct Hphases as (fetched & w1 & Hfetch & Hphases).
  apply (extends_fetch_posts E (AgentConfig.auto_post config) w) in Hfetch.
  apply Hfetch in Hinv. clear Hfetch.
  destruct fetched as [posts|e]; [|destruct Hphases as [_ ->]; exact Hinv].
  destruct Hphases as (checked & w2 & Hcheck & Hphases).
  apply (extends_check_posts E (AgentConfig.auto_post config) w) in Hcheck.
  apply Hcheck in Hinv. clear Hcheck.
  destruct checked as [postsToReply|e]; [|destruct Hphases as [_ ->]; exact Hinv].
  destruct Hphases as (replied & w3 & Hreply & Hphases).
  apply (extends_reply_posts E w) in Hreply.
  apply Hreply in Hinv. clear Hreply.
  destruct replied as [drafts|e]; [|destruct Hphases as [_ ->]; exact Hinv].
  destruct Hphases as (created & Hcreate & _).
  apply (extends_original_post E w) in Hcreate.
  apply Hcreate, Hinv.
Qed.

Lemma serve_handler (E : Env) (w w' : World) (r : Response Poll.body) :
  Poll.serve E w = (r, w') ->
  exists r0,
    Poll.handler E w = (r0, w') /\
    r = match r0 with Return body => Ok200 body | Throw e => Error500 e end.
Proof.
  unfold Poll.serve, try_catch. intros H.
  destruct (Poll.handler E w) as [[body|e] w1]; simplify_eq; eauto.
Qed.

(** X16. A scheduled run, however it ends, leaves every draft that was in
    the queue exactly as it was: it writes only to rows it has inserted
    itself. *)
Theorem run_keeps_existing_drafts (E : Env) (w w' : World)
    (r : Response Poll.body) (id : string) (d : Draft.t) :
  Poll.serve E w = (r, w') ->
  post_queue w !! id = Some d ->
  post_queue w' !! id = Some d.
Proof.
  intros H Hd. apply serve_handler in H. destruct H as (r0 & H & _).
  destruct (agent_config w) as [config|] eqn:Hconfig.
  - destruct (handler_extends E w w' r0 config H Hconfig) as [Hrows _].
    specialize (Hrows id). rewrite Hd in Hrows. exact Hrows.
  - apply handler_phases in H.
    destruct H as [(-> & _)|(config & Hconfig' & _)]; [exact Hd|congruence].
Qed.

(** X17. Every draft a scheduled run adds to the queue, also a run that
    fails later, is the first attempt of a lineage rooted at itself: its
    root is its own id, its attempt number is 0, it has a context
    snapshot, no decision time and no final content.  It is pending with
    no posting time, unless the configuration has auto-post on and the
    run published it: then it is posted, with its posting time. *)
Theorem run_creates_rooted_drafts (E : Env) (w w' : World)
    (r : Response Poll.body) (config : AgentConfig.t) (id : string) (d' : Draft.t) :
  Poll.serve E w = (r, w') ->
  agent_config w = Some config ->
  post_queue w !! id = None ->
  post_queue w' !! id = Some d' ->
  Draft.id d' = id /\
  Draft.root_draft_id d' = Some id /\
  Draft.generation_attempt d' = 0 /\
  Draft.context d' <> None /\
  Draft.decided_at d' = None /\
  Draft.final_content d' = None /\
  ((Draft.status d' = pending /\ Draft.posted_at d' = None) \/
   (AgentConfig.auto_post config = true /\
    Draft.status d' = posted /\ Draft.posted_at d' <> None)).
Proof.
  intros H Hconfig Hnew Hd'. apply serve_handler in H. destruct H as (r0 & H & _).
  destruct (handler_extends E w w' r0 config H Hconfig) as [Hrows _].
  specialize (Hrows id). rewrite Hnew in Hrows. exact (Hrows d' Hd').
Qed.

(** X18. The activity log of a scheduled run: the run only appends, and
    every entry it appends is about a draft that was not in the queue
    when the run started; it is a "generated" entry of a reply, or, with
    auto-post on, a "posted" entry.  No entry is written for the
    generation of an original post. *)
Theorem run_log_entries (E : Env) (w w' : World) (r : Response Poll.body)
    (config : AgentConfig.t) :
  Poll.serve E w = (r, w') ->
  agent_config w = Some config ->
  exists entries,
    activity_log w' = (activity_log w ++ entries)%list /\
    forall e, e ∈ entries ->
      post_queue w !! ActivityLogEntry.post_queue_id e = None /\
      ((ActivityLogEntry.action e = "generated" /\
        exists to_post,
          ActivityLogEntry.details e = GeneratedDetails "reply" to_post) \/
       (AgentConfig.auto_post config = true /\
        ActivityLogEntry.action e = "posted" /\
        exists moltbookId, ActivityLogEntry.details e = PostedDetails moltbookId)).
Proof.
  intros H Hconfig. apply serve_handler in H. destruct H as (r0 & H & _).
  destruct (handler_extends E w w' r0 config H Hconfig)
    as (_ & entries & Hlog & Hall).
  exists entries. split; [exact Hlog|].
  rewrite Forall_forall in Hall. exact Hall.
Qed.

(** *** The number of drafts a run creates *)

Lemma size_alter (f : Draft.t -> Draft.t) (id : string) (q : gmap string Draft.t) :
  size (alter f id q) = size q.
Proof.
  rewrite <- !(size_dom (D := gset string)). rewrite dom_alter_L. reflexivity.
Qed.

Lemma SameSize_refl (w : World) : SameSize w w.
Proof. reflexivity. Qed.

Lemma SameSize_trans (a b c : World) : SameSize a b -> SameSize b c -> SameSize a c.
Proof. unfold SameSize. congruence. Qed.

Lemma same_size_now (E : Env) : keeps SameSize (now E).
Proof. intros w r w' H. unfold now in H. simplify_eq. reflexivity. Qed.

Lemma same_size_random_index (E : Env) (n : nat) :
  keeps SameSize (Poll.random_index E n).
Proof. intros w r w' H. unfold Poll.random_index in H. simplify_eq. reflexivity. Qed.

Lemma same_size_log_activity (e : ActivityLogEntry.t) : keeps SameSize (log_activity e).
Proof. intros w r w' H. unfold log_activity in H. simplify_eq. reflexivity. Qed.

Lemma same_size_upsert_seen_post (id : string) : keeps SameSize (upsert_seen_post id).
Proof. intros w r w' H. unfold upsert_seen_post in H. simplify_eq. reflexivity. Qed.

Lemma same_size_fetch_publish (E : Env) (r : PublishRequest) :
  keeps SameSize (fetch_publish E r).
Proof. intros w o w' H. unfold fetch_publish in H. simplify_eq. reflexivity. Qed.

Lemma same_size_fetch_feed (E : Env) (submolt : string) :
  keeps SameSize (fetch_feed E submolt).
Proof.
  intros w o w' H. unfold fetch_feed in H.
  destruct (feed E (tick w) submolt); simplify_eq; reflexivity.
Qed.

Lemma same_size_openaiChat (E : Env) (r : Chat.request) :
  keeps SameSize (openaiChat E r).
Proof.
  intros w o w' H. unfold openaiChat in H.
  destruct (openai E (tick w) r); simplify_eq; reflexivity.
Qed.

Lemma same_size_update_draft (p : Patch.t) (id : string) :
  keeps SameSize (update_draft p id).
Proof.
  intros w r w' H. unfold update_draft in H. simplify_eq.
  unfold SameSize. simpl. apply size_alter.
Qed.

#[local] Hint Resolve same_size_now same_size_random_index same_size_log_activity
  same_size_upsert_seen_post same_size_fetch_publish same_size_fetch_feed
  same_size_openaiChat same_size_update_draft : keeps.

Ltac keeps_same_size := keeps_steps SameSize_refl SameSize_trans.

Lemma same_size_postToMoltbook (E : Env) (queueId apiKey : string) :
  keeps SameSize (Poll.postToMoltbook E queueId apiKey).
Proof. unfold Poll.postToMoltbook, select_draft. keeps_same_size. Qed.

Lemma same_size_fetch_posts (E : Env) (submolts : list string) :
  forall posts, keeps SameSize (Poll.fetch_posts E submolts posts).
Proof.
  induction submolts as [|submolt rest IH]; intros posts; simpl; keeps_same_size.
Qed.

Lemma same_size_check_posts (E : Env) (apiKey : string) (config : AgentConfig.t)
    (batch : list MoltbookPost.t) :
  forall postsToReply,
    keeps SameSize (Poll.check_posts E apiKey config batch postsToReply).
Proof.
  induction batch as [|p rest IH]; intros postsToReply; simpl.
  - keeps_same_size.
  - unfold Poll.checkRelevance. keeps_same_size.
Qed.

(** What an insert that returns does to the size of the queue. *)
Lemma insert_draft_size (E : Env) (c : Insert.t) (w w' : World)
    (inserted : option Draft.t) :
  insert_draft E c w = (Return inserted, w') ->
  size (post_queue w')
  = (size (post_queue w) + match inserted with Some _ => 1 | None => 0 end)%nat.
Proof.
  unfold insert_draft. intros H.
  destruct (post_queue w !! gen_random_uuid E (tick w)) eqn:Hnew; simplify_eq; simpl.
  - lia.
  - rewrite map_size_insert_None by assumption. lia.
Qed.

(** The drafts the loops push are the rows they add. *)
Lemma reply_posts_count (E : Env) (openaiApiKey moltbookApiKey : string)
    (config : AgentConfig.t) (postsToReply : list MoltbookPost.t) :
  forall drafts drafts' w w',
    Poll.reply_posts E openaiApiKey moltbookApiKey config postsToReply drafts w
    = (Return drafts', w') ->
    (length drafts' + size (post_queue w) = length drafts + size (post_queue w'))%nat.
Proof.
  induction postsToReply as [|p rest IH]; intros drafts drafts' w w' H; simpl in H.
  - inv_step H. reflexivity.
  - inv_bind H. apply same_size_openaiChat in Hstep. rename Hstep into H1.
    inv_bind H. apply same_size_now in Hstep. rename Hstep into H2.
    inv_bind H. apply insert_draft_size in Hstep. rename Hstep into H3.
    unfold SameSize in *.
    destruct a1 as [inserted|].
    + pose proof (same_size_postToMoltbook E) as Hpost.
      inv_bind H. apply same_size_update_draft in Hstep. rename Hstep into H4.
      inv_bind H. apply same_size_log_activity in Hstep. rename Hstep into H5.
      inv_bind H.
      match type of Hstep with
      | ?m _ = _ => assert (keeps SameSize m) as Hk by keeps_same_size
      end.
      apply Hk in Hstep. unfold SameSize in *.
      apply IH in H. rewrite length_app in H. simpl in H. lia.
    + apply IH in H. lia.
Qed.

Lemma original_post_count (E : Env) (openaiApiKey moltbookApiKey : string)
    (config : AgentConfig.t) (drafts drafts' : list Draft.t) (w w' : World) :
  Poll.original_post E openaiApiKey moltbookApiKey config drafts w
  = (Return drafts', w') ->
  (length drafts' + size (post_queue w) = length drafts + size (post_queue w'))%nat.
Proof.
  unfold Poll.original_post. intros H.
  inv_bind H.
  assert (keeps SameSize (Poll.minutesSinceLastPost E)) as Hk
      by (unfold Poll.minutesSinceLastPost; keeps_same_size).
  apply Hk in Hstep. rename Hstep into H0. clear Hk. unfold SameSize in *.
  destruct (Poll.minutes_ge _ _); [|inv_step H; lia].
  unfold Poll.create_original_post in H.
  inv_bind H.
  assert (keeps SameSize (Poll.generateOriginalPost E openaiApiKey config)) as Hk
      by (unfold Poll.generateOriginalPost; keeps_same_size).
  apply Hk in Hstep. rename Hstep into H1. clear Hk.
  destruct a0 as [[title content] submolt].
  inv_bind H. apply same_size_now in Hstep. rename Hstep into H2.
  inv_bind H. apply insert_draft_size in Hstep. rename Hstep into H3.
  unfold SameSize in *.
  destruct a1 as [inserted|].
  - pose proof (same_size_postToMoltbook E) as Hpost.
    inv_bind H. apply same_size_update_draft in Hstep. rename Hstep into H4.
    inv_bind H.
    match type of Hstep with
    | ?m _ = _ => assert (keeps SameSize m) as Hk by keeps_same_size
    end.
    apply Hk in Hstep. unfold SameSize in *.
    inv_step H. rewrite length_app. simpl. lia.
  - inv_step H. lia.
Qed.

(** X19. The [drafts_created] of the answer of a scheduled run that
    completes is the number of rows the run added to the queue, replies
    and original post together: the queue has that many rows more than
    when the run started, and none fewer. *)
Theorem drafts_created_counts_new_rows (E : Env) (w w' : World) (body : Poll.body) :
  Poll.serve E w = (Ok200 body, w') ->
  size (post_queue w') = (size (post_queue w) + Poll.drafts_created body)%nat.
Proof.
  intros H. apply try_catch_Ok200, handler_phases in H.
  destruct H as [(_ & e & He)|(config & _ & Hphases)]; [discriminate|].
  cbv zeta in Hphases.
  destruct Hphases as ([posts|e] & w1 & Hfetch & Hphases);
    [|destruct Hphases; discriminate].
  destruct Hphases as ([postsToReply|e] & w2 & Hcheck & Hphases);
    [|destruct Hphases; discriminate].
  destruct Hphases as ([drafts|e] & w3 & Hreply & Hphases);
    [|destruct Hphases; discriminate].
  destruct Hphases as ([drafts'|e] & Hcreate & Hbody); [|discriminate].
  apply same_size_fetch_posts in Hfetch. apply same_size_check_posts in Hcheck.
  apply reply_posts_count in Hreply. apply original_post_count in Hcreate.
  unfold SameSize in *. injection Hbody as ->. simpl in *. lia.
Qed.

(** *** Runs with auto-post off *)

Section Quiet.
Context (E : Env) (config : AgentConfig.t).
Context (Hauto : AgentConfig.auto_post config = false).

Lemma quiet_auto_post (queueId apiKey : string) :
  keeps (Sends (fun o => is_publish o = false))
    (if AgentConfig.auto_post config
     then Poll.postToMoltbook E queueId apiKey
     else ret tt).
Proof. rewrite Hauto. apply keeps_ret. apply Sends_refl. Qed.

Lemma quiet_reply_posts (openaiApiKey moltbookApiKey : string)
    (postsToReply : list MoltbookPost.t) :
  forall drafts,
    keeps (Sends (fun o => is_publish o = false))
      (Poll.reply_posts E openaiApiKey moltbookApiKey config postsToReply drafts).
Proof.
  induction postsToReply as [|p rest IH]; intros drafts; simpl.
  - keeps_sends (fun o => is_publish o = false).
  - unfold Poll.generateReply.
    pose proof quiet_auto_post as Hpost.
    assert (keeps (Sends (fun o => is_publish o = false))
              (openaiChat E (Poll.reply_request openaiApiKey p config)))
      as Hask by (apply sends_openaiChat; reflexivity).
    keeps_sends (fun o => is_publish o = false).
Qed.

Lemma quiet_original_post (openaiApiKey moltbookApiKey : string)
    (drafts : list Draft.t) :
  keeps (Sends (fun o => is_publish o = false))
    (Poll.original_post E openaiApiKey moltbookApiKey config drafts).
Proof.
  unfold Poll.original_post, Poll.minutesSinceLastPost, Poll.create_original_post,
    Poll.generateOriginalPost.
  pose proof quiet_auto_post as Hpost.
  assert (forall submolt,
            keeps (Sends (fun o => is_publish o = false))
              (openaiChat E (Poll.original_post_request openaiApiKey config submolt)))
    as Hask by (intros submolt; apply sends_openaiChat; reflexivity).
  keeps_sends (fun o => is_publish o = false).
Qed.

End Quiet.

Lemma quiet_run (E : Env) (w w' : World) (r : Outcome Poll.body)
    (config : AgentConfig.t) :
  Poll.handler E w = (r, w') ->
  agent_config w = Some config ->
  AgentConfig.auto_post config = false ->
  Sends (fun o => is_publish o = false) w w'.
Proof.
  intros H Hconfig Hauto. apply handler_phases in H.
  set (P := fun o => is_publish o = false).
  destruct H as [(-> & _)|(config' & Hconfig' & Hphases)]; [apply Sends_refl|].
  rewrite Hconfig in Hconfig'. injection Hconfig' as <-. cbv zeta in Hphases.
  destruct Hphases as (fetched & w1 & Hfetch & Hphases).
  assert (Sends P w w1) as H1.
  { eapply sends_fetch_posts; [|exact Hfetch]. reflexivity. }
  destruct fetched as [posts|e]; [|destruct Hphases as [_ ->]; exact H1].
  destruct Hphases as (checked & w2 & Hcheck & Hphases).
  assert (Sends P w1 w2) as H2.
  { eapply sends_check_posts; [|exact Hcheck]. reflexivity. }
  apply (Sends_trans P _ _ _ H1). clear H1.
  destruct checked as [postsToReply|e]; [|destruct Hphases as [_ ->]; exact H2].
  destruct Hphases as (replied & w3 & Hreply & Hphases).
  apply (quiet_reply_posts E config Hauto) in Hreply.
  apply (Sends_trans P _ _ _ H2). clear H2.
  destruct replied as [drafts|e]; [|destruct Hphases as [_ ->]; exact Hreply].
  destruct Hphases as (created & Hcreate & _).
  apply (Sends_trans P _ _ _ Hreply).
  apply (quiet_original_post E config Hauto) in Hcreate. exact Hcreate.
Qed.

(** X20. With auto-post off a scheduled run publishes nothing, however it
    ends: no publish call is among the requests it sent, every draft it
    added to the queue is pending, and every entry it appended to the
    activity log is a "generated" entry. *)
Theorem run_without_auto_post_publishes_nothing (E : Env) (w w' : World)
    (r : Response Poll.body) (config : AgentConfig.t) (sent : list Outbound) :
  Poll.serve E w = (r, w') ->
  agent_config w = Some config ->
  AgentConfig.auto_post config = false ->
  outbound w' = (outbound w ++ sent)%list ->
  (forall o, o ∈ sent -> is_publish o = false) /\
  (forall id d', post_queue w !! id = None -> post_queue w' !! id = Some d' ->
     Draft.status d' = pending /\ Draft.posted_at d' = None) /\
  (exists entries,
     activity_log w' = (activity_log w ++ entries)%list /\
     forall e, e ∈ entries -> ActivityLogEntry.action e = "generated").
Proof.
  intros H Hconfig Hauto Hsent. apply serve_handler in H.
  destruct H as (r0 & H & _).
  destruct (handler_extends E w w' r0 config H Hconfig)
    as (Hrows & entries & Hlog & Hall).
  split; [|split].
  - apply (Sends_elem _ w w'); [|exact Hsent]. eapply quiet_run; eassumption.
  - intros id d' Hnew Hd'. specialize (Hrows id). rewrite Hnew in Hrows.
    destruct (Hrows d' Hd') as (_ & _ & _ & _ & _ & _ & [Hp|(Ha & _)]);
      [exact Hp|congruence].
  - exists entries. split; [exact Hlog|]. intros e He.
    rewrite Forall_forall in Hall. destruct (Hall e He) as [_ [[Hg _]|(Ha & _)]];
      [exact Hg|congruence].
Qed.

(** *** Publishing from the scheduled run *)

(** X21. When the publish call of an auto-post is answered ok with a body
    that parses, the draft becomes posted: its posting time is set, the
    remote id of the answer is recorded in the column of its type, what
    was generated and the decision time are as before, and the activity
    log gains one "posted" entry.  From then on the draft is closed to
    decisions: a decision on it is refused as already processed, with
    status posted. *)
Theorem auto_post_records_and_closes (E E' : Env) (queueId apiKey : string)
    (w : World) (draft : Draft.t) (moltbookId : option string)
    (decision : Decision.request) :
  post_queue w !! queueId = Some draft ->
  let request := Poll.publish_request apiKey draft in
  let response := publish E (tick w) request in
  Fetch.ok response = true ->
  Fetch.json response = Some moltbookId ->
  exists w' d',
    Poll.postToMoltbook E queueId apiKey w = (Return tt, w') /\
    outbound w' = (outbound w ++ [ToPublish request])%list /\
    post_queue w' !! queueId = Some d' /\
    Draft.status d' = posted /\
    Draft.posted_at d' = Some (Date_now E (S (tick w))) /\
    Draft.decided_at d' = Draft.decided_at draft /\
    Draft.final_content d' = Draft.final_content draft /\
    generated_columns draft d' /\
    (forall i, moltbookId = Some i ->
       match Draft.type draft with
       | Post => Draft.moltbook_post_id d' = Some i
       | Reply => Draft.moltbook_comment_id d' = Some i
       end) /\
    activity_log w'
    = (activity_log w ++
         [{| ActivityLogEntry.action := "posted";
             ActivityLogEntry.post_queue_id := queueId;
             ActivityLogEntry.details := PostedDetails moltbookId |}])%list /\
    (Decision.draft_id decision = Some queueId -> queueId <> "" ->
     Decision.is_action (Decision.action decision) = true ->
     Decision.serve E' decision w'
     = (Error500 (Decision.already_processed posted), w')).
Proof.
  intros Hd request response Hok Hjson.
  pose proof (postToMoltbook_answer E queueId apiKey w draft moltbookId Hd Hjson)
    as Hrun.
  cbv zeta in Hrun. fold request in Hrun. fold response in Hrun.
  rewrite Hok in Hrun.
  eexists. exists (Patch.apply (Poll.posted_patch draft moltbookId
                                  (Date_now E (S (tick w)))) draft).
  split; [exact Hrun|].
  assert (forall w',
            post_queue w'
            = alter (Patch.apply (Poll.posted_patch draft moltbookId
                                    (Date_now E (S (tick w))))) queueId (post_queue w) ->
            post_queue w' !! queueId
            = Some (Patch.apply (Poll.posted_patch draft moltbookId
                                   (Date_now E (S (tick w)))) draft)) as Hrow.
  { intros w' ->. rewrite lookup_alter_eq, Hd. reflexivity. }
  split; [simpl; rewrite app_nil_r; reflexivity|].
  split; [apply Hrow; reflexivity|].
  do 4 (split; [reflexivity|]).
  split; [repeat split|].
  split; [intros i ->; simpl; destruct (Draft.type draft); reflexivity|].
  split; [reflexivity|].
  intros Hid Hne Hact.
  apply (decision_not_pending E' decision _ queueId
           (Patch.apply (Poll.posted_patch draft moltbookId
                           (Date_now E (S (tick w)))) draft));
    try assumption.
  - apply Hrow. reflexivity.
  - simpl. discriminate.
Qed.

(** X22. The publish step of the scheduled run changes no row but the one
    it is given, and a row that is not in the queue makes it return at
    once, with nothing sent.  It throws in one case only: the body of the
    answer does not parse; the draft is then as it was, whether the call
    had been accepted or refused. *)
Theorem postToMoltbook_touches_one_row (E : Env) (queueId apiKey : string)
    (w w' : World) (r : Outcome unit) :
  Poll.postToMoltbook E queueId apiKey w = (r, w') ->
  (forall id, id <> queueId -> post_queue w' !! id = post_queue w !! id) /\
  (post_queue w !! queueId = None -> r = Return tt /\ w' = w) /\
  (forall e, r = Throw e ->
     exists draft,
       post_queue w !! queueId = Some draft /\
       Fetch.json (publish E (tick w) (Poll.publish_request apiKey draft)) = None /\
       post_queue w' = post_queue w /\
       activity_log w' = activity_log w).
Proof.
  unfold Poll.postToMoltbook, bind, select_draft, fetch_publish, now, update_draft,
    log_activity, ret, throw.
  intros H.
  destruct (post_queue w !! queueId) as [draft|] eqn:Hd.
  2:{ simplify_eq. split; [reflexivity|]. split; [auto|]. intros e He. discriminate. }
  cbn [tick interact] in H.
  destruct (Fetch.json (publish E (tick w) (Poll.publish_request apiKey draft)))
    as [moltbookId|] eqn:Hjson.
  - destruct (Fetch.ok (publish E (tick w) (Poll.publish_request apiKey draft)));
      simplify_eq; simpl.
    + split; [intros id Hne; apply lookup_alter_ne; congruence|].
      split; [discriminate|]. intros e He. discriminate.
    + split; [reflexivity|]. split; [discriminate|]. intros e He. discriminate.
  - simplify_eq. simpl. split; [reflexivity|]. split; [discriminate|].
    intros e He. exists draft. auto.
Qed.

(** *** The drafts of the scheduled run *)

Lemma replies_to_cons (E : Env) (openaiApiKey : string) (config : AgentConfig.t)
    (p : MoltbookPost.t) (rest : list MoltbookPost.t) (inserted : Draft.t) :
  replies_to E openaiApiKey config rest inserted ->
  replies_to E openaiApiKey config (p :: rest) inserted.
Proof.
  intros (post & n & completion & Hpost & Hrest).
  exists post, n, completion. split; [right; exact Hpost|exact Hrest].
Qed.

Lemma reply_posts_drafts (E : Env) (openaiApiKey moltbookApiKey : string)
    (config : AgentConfig.t) (postsToReply : list MoltbookPost.t) :
  forall drafts drafts' w w',
    Poll.reply_posts E openaiApiKey moltbookApiKey config postsToReply drafts w
    = (Return drafts', w') ->
    exists new,
      drafts' = (drafts ++ new)%list /\
      (length new <= length postsToReply)%nat /\
      Forall (replies_to E openaiApiKey config postsToReply) new.
Proof.
  induction postsToReply as [|p rest IH]; intros drafts drafts' w w' H; simpl in H.
  - inv_step H. exists []. rewrite app_nil_r. split; [reflexivity|].
    split; [reflexivity|constructor].
  - inv_bind H. unfold Poll.generateReply, openaiChat in Hstep.
    destruct (openai E (tick w) (Poll.reply_request openaiApiKey p config))
      as [completion|status body] eqn:Hanswer; [|discriminate].
    injection Hstep as <- <-.
    inv_bind H. unfold now in Hstep. injection Hstep as <- <-.
    inv_bind H. unfold insert_draft in Hstep. cbn [tick interact post_queue] in Hstep.
    destruct (post_queue w !! gen_random_uuid E (S (S (tick w)))) eqn:Hnew;
      injection Hstep as <- <-.
    + apply IH in H. destruct H as (new & -> & Hlen & Hall).
      exists new. split; [reflexivity|]. split; [simpl; lia|].
      eapply Forall_impl; [exact Hall|]. apply replies_to_cons.
    + inv_bind H. inv_bind H. inv_bind H.
      apply IH in H. destruct H as (new & -> & Hlen & Hall).
      eexists (_ :: new). rewrite <- app_assoc. split; [reflexivity|].
      split; [simpl; lia|].
      constructor.
      * exists p, (tick w), completion. split; [left|].
        split; [exact Hanswer|]. simpl. repeat split.
      * eapply Forall_impl; [exact Hall|]. apply replies_to_cons.
Qed.

(** X23. Every draft the reply loop pushes is a reply to one of the posts
    it was given: its reply target and its submolt are those of the post,
    its content is a completion the generator gave for the reply request
    of that post, and its context is a snapshot of the post, id, title,
    content, author and submolt, stamped with the generation time.  At
    most one draft is pushed per post. *)
Theorem reply_drafts_snapshot_their_post (E : Env)
    (openaiApiKey moltbookApiKey : string) (config : AgentConfig.t)
    (postsToReply : list MoltbookPost.t) (drafts drafts' : list Draft.t)
    (w w' : World) :
  Poll.reply_posts E openaiApiKey moltbookApiKey config postsToReply drafts w
  = (Return drafts', w') ->
  exists new,
    drafts' = (drafts ++ new)%list /\
    (length new <= length postsToReply)%nat /\
    forall inserted, inserted ∈ new ->
      exists post n completion,
        post ∈ postsToReply /\
        openai E n (Poll.reply_request openaiApiKey post config)
        = Chat.Ok completion /\
        Draft.type inserted = Reply /\
        Draft.content inserted = Some completion /\
        Draft.title inserted = None /\
        Draft.reply_to_post_id inserted = Some (MoltbookPost.id post) /\
        Draft.reply_to_comment_id inserted = None /\
        Draft.submolt inserted = Some (MoltbookPost.submolt post) /\
        Draft.status inserted = pending /\
        Draft.generation_attempt inserted = 0 /\
        Draft.context inserted
        = Some {| Context.original_post :=
                    Some {| Context.id := MoltbookPost.id post;
                            Context.title := MoltbookPost.title post;
                            Context.content := MoltbookPost.content post;
                            Context.author := MoltbookPost.author post;
                            Context.submolt := MoltbookPost.submolt post |};
                  Context.generated_at := Date_now E (S n);
                  Context.trigger := None |}.
Proof.
  intros H. apply reply_posts_drafts in H. destruct H as (new & Hnew & Hlen & Hall).
  exists new. split; [exact Hnew|]. split; [exact Hlen|].
  rewrite Forall_forall in Hall. exact Hall.
Qed.

(** X24. The original post of the cooldown step.  The generator is asked
    for JSON and its completion must parse: a completion that does not is
    fatal here, the step throws with nothing inserted and nothing logged,
    unlike a regeneration, which falls back to the raw text.  When the
    step pushes a draft, the draft is a pending post for the submolt that
    was drawn among the targets (none when the list is empty), with the
    title and the content of the parsed completion and a context that
    says the trigger was the schedule. *)
Theorem original_post_of_completion (E : Env) (openaiApiKey moltbookApiKey : string)
    (config : AgentConfig.t) (drafts : list Draft.t) (w : World) :
  let targets := AgentConfig.target_submolts config in
  let submolt := targets !! Math_random_index E (tick w) (length targets) in
  let request := Poll.original_post_request openaiApiKey config submolt in
  (forall completion,
     openai E (S (tick w)) request = Chat.Ok completion ->
     JSON_parse E completion = None ->
     exists e w',
       Poll.create_original_post E openaiApiKey moltbookApiKey config drafts w
       = (Throw e, w') /\
       post_queue w' = post_queue w /\
       activity_log w' = activity_log w /\
       outbound w' = (outbound w ++ [ToOpenAI request])%list) /\
  (forall drafts' w',
     Poll.create_original_post E openaiApiKey moltbookApiKey config drafts w
     = (Return drafts', w') ->
     drafts' = drafts \/
     exists inserted completion,
       drafts' = (drafts ++ [inserted])%list /\
       openai E (S (tick w)) request = Chat.Ok completion /\
       Draft.type inserted = Post /\
       Draft.status inserted = pending /\
       Draft.submolt inserted = submolt /\
       match JSON_parse E completion with
       | Some (ParsedValue title content) =>
           Draft.title inserted = title /\ Draft.content inserted = content
       | Some ParsedNull =>
           Draft.title inserted = None /\ Draft.content inserted = None
       | None => False
       end /\
       Draft.reply_to_post_id inserted = None /\
       Draft.context inserted
       = Some {| Context.original_post := None;
                 Context.generated_at := Date_now E (S (S (tick w)));
                 Context.trigger := Some "scheduled" |}).
Proof.
  intros targets submolt request. split.
  - intros completion Hanswer Hparse.
    unfold Poll.create_original_post, Poll.generateOriginalPost, bind,
      Poll.random_index, openaiChat, throw.
    cbn [tick interact]. fold targets. fold submolt. fold request.
    rewrite Hanswer, Hparse. eexists. eexists. split; [reflexivity|].
    simpl. rewrite app_nil_r. auto.
  - intros drafts' w' H. unfold Poll.create_original_post in H.
    inv_bind H. unfold Poll.generateOriginalPost in Hstep.
    inv_bind Hstep. unfold Poll.random_index in Hstep0. injection Hstep0 as <- <-.
    fold targets in Hstep. fold submolt in Hstep.
    inv_bind Hstep. unfold openaiChat in Hstep0. cbn [tick interact] in Hstep0.
    fold request in Hstep0.
    destruct (openai E (S (tick w)) request) as [completion|status body] eqn:Hanswer;
      [|discriminate].
    injection Hstep0 as <- <-.
    destruct a as [[title content] submolt'].
    inv_bind H. unfold now in Hstep0. injection Hstep0 as <- <-.
    inv_bind H. unfold insert_draft in Hstep0.
    match type of Hstep0 with
    | context [post_queue ?w3 !! ?k] => destruct (post_queue w3 !! k)
    end; injection Hstep0 as <- <-.
    { inv_step H. left. reflexivity. }
    inv_bind H. inv_bind H. inv_step H. right.
    eexists. exists completion. split; [reflexivity|]. split; [reflexivity|].
    destruct (JSON_parse E completion) as [[|title' content']|]; inv_step Hstep;
      simpl; repeat split.
Qed.

(** X25. The cooldown test in milliseconds.  The run compares the quotient
    of the elapsed milliseconds by 60000 with the configured minutes; this
    holds exactly when the clock has reached the creation time of the last
    post plus the cooldown, so a cooldown of zero or less is always met
    once the last post is in the past, and a test that is met stays met
    as the clock advances.  Without a last post the elapsed time is
    infinite and the test is met for every cooldown. *)
Theorem cooldown_in_milliseconds (now last frequency : Z) :
  (Poll.minutes_ge (Poll.minutesSince now last) frequency = true <->
   last + frequency * 60000 <= now) /\
  Poll.minutes_ge Poll.Infinity frequency = true /\
  (forall later,
     now <= later ->
     Poll.minutes_ge (Poll.minutesSince now last) frequency = true ->
     Poll.minutes_ge (Poll.minutesSince later last) frequency = true).
Proof.
  assert (forall t, Poll.minutes_ge (Poll.minutesSince t last) frequency = true <->
                    last + frequency * 60000 <= t) as Hms.
  { intros t. unfold Poll.minutes_ge, Poll.minutesSince.
    rewrite Qle_bool_iff. unfold Qle. simpl. lia. }
  split; [apply Hms|]. split; [reflexivity|].
  intros later Hle H. apply Hms. apply Hms in H. lia.
Qed.

(** ** The further properties at concrete worlds *)

(** An approve of the pending reply d1, published. *)
Lemma decision_answers_200_iff_witness :
  let E := Scenario.env Scenario.published (Chat.Ok "yes") in
  exists b w',
    Decision.serve E (Scenario.decide "approve" None) (Scenario.one_draft pending)
    = (Ok200 b, w').
Proof.
  intros E.
  apply (proj2 (decision_answers_200_iff E (Scenario.decide "approve" None)
                  (Scenario.one_draft pending))).
  exists "d1", (Scenario.draft "d1" Reply pending (Scenario.clock0 - 60 * 60000)).
  split; [reflexivity|]. split; [discriminate|]. split; [reflexivity|].
  split; [vm_compute; reflexivity|]. split; [reflexivity|].
  right. cbv zeta. split; [reflexivity|]. split; [reflexivity|]. discriminate.
Defined.

(** An approve whose publish call is accepted with a body that does not
    parse: the answer is an error and nothing is written. *)
Lemma decision_error_commits_nothing_witness :
  let E := Scenario.env Cases.garbled (Chat.Ok "yes") in
  let w := Scenario.one_draft pending in
  let w' := snd (Decision.serve E (Scenario.decide "approve" None) w) in
  fst (Decision.serve E (Scenario.decide "approve" None) w)
  = Error500 "Unexpected token in JSON" /\
  post_queue w' = post_queue w /\
  activity_log w' = activity_log w /\
  seen_posts w' = seen_posts w /\
  agent_config w' = agent_config w.
Proof.
  intros E w w'. split; [vm_compute; reflexivity|].
  apply (decision_error_commits_nothing E (Scenario.decide "approve" None) w w'
           "Unexpected token in JSON").
  vm_compute. reflexivity.
Defined.

(** An edit of d1 with a new content: one publish call, a comment on the
    post replied to, with the edited content. *)
Lemma decision_publishes_only_pending_witness :
  let E := Scenario.env Scenario.published (Chat.Ok "yes") in
  let w := Scenario.one_draft pending in
  let w' := snd (Decision.serve E (Scenario.decide "edit" (Some "Edited text")) w) in
  outbound w'
  = [ToPublish (CreateComment (Some "moltbook-key") (Some "p0") (Some "Edited text"))]
  /\
  (outbound w' = outbound w \/
   exists id d,
     Some "d1" = Some id /\
     post_queue w !! id = Some d /\ Draft.status d = pending /\
     (Some "edit" = Some "approve" \/ Some "edit" = Some "edit") /\
     JS.truthy (agent_config w ≫= AgentConfig.api_key) = true /\
     outbound w'
     = (outbound w ++
          [ToPublish
             (Decision.publish_request (agent_config w ≫= AgentConfig.api_key) d
                (JS.or None (Draft.title d))
                (JS.or (Some "Edited text") (Draft.content d)))])%list).
Proof.
  intros E w w'. split; [vm_compute; reflexivity|].
  apply (decision_publishes_only_pending E
           (Scenario.decide "edit" (Some "Edited text")) w w'
           (fst (Decision.serve E (Scenario.decide "edit" (Some "Edited text")) w))).
  vm_compute. reflexivity.
Defined.

(** The same edit: the row, the log and the answer all say edited. *)
Lemma decision_records_agree_witness :
  let E := Scenario.env Scenario.published (Chat.Ok "yes") in
  let w := Scenario.one_draft pending in
  let request := Scenario.decide "edit" (Some "Edited text") in
  let w' := snd (Decision.serve E request w) in
  exists d' entry,
    post_queue w' !! "d1" = Some d' /\
    activity_log w' = [entry] /\
    Draft.status d' = edited /\
    ActivityLogEntry.action entry = "edited" /\
    ActivityLogEntry.details entry = DecidedDetails (Some "m1") true.
Proof.
  intros E w request w'.
  destruct (decision_records_agree E request w w'
              (Decision.Published "edited" (Some "m1")
                 "https://www.moltbook.com/m/general/p0#m1"))
    as (id & d' & entry & Hid & Hd' & Hlog & _ & Haction & Hb & Hdetails).
  { vm_compute. reflexivity. }
  injection Hid as <-. exists d', entry. split; [exact Hd'|].
  split; [exact Hlog|].
  assert (Draft.status d' = edited) as Hst.
  { destruct (Draft.status d'); try discriminate. reflexivity. }
  split; [exact Hst|]. split; [rewrite Haction, Hst; reflexivity|].
  rewrite Hdetails, Hst. reflexivity.
Defined.

(** An edit of the post d2 with a new title and a new content: the
    generated title and content stay in the row. *)
Lemma decision_keeps_generated_text_witness :
  let E := Scenario.env Scenario.published (Chat.Ok "yes") in
  let w := Cases.one_post in
  let request := Cases.decide "d2" "edit" (Some "Edited text") (Some "Edited title") in
  let w' := snd (Decision.serve E request w) in
  exists d',
    post_queue w' !! "d2" = Some d' /\
    Draft.title d' = Some "On tools" /\
    Draft.content d' = Some "Tools shape the agent." /\
    Draft.final_content d' = Some "Edited text" /\
    last (outbound w')
    = Some (ToPublish (CreatePost (Some "moltbook-key") (Some "general")
                         (Some "Edited title") (Some "Edited text"))).
Proof.
  intros E w request w'.
  destruct (decision_keeps_generated_text E request w w'
              (Decision.Published "edited" (Some "m1")
                 "https://www.moltbook.com/m/general/m1"))
    as (id & d & d' & Hid & Hd & Hd' & Hcolumns & _).
  { vm_compute. reflexivity. }
  injection Hid as <-. vm_compute in Hd. injection Hd as <-.
  destruct Hcolumns as (_ & _ & Htitle & Hcontent & _).
  exists d'. split; [exact Hd'|]. split; [exact Htitle|]. split; [exact Hcontent|].
  assert ((Draft.final_content <$> post_queue w' !! "d2") = Some (Some "Edited text"))
    as Hfinal by (vm_compute; reflexivity).
  rewrite Hd' in Hfinal. injection Hfinal as ->.
  split; [reflexivity|]. vm_compute. reflexivity.
Defined.

(** Scenario 3 of the specification: the regeneration of d1 is carried
    out, so its conditions were met. *)
Lemma regeneration_answers_200_iff_witness :
  let E := Scenario.env Scenario.published (Chat.Ok "yes") in
  let w := Scenario.one_draft pending in
  exists id d request response,
    Regenerate.draft_id Scenario.regenerate = Some id /\ id <> "" /\
    JS.truthy (OPENAI_API_KEY w) = true /\
    post_queue w !! id = Some d /\
    regeneration_request Scenario.regenerate id d w = Some request /\
    openai E (tick w) request = Chat.Ok response /\
    post_queue w !! gen_random_uuid E (S (S (tick w))) = None.
Proof.
  intros E w.
  apply (proj1 (regeneration_answers_200_iff E Scenario.regenerate w)).
  destruct (Regenerate.serve E Scenario.regenerate w) as [r w'] eqn:Hserve.
  assert (exists newDraft, r = Ok200 newDraft) as [newDraft ->].
  { apply (f_equal fst) in Hserve. vm_compute in Hserve. subst r. eauto. }
  exists newDraft, w'. reflexivity.
Defined.

(** A regeneration of d1 whose new row is refused, the id drawn being
    taken: the answer is an error, nothing is logged, and d1 is left
    superseded. *)
Lemma regeneration_error_commits_witness :
  let E := Scenario.env Scenario.published (Chat.Ok "yes") in
  let w := Cases.crowded in
  let w' := snd (Regenerate.serve E Scenario.regenerate w) in
  fst (Regenerate.serve E Scenario.regenerate w)
  = Error500 "duplicate key value violates unique constraint" /\
  activity_log w' = activity_log w /\
  (Draft.status <$> post_queue w' !! "d1") = Some superseded /\
  size (post_queue w') = size (post_queue w).
Proof.
  intros E w w'. split; [vm_compute; reflexivity|].
  destruct (regeneration_error_commits E Scenario.regenerate w w'
              "duplicate key value violates unique constraint")
    as (Hlog & _ & _ & _ & Hqueue).
  { vm_compute. reflexivity. }
  split; [exact Hlog|].
  destruct Hqueue as [Hsame|(id & d & request & response & Hid & _ & _ & _ & _ & Hq
                              & Hstatus)].
  - exfalso.
    assert ((Draft.status <$> post_queue w' !! "d1") = Some superseded) as Hst
        by (vm_compute; reflexivity).
    rewrite Hsame in Hst. vm_compute in Hst. discriminate.
  - injection Hid as <-. split; [exact Hstatus|].
    rewrite Hq. apply size_alter.
Defined.

(** A regeneration of the post d2 whose completion is not JSON: the
    completion becomes the content, under the title of d2. *)
Lemma regenerated_texts_of_completion_witness :
  let E := Cases.env_raw Scenario.published in
  let w := Cases.one_post in
  exists newDraft w',
    Regenerate.serve E (Cases.regenerate "d2") w = (Ok200 newDraft, w') /\
    Draft.content newDraft = Some "Just some prose." /\
    Draft.title newDraft = Some "On tools".
Proof.
  intros E w.
  destruct (Regenerate.serve E (Cases.regenerate "d2") w) as [r w'] eqn:Hserve.
  assert (exists newDraft, r = Ok200 newDraft) as [newDraft ->].
  { apply (f_equal fst) in Hserve. vm_compute in Hserve. subst r. eauto. }
  exists newDraft, w'. split; [reflexivity|].
  destruct (regenerated_texts_of_completion E (Cases.regenerate "d2") w w' newDraft
              Hserve)
    as (id & d & request & response & Hid & Hd & _ & Hanswer & _ & Htexts).
  injection Hid as <-. vm_compute in Hd. injection Hd as <-.
  injection Hanswer as <-. exact Htexts.
Defined.


(** After the regeneration of d1, an approve of d1 is refused and a
    reject of the new draft is carried out. *)
Lemma superseded_draft_is_closed_witness :
  let E := Scenario.env Scenario.published (Chat.Ok "yes") in
  let w' := snd (Regenerate.serve E Scenario.regenerate (Scenario.one_draft pending)) in
  Decision.serve E (Scenario.decide "approve" None) w'
  = (Error500 "Draft already processed (status: superseded)", w') /\
  exists w'',
    Decision.serve E (Cases.decide "draft-2" "reject" None None) w'
    = (Ok200 Decision.Rejected, w'').
Proof.
  intros E w'.
  destruct (Regenerate.serve E Scenario.regenerate (Scenario.one_draft pending))
    as [r w1] eqn:Hserve.
  assert (exists newDraft, r = Ok200 newDraft) as [newDraft ->].
  { apply (f_equal fst) in Hserve. vm_compute in Hserve. subst r. eauto. }
  assert (Draft.id newDraft = "draft-2") as Hid.
  { apply (f_equal fst) in Hserve. vm_compute in Hserve. injection Hserve as <-.
    reflexivity. }
  subst w'. cbn [snd]. split.
  - apply (proj1 (superseded_draft_is_closed E E Scenario.regenerate
                    (Scenario.one_draft pending) w1 newDraft
                    (Scenario.decide "approve" None) Hserve eq_refl)).
    reflexivity.
  - apply (proj2 (proj2 (proj2
             (superseded_draft_is_closed E E Scenario.regenerate
                (Scenario.one_draft pending) w1 newDraft
                (Cases.decide "draft-2" "reject" None None) Hserve eq_refl)))).
    + rewrite Hid. reflexivity.
    + rewrite Hid. discriminate.
    + reflexivity.
Defined.

(** A run without the OpenAI key. *)
Lemma run_needs_configuration_witness :
  let E := Scenario.env Scenario.published (Chat.Ok "yes") in
  Poll.serve E Cases.no_openai_key
  = (Error500 "OPENAI_API_KEY not configured in Supabase secrets", Cases.no_openai_key).
Proof.
  intros E. apply (proj1 (run_needs_configuration E Cases.no_openai_key)).
  reflexivity.
Defined.

(** Two submolts fetched, the second answered with a page that is not ok:
    the seven posts of the first are returned.  Three submolts fetched,
    the second answered with a page that cannot be read: the loop throws
    there, and the third is not fetched. *)
Lemma fetch_posts_collects_witness :
  let w := Scenario.recent_post false in
  (exists w',
     Poll.fetch_posts Cases.env_busy ["general"; "void"] [] w
     = (Return (Cases.post <$> ["p1"; "p2"; "p3"; "p4"; "p5"; "p6"; "p7"]), w') /\
     outbound w' = [ToFeed "general"; ToFeed "void"]) /\
  (exists w',
     Poll.fetch_posts Cases.env_broken ["general"; "void"; "later"] [] w
     = (Throw "data.posts is not iterable", w') /\
     outbound w' = [ToFeed "general"; ToFeed "void"]).
Proof.
  intros w. split.
  - destruct (proj1 (fetch_posts_collects Cases.env_busy ["general"; "void"] [] w))
      as (r & w' & Hrun & _ & _ & _ & _ & Hr).
    simpl in Hr. destruct Hr as (-> & Hout & _).
    exists w'. split; [exact Hrun|exact Hout].
  - destruct (proj1 (fetch_posts_collects Cases.env_broken
                       ["general"; "void"; "later"] [] w))
      as (r & w' & Hrun & _ & _ & _ & _ & Hr).
    simpl in Hr. destruct Hr as (-> & _ & Hout).
    exists w'. split; [exact Hrun|exact Hout].
Defined.

(** A run over a feed of seven new posts: seven are counted, five are
    checked. *)
Lemma run_checks_at_most_five_witness :
  let w := Scenario.recent_post false in
  let after := Poll.serve Cases.env_busy w in
  (Poll.posts_checked <$>
     match fst after with
     | Ok200 body => Some body
     | Error500 _ => None
     end) = Some 7%nat /\
  length (List.filter is_relevance_check (outbound (snd after))) = 5%nat.
Proof.
  intros w after. split; [vm_compute; reflexivity|].
  destruct (run_checks_at_most_five Cases.env_busy w (snd after)
              (Ok200 {| Poll.posts_checked := 7;
                        Poll.drafts_created := 0;
                        Poll.auto_posted := false |})
              (outbound (snd after)))
    as [_ Hdone].
  - vm_compute. reflexivity.
  - reflexivity.
  - rewrite (Hdone _ eq_refl). reflexivity.
Defined.

(** A run with auto-post on whose publish call is accepted: the post
    draft d0 that was in the queue is as it was. *)
Lemma run_keeps_existing_drafts_witness :
  let E := Scenario.env Scenario.published (Chat.Ok "yes") in
  let w := Scenario.recent_post true in
  post_queue (snd (Poll.serve E w)) !! "d0"
  = Some (Scenario.draft "d0" Post approved (Scenario.clock0 - 10 * 60000)).
Proof.
  intros E w.
  apply (run_keeps_existing_drafts E w (snd (Poll.serve E w)) (fst (Poll.serve E w))).
  - apply surjective_pairing.
  - vm_compute. reflexivity.
Defined.

(** The same run: the reply it created and published is rooted at itself
    and posted. *)
Lemma run_creates_rooted_drafts_witness :
  let E := Scenario.env Scenario.published (Chat.Ok "yes") in
  let w := Scenario.recent_post true in
  match post_queue (snd (Poll.serve E w)) !! "draft-4" with
  | Some d' =>
      Draft.root_draft_id d' = Some "draft-4" /\
      Draft.generation_attempt d' = 0 /\
      Draft.status d' = posted
  | None => False
  end.
Proof.
  intros E w.
  destruct (post_queue (snd (Poll.serve E w)) !! "draft-4") as [d'|] eqn:Hd'.
  - destruct (run_creates_rooted_drafts E w (snd (Poll.serve E w))
                (fst (Poll.serve E w)) (Scenario.config true) "draft-4" d')
      as (_ & Hroot & Hattempt & _).
    + apply surjective_pairing.
    + reflexivity.
    + vm_compute. reflexivity.
    + exact Hd'.
    + split; [exact Hroot|]. split; [exact Hattempt|].
      assert ((Draft.status <$> post_queue (snd (Poll.serve E w)) !! "draft-4")
              = Some posted) as Hst by (vm_compute; reflexivity).
      rewrite Hd' in Hst. injection Hst as ->. reflexivity.
  - vm_compute in Hd'. discriminate.
Defined.

(** The same run: the log gains a generated and a posted entry, both for
    the new reply. *)
Lemma run_log_entries_witness :
  let E := Scenario.env Scenario.published (Chat.Ok "yes") in
  let w := Scenario.recent_post true in
  let w' := snd (Poll.serve E w) in
  (ActivityLogEntry.action <$> activity_log w') = ["generated"; "posted"] /\
  forall e, e ∈ activity_log w' ->
    post_queue w !! ActivityLogEntry.post_queue_id e = None.
Proof.
  intros E w w'. split; [vm_compute; reflexivity|].
  destruct (run_log_entries E w w' (fst (Poll.serve E w)) (Scenario.config true))
    as (entries & Hlog & Hall).
  - apply surjective_pairing.
  - reflexivity.
  - intros e He. rewrite Hlog in He. simpl in He. apply Hall, He.
Defined.

(** The same run: one draft created, one row more. *)
Lemma drafts_created_counts_new_rows_witness :
  let E := Scenario.env Scenario.published (Chat.Ok "yes") in
  let w := Scenario.recent_post true in
  size (post_queue (snd (Poll.serve E w))) = (size (post_queue w) + 1)%nat.
Proof.
  intros E w.
  apply (drafts_created_counts_new_rows E w (snd (Poll.serve E w))
           {| Poll.posts_checked := 1;
              Poll.drafts_created := 1;
              Poll.auto_posted := true |}).
  vm_compute. reflexivity.
Defined.

(** The run of scenario 4 with auto-post off: a reply is drafted and
    nothing is published. *)
Lemma run_without_auto_post_publishes_nothing_witness :
  let E := Scenario.env Scenario.published (Chat.Ok "yes") in
  let w := Scenario.recent_post false in
  let w' := snd (Poll.serve E w) in
  (forall o, o ∈ outbound w' -> is_publish o = false) /\
  (Draft.status <$> post_queue w' !! "draft-4") = Some pending.
Proof.
  intros E w w'.
  destruct (run_without_auto_post_publishes_nothing E w w' (fst (Poll.serve E w))
              (Scenario.config false) (outbound w'))
    as (Hsent & _).
  - apply surjective_pairing.
  - reflexivity.
  - reflexivity.
  - reflexivity.
  - split; [exact Hsent|]. vm_compute. reflexivity.
Defined.

(** The publish step on d1, accepted: d1 is posted with the remote id m1,
    and an approve of it is refused. *)
Lemma auto_post_records_and_closes_witness :
  let E := Scenario.env Scenario.published (Chat.Ok "yes") in
  let w := Scenario.one_draft pending in
  exists w' d',
    Poll.postToMoltbook E "d1" "moltbook-key" w = (Return tt, w') /\
    post_queue w' !! "d1" = Some d' /\
    Draft.status d' = posted /\
    Draft.moltbook_comment_id d' = Some "m1" /\
    Decision.serve E (Scenario.decide "approve" None) w'
    = (Error500 "Draft already processed (status: posted)", w').
Proof.
  intros E w.
  destruct (auto_post_records_and_closes E E "d1" "moltbook-key" w
              (Scenario.draft "d1" Reply pending (Scenario.clock0 - 60 * 60000))
              (Some "m1") (Scenario.decide "approve" None))
    as (w' & d' & Hrun & _ & Hd' & Hstatus & _ & _ & _ & _ & Hremote & _ & Hclosed).
  - vm_compute. reflexivity.
  - reflexivity.
  - reflexivity.
  - exists w', d'. split; [exact Hrun|]. split; [exact Hd'|].
    split; [exact Hstatus|]. split; [exact (Hremote "m1" eq_refl)|].
    apply Hclosed; [reflexivity|discriminate|reflexivity].
Defined.

(** The publish step on d1, accepted with a body that does not parse: it
    throws and d1 is as it was. *)
Lemma postToMoltbook_touches_one_row_witness :
  let E := Scenario.env Cases.garbled (Chat.Ok "yes") in
  let w := Scenario.one_draft pending in
  let after := Poll.postToMoltbook E "d1" "moltbook-key" w in
  fst after = Throw "Unexpected token in JSON" /\
  post_queue (snd after) = post_queue w.
Proof.
  intros E w after. split; [vm_compute; reflexivity|].
  destruct (postToMoltbook_touches_one_row E "d1" "moltbook-key" w (snd after)
              (fst after))
    as (_ & _ & Hthrow).
  - apply surjective_pairing.
  - destruct (Hthrow "Unexpected token in JSON") as (draft & _ & _ & Hq & _).
    + vm_compute. reflexivity.
    + exact Hq.
Defined.

(** The reply loop on the post of the feed: one draft, a reply to p1 with
    a snapshot of p1. *)
Lemma reply_drafts_snapshot_their_post_witness :
  let E := Scenario.env Scenario.published (Chat.Ok "yes") in
  let w := Scenario.recent_post false in
  let after :=
    Poll.reply_posts E "openai-key" "moltbook-key" (Scenario.config false)
      [Scenario.feed_post] [] w in
  exists inserted,
    fst after = Return [inserted] /\
    Draft.reply_to_post_id inserted = Some "p1" /\
    Draft.content inserted = Some "A thought." /\
    (Context.original_post <$> Draft.context inserted)
    = Some (Some {| Context.id := "p1";
                    Context.title := "Agents and tools";
                    Context.content := "How do agents pick their tools?";
                    Context.author := "alice";
                    Context.submolt := "general" |}).
Proof.
  intros E w after.
  destruct after as [r w'] eqn:Hrun. subst after.
  assert (exists inserted, r = Return [inserted]) as [inserted ->].
  { apply (f_equal fst) in Hrun. vm_compute in Hrun. subst r. eauto. }
  exists inserted. split; [reflexivity|].
  destruct (reply_drafts_snapshot_their_post E "openai-key" "moltbook-key"
              (Scenario.config false) [Scenario.feed_post] [] [inserted] w w' Hrun)
    as (new & Hnew & _ & Hall).
  simpl in Hnew. subst new.
  destruct (Hall inserted) as (post & n & completion & Hpost & Hanswer & _ & Hcontent
                               & _ & Htarget & _ & _ & _ & _ & Hcontext); [left|].
  apply list_elem_of_singleton in Hpost. subst post.
  injection Hanswer as <-.
  split; [exact Htarget|]. split; [exact Hcontent|].
  rewrite Hcontext. reflexivity.
Defined.

(** The cooldown step with a generator whose completion is not JSON: the
    step throws and the queue is as it was. *)
Lemma original_post_of_completion_witness :
  let E := Cases.env_raw Scenario.published in
  let w := Scenario.recent_post false in
  exists e w',
    Poll.create_original_post E "openai-key" "moltbook-key" (Scenario.config false)
      [] w = (Throw e, w') /\
    post_queue w' = post_queue w.
Proof.
  intros E w.
  destruct (proj1 (original_post_of_completion E "openai-key" "moltbook-key"
                     (Scenario.config false) [] w) "Just some prose.")
    as (e & w' & Hrun & Hq & _).
  - reflexivity.
  - reflexivity.
  - exists e, w'. split; [exact Hrun|exact Hq].
Defined.

(** Scenario 4 of the specification, in milliseconds: ten minutes after
    the last post a cooldown of sixty minutes is not met, and sixty
    minutes after it is. *)
Lemma cooldown_in_milliseconds_witness :
  Poll.minutes_ge (Poll.minutesSince (10 * 60000) 0) 60 = false /\
  Poll.minutes_ge (Poll.minutesSince (60 * 60000) 0) 60 = true.
Proof.
  split.
  - destruct (Poll.minutes_ge (Poll.minutesSince (10 * 60000) 0) 60) eqn:H;
      [|reflexivity].
    apply (proj1 (cooldown_in_milliseconds (10 * 60000) 0 60)) in H. lia.
  - apply (proj1 (cooldown_in_milliseconds (60 * 60000) 0 60)). lia.
Defined.

(** The run over the feed of seven new posts: the first is marked, the
    sixth is not. *)
Lemma posts_beyond_the_fifth_stay_new_witness :
  let w := Scenario.recent_post false in
  let w' := snd (Poll.serve Cases.env_busy w) in
  "p1" ∈ seen_posts w' /\ "p6" ∉ seen_posts w'.
Proof.
  intros w w'.
  destruct (posts_beyond_the_fifth_stay_new Cases.env_busy w w'
              {| Poll.posts_checked := 7;
                 Poll.drafts_created := 0;
                 Poll.auto_posted := false |} (Scenario.config false))
    as [_ Hmarked].
  - vm_compute. reflexivity.
  - reflexivity.
  - split.
    + apply (Hmarked (Cases.post "p1")).
      * apply list_elem_of_filter. split; [apply not_elem_of_empty|left].
      * left.
    + intros Hin. apply (Hmarked (Cases.post "p6")) in Hin.
      * vm_compute in Hin. repeat (apply elem_of_cons in Hin;
          destruct Hin as [Hin|Hin]; [discriminate|]).
        apply elem_of_nil in Hin. exact Hin.
      * apply list_elem_of_filter. split; [apply not_elem_of_empty|].
        do 5 right. left.
Defined.
